(** * obsidian-singularity: link synchronisation and record cache

    A shallow embedding of the TypeScript sources

    - [api/singularity.ts]  (class [SingularityAPI]: the rich-text link editor),
    - [sync/obsidianLink.ts] (class [ObsidianLinkSync]: identity scheme and
      synchroniser),
    - [cache/taskCache.ts]  (class [TaskCache]: the time-boxed record cache),
    - [types.ts]            ([buildObsidianUrl], [buildSingularityUrl],
      [extractTaskId]),
    - [renderer/livePreview.ts] (the two searches for a markdown link around
      a reference),

    followed by the properties of the specification that were checked
    against them, and by further properties read off the sources.

    Conventions.  JavaScript strings are modelled by [string]; every string
    operation used by the sources ([startsWith], [endsWith], [includes],
    [indexOf], [substring], the regular expressions) only looks for
    ASCII patterns, for which the byte view and the UTF-16 view of a text
    agree.  Integers ([Date.now()], array indices, nibbles) are [Z] or
    [nat].  Promises are modelled by a state-and-exception monad over an
    explicit [World]: a rejected promise is a [Throw]. *)

From Stdlib Require Import ZArith Ascii String Bool Lia.
From Stdlib Require Import DecimalString DecimalN.
From stdpp Require Import base option list gmap strings.

Local Open Scope Z_scope.

(** ** JavaScript string primitives *)

Module JSString.

Fixpoint startsWith (s p : string) {struct p} : bool :=
  match p with
  | EmptyString => true
  | String c p' =>
      match s with
      | EmptyString => false
      | String d s' => Ascii.eqb d c && startsWith s' p'
      end
  end.

(** [s.indexOf(p)] with the JavaScript convention: [-1] when absent. *)
Fixpoint indexOf (s p : string) : Z :=
  if startsWith s p then 0
  else match s with
       | EmptyString => -1
       | String _ s' => let k := indexOf s' p in if k <? 0 then -1 else k + 1
       end.

Definition includes (s p : string) : bool := 0 <=? indexOf s p.

(** [s.substring(0, n)] for [0 <= n]. *)
Fixpoint firstChars (n : nat) (s : string) : string :=
  match n, s with
  | O, _ => EmptyString
  | S n', String c s' => String c (firstChars n' s')
  | S _, EmptyString => EmptyString
  end.

Definition substring0 (s : string) (n : Z) : string := firstChars (Z.to_nat n) s.

Fixpoint dropChars (n : nat) (s : string) : string :=
  match n, s with
  | O, _ => s
  | S n', String _ s' => dropChars n' s'
  | S _, EmptyString => EmptyString
  end.

Definition endsWith (s p : string) : bool :=
  (String.length p <=? String.length s)%nat &&
  String.eqb (dropChars (String.length s - String.length p) s) p.

(** Characters absent from a text. *)
Fixpoint lacks (c : ascii) (s : string) : bool :=
  match s with
  | EmptyString => true
  | String d s' => negb (Ascii.eqb d c) && lacks c s'
  end.

End JSString.

Import JSString.



(** ** Results of fallible code

    A thrown exception, or a rejected promise, is a [Throw]. *)

Inductive JSError :=
  | TypeError                      (* property read on undefined/null, ... *)
  | ApiError (status : Z)          (* Singularity API error: <status> ... *)
  | TokenNotConfigured             (* Singularity API token not configured *)
  | SyntaxError                    (* JSON.parse on a text that is not JSON *)
  | IOError.                       (* a rejection of the host file manager *)

Inductive result (A : Type) :=
  | Ok (a : A)
  | Throw (e : JSError).
Arguments Ok {A} a.
Arguments Throw {A} e.

Definition isThrow {A} (r : result A) : bool :=
  match r with Ok _ => false | Throw _ => true end.

(** ** types.ts: the Delta format *)

Module Delta.

Inductive AttrValue :=
  | AttrBool (b : bool)
  | AttrString (s : string)
  | AttrNumber (n : Z).

(** [attributes?: { link?: string; bold?: boolean; ...; [key: string]: unknown }]:
    the link, and the other formatting attributes by key. *)
Record Attributes := {
  link : option string;
  formats : list (string * AttrValue);
}.

Record Op := {
  insert : string;
  attributes : option Attributes;
}.

(** [op.attributes?.link] *)
Definition linkOf (op : Op) : option string :=
  match attributes op with
  | Some a => link a
  | None => None
  end.

(** [{ ...op.attributes, link: url }] *)
Definition withLink (a : option Attributes) (url : string) : Attributes :=
  {| link := Some url;
     formats := match a with Some a => formats a | None => [] end |}.

(** The line feed and the double quote, as one-character texts. *)
Definition LF : string := String "010"%char EmptyString.
Definition DQUOTE : string := String "034"%char EmptyString.

Definition newline : Op := {| insert := LF; attributes := None |}.

(** What [JSON.parse] returns for the content of a note.  [VOps] are the
    values of type [DeltaOp[]]; the remaining constructors are the JSON
    values that are neither arrays, objects nor strings. *)
Inductive JSONValue :=
  | VOps (ops : list Op)
  | VNull
  | VBool (b : bool)
  | VNumber (lexeme : string).

(** The content string of a note, as [JSON.parse] sees it: a text that is
    not JSON, or the JSON text of a value. *)
Inductive JSONText :=
  | Malformed (raw : string)
  | Denotes (v : JSONValue).

Definition JSON_parse (t : JSONText) : result JSONValue :=
  match t with
  | Malformed _ => Throw SyntaxError
  | Denotes v => Ok v
  end.

Definition JSON_stringify (ops : list Op) : JSONText := Denotes (VOps ops).

End Delta.

(** ** Arrays as heap objects

    [DeltaOp[]] values are JavaScript arrays, which [pop], [push] and an
    indexed assignment change in place.  The link editor is written against
    a heap of arrays so that what it mutates is explicit. *)

Module JSArray.

Definition loc := nat.
Abbreviation Heap := (gmap nat (list Delta.Op)).

Definition Prog (A : Type) : Type := Heap → result (A * Heap).

Definition ret {A} (a : A) : Prog A := fun h => Ok (a, h).
Definition bind {A B} (m : Prog A) (k : A → Prog B) : Prog B :=
  fun h => match m h with
           | Ok (a, h') => k a h'
           | Throw e => Throw e
           end.
Definition throw {A} (e : JSError) : Prog A := fun _ => Throw e.
Definition when (b : bool) (m : Prog unit) : Prog unit := if b then m else ret tt.

Declare Scope arr_scope.
Delimit Scope arr_scope with arr.
Notation "'let*' x ':=' m 'in' k" := (bind m (fun x => k))
  (at level 10, x name, k at level 200) : arr_scope.
Notation "m ;; k" := (bind m (fun _ => k))
  (at level 100, right associativity) : arr_scope.

(** Reading the elements of an array; a dangling reference cannot be built
    by the programs below and is reported as a [TypeError]. *)
Definition read (a : loc) : Prog (list Delta.Op) :=
  fun h => match h !! a with
           | Some ops => Ok (ops, h)
           | None => Throw TypeError
           end.

Definition write (a : loc) (ops : list Delta.Op) : Prog unit :=
  fun h => Ok (tt, <[a := ops]> h).

(** [[...a]]: a fresh array holding the same elements. *)
Definition spread (a : loc) : Prog loc :=
  fun h => match h !! a with
           | Some ops => let r := fresh (dom h) in Ok (r, <[r := ops]> h)
           | None => Throw TypeError
           end.

(** [a.length] *)
Definition len (a : loc) : Prog nat :=
  (let* ops := read a in ret (length ops))%arr.

(** [a[i]]: [None] is [undefined]. *)
Definition get (a : loc) (i : nat) : Prog (option Delta.Op) :=
  (let* ops := read a in ret (ops !! i))%arr.

(** [a[i] = op], used by the editor only at an index it has just read an
    element from; past the end a JavaScript array would grow, which a list
    update does not. *)
Definition set (a : loc) (i : nat) (op : Delta.Op) : Prog unit :=
  (let* ops := read a in write a (<[i := op]> ops))%arr.

(** [a.pop()] *)
Definition pop (a : loc) : Prog unit :=
  (let* ops := read a in write a (removelast ops))%arr.

(** [a.push(...xs)] *)
Definition push (a : loc) (xs : list Delta.Op) : Prog unit :=
  (let* ops := read a in write a (ops ++ xs))%arr.

(** Running an editor function on a freshly parsed array and serialising
    what it returns. *)
Definition runOn (f : loc → Prog loc) (ops : list Delta.Op) : result (list Delta.Op) :=
  match (let* r := f 0%nat in read r)%arr {[ 0%nat := ops ]} with
  | Ok (ops', _) => Ok ops'
  | Throw e => Throw e
  end.

End JSArray.

(** ** api/singularity.ts: the rich-text link editor *)

Module SingularityAPI.

Import JSArray.
Local Open Scope arr_scope.

Definition SID_FRAGMENT : string := "#sid=".

(** The loop [for (i = 0; i < ops.length; i++) if (hit(ops[i])) return {index: i, op}]. *)
Fixpoint scanFrom (hit : Delta.Op → bool) (i : nat) (ops : list Delta.Op)
  : option (nat * Delta.Op) :=
  match ops with
  | [] => None
  | op :: rest => if hit op then Some (i, op) else scanFrom hit (S i) rest
  end.

(** [op.attributes?.link?.includes(sidFragment)] *)
Definition carriesSid (sidFragment : string) (op : Delta.Op) : bool :=
  match Delta.linkOf op with
  | Some l => includes l sidFragment
  | None => false
  end.

Definition findObsidianLinkById (deltaOps : list Delta.Op) (singularityId : string)
  : option (nat * Delta.Op) :=
  let sidFragment := SID_FRAGMENT +:+ singularityId in
  scanFrom (carriesSid sidFragment) 0 deltaOps.

(** The test of [findAnyObsidianLink]: an [obsidian://] link that is not
    yet marked with a sid. *)
Definition isLegacyLink (op : Delta.Op) : bool :=
  match Delta.linkOf op with
  | Some l => startsWith l "obsidian://" && negb (includes l SID_FRAGMENT)
  | None => false
  end.

Definition findAnyObsidianLink (deltaOps : list Delta.Op) : option (nat * Delta.Op) :=
  scanFrom isLegacyLink 0 deltaOps.

Definition findObsidianLink (deltaOps : list Delta.Op) : option (nat * Delta.Op) :=
  scanFrom (fun op => match Delta.linkOf op with
                      | Some l => startsWith l "obsidian://"
                      | None => false
                      end) 0 deltaOps.

Definition linkText (noteTitle : string) : string :=
  "Obsidian: " +:+ Delta.DQUOTE +:+ noteTitle +:+ Delta.DQUOTE.

Definition parseNoteContent (content : Delta.JSONText) : Delta.JSONValue :=
  match Delta.JSON_parse content with
  | Ok v => v
  | Throw _ => Delta.VOps []
  end.

Definition createNoteLinkOps (noteTitle obsidianUrl singularityId : string)
  : list Delta.Op :=
  let urlWithSid := obsidianUrl +:+ SID_FRAGMENT +:+ singularityId in
  [ {| Delta.insert := linkText noteTitle;
       Delta.attributes := Some {| Delta.link := Some urlWithSid; Delta.formats := [] |} |};
    Delta.newline ].

(** [op?.insert === LF && !op.attributes] *)
Definition isOnlyNewline (op : option Delta.Op) : bool :=
  match op with
  | Some op => String.eqb (Delta.insert op) Delta.LF
               && negb (bool_decide (is_Some (Delta.attributes op)))
  | None => false
  end.

Definition updateObsidianLinkById
    (deltaOps : loc) (noteTitle obsidianUrl singularityId : string) : Prog loc :=
  let* ops := spread deltaOps in
  let* elems := read ops in
  let existing := findObsidianLinkById elems singularityId in
  let urlWithSid := obsidianUrl +:+ SID_FRAGMENT +:+ singularityId in
  match existing with
  | Some (index, op) =>
      set ops index
        {| Delta.insert := linkText noteTitle;
           Delta.attributes := Some (Delta.withLink (Delta.attributes op) urlWithSid) |} ;;
      ret ops
  | None =>
      let newLinkOps := createNoteLinkOps noteTitle obsidianUrl singularityId in
      (let* n := len ops in
       when (0 <? n)%nat
         (let* lastOp := get ops (n - 1) in
          when (isOnlyNewline lastOp) (pop ops))) ;;
      (let* n := len ops in
       when (0 <? n)%nat (push ops [Delta.newline])) ;;
      push ops newLinkOps ;;
      ret ops
  end.

(** [if (op.attributes?.link)]: the link is present and not the empty text. *)
Definition truthyLink (op : Delta.Op) : option string :=
  match Delta.linkOf op with
  | Some EmptyString => None
  | other => other
  end.

Definition addSidToLink (deltaOps : loc) (linkIndex : nat) (singularityId : string)
  : Prog loc :=
  let* ops := spread deltaOps in
  let* op := get ops linkIndex in
  match op with
  | None => throw TypeError         (* [op.attributes] with [op] undefined *)
  | Some op =>
      match truthyLink op with
      | Some l =>
          let newUrl := l +:+ SID_FRAGMENT +:+ singularityId in
          set ops linkIndex
            {| Delta.insert := Delta.insert op;
               Delta.attributes := Some (Delta.withLink (Delta.attributes op) newUrl) |}
      | None => ret tt
      end ;;
      ret ops
  end.

Definition createInitialDelta (noteTitle obsidianUrl singularityId : string)
  : list Delta.Op :=
  createNoteLinkOps noteTitle obsidianUrl singularityId.

End SingularityAPI.

(** ** types.ts: records of the Singularity API *)

Module SingularityTask.
Record t := {
  id : string;                 (* T-{uuid} *)
  title : string;
  note : option string;        (* N-T-{uuid} or null *)
  projectId : string;
  tags : option (list string); (* [task.tags || []] allows for a missing list *)
  checked : Z;                 (* 1 = completed, 2 = cancelled *)
}.
End SingularityTask.

Module SingularityTag.
Record t := {
  id : string;
  title : string;
  color : option string;
  parent : option string;
}.
End SingularityTag.

Module KanbanStatus.
Record t := {
  id : string;    (* KS-P-{uuid}-TODO | ...-IN-PROGRESS | ...-DONE | KS-{uuid} *)
  name : string;
  kanbanOrder : Z;
}.
End KanbanStatus.

Module TaskKanbanStatus.
Record t := {
  taskId : string;
  statusId : string;
}.
End TaskKanbanStatus.

Module SingularityNote.
Record t := {
  id : string;
  content : Delta.JSONText;   (* JSON string of DeltaOp[] *)
}.
End SingularityNote.

Module Status.
Record t := { id : string; name : string }.
End Status.

Module TaskData.
Record t := {
  id : string;
  title : string;
  projectId : string;
  status : option Status.t;
  tags : list SingularityTag.t;
  noteId : option string;
  isCompleted : bool;
  isCancelled : bool;
}.
End TaskData.

Module CacheEntry.
Record t (T : Type) := { data : T; timestamp : Z }.
Arguments data {T} _.
Arguments timestamp {T} _.
End CacheEntry.

Inductive Language := en | ru.

(** The entries of a locale that the cache reads. *)
Record Locale := { statusDone : string; statusCancelled : string }.

(** ** The world the plugin runs in *)

(** Requests issued to the remote store, in the order they are sent. *)
Inductive Request :=
  | GetTask (taskId : string)
  | GetNote (noteId : string)
  | PatchTaskNote (taskId : string) (deltaOps : list Delta.Op)
  | GetKanbanStatuses (projectId : string)
  | GetTaskKanbanStatus (taskId : string)
  | GetTags.

Definition isWrite (r : Request) : bool :=
  match r with PatchTaskNote _ _ => true | _ => false end.

(** The remote store, by what it answers.  The list endpoints are given
    after [normalizeArrayResponse]. *)
Record Remote := {
  task_of : string → result SingularityTask.t;
  note_of : string → result SingularityNote.t;
  kanbanStatuses_of : string → result (list KanbanStatus.t);
  taskKanbanStatus_of : string → result (list TaskKanbanStatus.t);
  all_tags : result (list SingularityTag.t);
}.

Record World := {
  (* the vault: the string leaves of the front matter of the note under
     synchronisation, keyed by the dotted/bracketed path that
     [findAllSingularityUrls] computes, in discovery order *)
  frontmatter : list (string * string);
  frontmatterWritable : bool;     (* does [processFrontMatter] resolve? *)
  (* the plugin *)
  token : string;
  vaultName : string;
  cacheTTL : Z;                   (* minutes *)
  language : Language;
  taskCache : gmap string (CacheEntry.t TaskData.t);
  kanbanCache : gmap string (CacheEntry.t (list KanbanStatus.t));
  tagsCache : option (CacheEntry.t (list SingularityTag.t));
  (* the environment *)
  remote : Remote;
  requests : list Request;        (* the requests sent so far *)
  clock : nat → Z;                (* successive readings of [Date.now()] *)
  clockReads : nat;
  random : nat → Z;               (* successive values of [(Math.random() * 16) | 0] *)
  randomReads : nat;
}.

(** A computation that may change the world and may throw; the world is
    kept when it throws. *)
Definition M (A : Type) : Type := World → result A * World.

Module MNotations.
Declare Scope m_scope.
Delimit Scope m_scope with M.
Definition ret {A} (a : A) : M A := fun w => (Ok a, w).
Definition bind {A B} (m : M A) (k : A → M B) : M B :=
  fun w => match m w with
           | (Ok a, w') => k a w'
           | (Throw e, w') => (Throw e, w')
           end.
Definition throw {A} (e : JSError) : M A := fun w => (Throw e, w).
(** [try { m } catch { h }] *)
Definition try_catch {A} (m : M A) (h : JSError → M A) : M A :=
  fun w => match m w with
           | (Ok a, w') => (Ok a, w')
           | (Throw e, w') => h e w'
           end.
Definition gets {A} (f : World → A) : M A := fun w => (Ok (f w), w).
Definition modify (f : World → World) : M unit := fun w => (Ok tt, f w).
Definition liftResult {A} (r : result A) : M A := fun w => (r, w).
Notation "'let*' x ':=' m 'in' k" := (bind m (fun x => k))
  (at level 10, x name, k at level 200) : m_scope.
Notation "m ;; k" := (bind m (fun _ => k))
  (at level 100, right associativity) : m_scope.
End MNotations.

(** Field updates of [World]. *)

Definition with_frontmatter (f : list (string * string) → list (string * string)) (w : World) : World :=
  {| frontmatter := f (frontmatter w);
     frontmatterWritable := frontmatterWritable w;
     token := token w;
     vaultName := vaultName w;
     cacheTTL := cacheTTL w;
     language := language w;
     taskCache := taskCache w;
     kanbanCache := kanbanCache w;
     tagsCache := tagsCache w;
     remote := remote w;
     requests := requests w;
     clock := clock w;
     clockReads := clockReads w;
     random := random w;
     randomReads := randomReads w |}.

Definition with_cacheTTL (f : Z → Z) (w : World) : World :=
  {| frontmatter := frontmatter w;
     frontmatterWritable := frontmatterWritable w;
     token := token w;
     vaultName := vaultName w;
     cacheTTL := f (cacheTTL w);
     language := language w;
     taskCache := taskCache w;
     kanbanCache := kanbanCache w;
     tagsCache := tagsCache w;
     remote := remote w;
     requests := requests w;
     clock := clock w;
     clockReads := clockReads w;
     random := random w;
     randomReads := randomReads w |}.

Definition with_language (f : Language → Language) (w : World) : World :=
  {| frontmatter := frontmatter w;
     frontmatterWritable := frontmatterWritable w;
     token := token w;
     vaultName := vaultName w;
     cacheTTL := cacheTTL w;
     language := f (language w);
     taskCache := taskCache w;
     kanbanCache := kanbanCache w;
     tagsCache := tagsCache w;
     remote := remote w;
     requests := requests w;
     clock := clock w;
     clockReads := clockReads w;
     random := random w;
     randomReads := randomReads w |}.

Definition with_taskCache (f : gmap string (CacheEntry.t TaskData.t) → gmap string (CacheEntry.t TaskData.t)) (w : World) : World :=
  {| frontmatter := frontmatter w;
     frontmatterWritable := frontmatterWritable w;
     token := token w;
     vaultName := vaultName w;
     cacheTTL := cacheTTL w;
     language := language w;
     taskCache := f (taskCache w);
     kanbanCache := kanbanCache w;
     tagsCache := tagsCache w;
     remote := remote w;
     requests := requests w;
     clock := clock w;
     clockReads := clockReads w;
     random := random w;
     randomReads := randomReads w |}.

Definition with_kanbanCache (f : gmap string (CacheEntry.t (list KanbanStatus.t)) → gmap string (CacheEntry.t (list KanbanStatus.t))) (w : World) : World :=
  {| frontmatter := frontmatter w;
     frontmatterWritable := frontmatterWritable w;
     token := token w;
     vaultName := vaultName w;
     cacheTTL := cacheTTL w;
     language := language w;
     taskCache := taskCache w;
     kanbanCache := f (kanbanCache w);
     tagsCache := tagsCache w;
     remote := remote w;
     requests := requests w;
     clock := clock w;
     clockReads := clockReads w;
     random := random w;
     randomReads := randomReads w |}.

Definition with_tagsCache (f : option (CacheEntry.t (list SingularityTag.t)) → option (CacheEntry.t (list SingularityTag.t))) (w : World) : World :=
  {| frontmatter := frontmatter w;
     frontmatterWritable := frontmatterWritable w;
     token := token w;
     vaultName := vaultName w;
     cacheTTL := cacheTTL w;
     language := language w;
     taskCache := taskCache w;
     kanbanCache := kanbanCache w;
     tagsCache := f (tagsCache w);
     remote := remote w;
     requests := requests w;
     clock := clock w;
     clockReads := clockReads w;
     random := random w;
     randomReads := randomReads w |}.

Definition with_remote (f : Remote → Remote) (w : World) : World :=
  {| frontmatter := frontmatter w;
     frontmatterWritable := frontmatterWritable w;
     token := token w;
     vaultName := vaultName w;
     cacheTTL := cacheTTL w;
     language := language w;
     taskCache := taskCache w;
     kanbanCache := kanbanCache w;
     tagsCache := tagsCache w;
     remote := f (remote w);
     requests := requests w;
     clock := clock w;
     clockReads := clockReads w;
     random := random w;
     randomReads := randomReads w |}.

Definition with_requests (f : list Request → list Request) (w : World) : World :=
  {| frontmatter := frontmatter w;
     frontmatterWritable := frontmatterWritable w;
     token := token w;
     vaultName := vaultName w;
     cacheTTL := cacheTTL w;
     language := language w;
     taskCache := taskCache w;
     kanbanCache := kanbanCache w;
     tagsCache := tagsCache w;
     remote := remote w;
     requests := f (requests w);
     clock := clock w;
     clockReads := clockReads w;
     random := random w;
     randomReads := randomReads w |}.

Definition with_clockReads (f : nat → nat) (w : World) : World :=
  {| frontmatter := frontmatter w;
     frontmatterWritable := frontmatterWritable w;
     token := token w;
     vaultName := vaultName w;
     cacheTTL := cacheTTL w;
     language := language w;
     taskCache := taskCache w;
     kanbanCache := kanbanCache w;
     tagsCache := tagsCache w;
     remote := remote w;
     requests := requests w;
     clock := clock w;
     clockReads := f (clockReads w);
     random := random w;
     randomReads := randomReads w |}.

Definition with_randomReads (f : nat → nat) (w : World) : World :=
  {| frontmatter := frontmatter w;
     frontmatterWritable := frontmatterWritable w;
     token := token w;
     vaultName := vaultName w;
     cacheTTL := cacheTTL w;
     language := language w;
     taskCache := taskCache w;
     kanbanCache := kanbanCache w;
     tagsCache := tagsCache w;
     remote := remote w;
     requests := requests w;
     clock := clock w;
     clockReads := clockReads w;
     random := random w;
     randomReads := f (randomReads w) |}.

(** ** Regular expressions of the sources

    Both regular expressions have the shape [/lit(grp[a-f0-9-]+)/i]: a
    literal, then a captured group made of a literal and a non-empty greedy
    run of the class.  Matching is case-insensitive and leftmost. *)

Module Regex.

Definition isLower (c : ascii) : bool :=
  (97 <=? nat_of_ascii c)%nat && (nat_of_ascii c <=? 122)%nat.

(** Canonicalisation under the [i] flag; only ASCII letters fold. *)
Definition canonicalize (c : ascii) : ascii :=
  if isLower c then ascii_of_nat (nat_of_ascii c - 32) else c.

Definition eqCI (c d : ascii) : bool := Ascii.eqb (canonicalize c) (canonicalize d).

(** The text left after [lit] has matched at the start of [s]. *)
Fixpoint afterLiteral (s lit : string) {struct lit} : option string :=
  match lit with
  | EmptyString => Some s
  | String c lit' =>
      match s with
      | EmptyString => None
      | String d s' => if eqCI d c then afterLiteral s' lit' else None
      end
  end.

(** The class [[a-f0-9-]] under the [i] flag. *)
Definition inClass (c : ascii) : bool :=
  let n := nat_of_ascii (canonicalize c) in
  ((65 <=? n)%nat && (n <=? 70)%nat) || ((48 <=? n)%nat && (n <=? 57)%nat) || (n =? 45)%nat.

Fixpoint takeWhile (P : ascii → bool) (s : string) : string :=
  match s with
  | EmptyString => EmptyString
  | String c s' => if P c then String c (takeWhile P s') else EmptyString
  end.

Definition isEmpty (s : string) : bool :=
  match s with EmptyString => true | _ => false end.

(** A match starting at the first character of [s]; the result is the
    captured group. *)
Definition matchHere (lit grp s : string) : option string :=
  match afterLiteral s lit with
  | Some s1 =>
      match afterLiteral s1 grp with
      | Some s2 =>
          let run := takeWhile inClass s2 in
          if isEmpty run then None
          else Some (firstChars (String.length grp) s1 +:+ run)
      | None => None
      end
  | None => None
  end.

(** [s.match(/lit(grp[a-f0-9-]+)/i)?.[1]] *)
Fixpoint capture (lit grp s : string) : option string :=
  match matchHere lit grp s with
  | Some g => Some g
  | None =>
      match s with
      | EmptyString => None
      | String _ s' => capture lit grp s'
      end
  end.

End Regex.

(** ** types.ts: URLs *)

Module Types.

Definition SINGULARITY_URL_REGEX_SINGLE (url : string) : option string :=
  Regex.capture "singularityapp://?&page=any&id=" "T-" url.

Definition extractTaskId (url : string) : option string :=
  SINGULARITY_URL_REGEX_SINGLE url.

(** [encodeURIComponent] on the UTF-8 bytes of a well-formed text: the
    unreserved characters [A-Z a-z 0-9 - _ . ! ~ * ' ( )] are kept, every
    other byte becomes [%XX]. *)
Definition isUnreserved (c : ascii) : bool :=
  let n := nat_of_ascii c in
  (((65 <=? n) && (n <=? 90)) || ((97 <=? n) && (n <=? 122)) || ((48 <=? n) && (n <=? 57))
   || (n =? 45) || (n =? 95) || (n =? 46) || (n =? 33) || (n =? 126) || (n =? 42)
   || (n =? 39) || (n =? 40) || (n =? 41))%nat.

Definition hexUpper (n : nat) : ascii :=
  match String.get n "0123456789ABCDEF" with
  | Some c => c
  | None => "0"%char
  end.

Definition percentEncode (c : ascii) : string :=
  let n := nat_of_ascii c in
  String "%"%char
    (String (hexUpper (n / 16)%nat) (String (hexUpper (n mod 16)%nat) EmptyString)).

Fixpoint encodeURIComponent (s : string) : string :=
  match s with
  | EmptyString => EmptyString
  | String c s' =>
      (if isUnreserved c then String c EmptyString else percentEncode c)
      +:+ encodeURIComponent s'
  end.

Definition buildObsidianUrl (vaultName filePath : string) : string :=
  "obsidian://open?vault=" +:+ encodeURIComponent vaultName
  +:+ "&file=" +:+ encodeURIComponent filePath.

Definition buildSingularityUrl (taskId : string) : string :=
  "singularityapp://?&page=any&id=" +:+ taskId.

End Types.

(** ** api/singularity.ts: requests *)

Module Api.

Import MNotations.
Local Open Scope m_scope.

(** [request]: refuses without a token, otherwise sends the request and
    yields the answer of the remote store ([status >= 400] is thrown). *)
Definition request {A} (req : Request) (answer : Remote → result A) : M A :=
  fun w =>
    if Regex.isEmpty (token w) then (Throw TokenNotConfigured, w)
    else (answer (remote w), with_requests (fun l => l ++ [req]) w).

Definition getTask (taskId : string) : M SingularityTask.t :=
  request (GetTask taskId) (fun r => task_of r taskId).

Definition getNote (noteId : string) : M SingularityNote.t :=
  request (GetNote noteId) (fun r => note_of r noteId).

Definition getKanbanStatuses (projectId : string) : M (list KanbanStatus.t) :=
  request (GetKanbanStatuses projectId) (fun r => kanbanStatuses_of r projectId).

Definition getTaskKanbanStatus (taskId : string) : M (list TaskKanbanStatus.t) :=
  request (GetTaskKanbanStatus taskId) (fun r => taskKanbanStatus_of r taskId).

Definition getTags : M (list SingularityTag.t) :=
  request GetTags all_tags.

(** JavaScript truthiness of [string | null]. *)
Definition truthy (s : option string) : option string :=
  match s with
  | Some EmptyString => None
  | other => other
  end.

(** The remote side of [PATCH /v2/task/{id}] with [{ note: JSON.stringify(ops) }].
    The store is not part of the repository; following the interface
    section of the specification, the body of the task becomes the
    serialised operations, under the note the task already has or a new one. *)
Definition patched (r : Remote) (taskId : string) (deltaOps : list Delta.Op)
  : result SingularityTask.t * Remote :=
  match task_of r taskId with
  | Throw e => (Throw e, r)
  | Ok t =>
      let noteId := match truthy (SingularityTask.note t) with
                    | Some n => n
                    | None => "N-" +:+ taskId
                    end in
      let t' := {| SingularityTask.id := SingularityTask.id t;
                   SingularityTask.title := SingularityTask.title t;
                   SingularityTask.note := Some noteId;
                   SingularityTask.projectId := SingularityTask.projectId t;
                   SingularityTask.tags := SingularityTask.tags t;
                   SingularityTask.checked := SingularityTask.checked t |} in
      (Ok t',
       {| task_of := fun k => if String.eqb k taskId then Ok t' else task_of r k;
          note_of := fun k =>
            if String.eqb k noteId
            then Ok {| SingularityNote.id := noteId;
                       SingularityNote.content := Delta.JSON_stringify deltaOps |}
            else note_of r k;
          kanbanStatuses_of := kanbanStatuses_of r;
          taskKanbanStatus_of := taskKanbanStatus_of r;
          all_tags := all_tags r |})
  end.

Definition updateTaskNote (taskId : string) (deltaOps : list Delta.Op)
  : M SingularityTask.t :=
  fun w =>
    if Regex.isEmpty (token w) then (Throw TokenNotConfigured, w)
    else
      let '(answer, r') := patched (remote w) taskId deltaOps in
      (answer,
       with_remote (fun _ => r')
         (with_requests (fun l => l ++ [PatchTaskNote taskId deltaOps]) w)).

End Api.

(** ** cache/taskCache.ts: invalidation (used by the synchroniser) *)

Module TaskCacheState.

Definition invalidateTask (taskId : string) : M unit :=
  MNotations.modify (with_taskCache (delete taskId)).

Definition invalidateAll : M unit :=
  MNotations.modify
    (fun w => with_tagsCache (fun _ => None)
                (with_kanbanCache (fun _ => ∅) (with_taskCache (fun _ => ∅) w))).

End TaskCacheState.

(** ** sync/obsidianLink.ts *)

Record TFile := { path : string; basename : string; extension : string }.

Module ObsidianLinkSync.

Import MNotations.
Local Open Scope m_scope.

(** [findAllSingularityUrls]: the string leaves that start with the scheme,
    each with its field path. *)
Definition findAllSingularityUrls (fm : list (string * string))
  : list (string * string) :=
  map (fun kv => (snd kv, fst kv))
      (filter (fun kv => Is_true (startsWith (snd kv) "singularityapp://")) fm).

(** [(Math.random() * 16) | 0] *)
Definition Math_random16 : M Z :=
  fun w => (Ok (random w (randomReads w)), with_randomReads S w).

Definition hexDigit (v : Z) : string :=
  match String.get (Z.to_nat v) "0123456789abcdef" with
  | Some c => String c EmptyString
  | None => EmptyString
  end.

Fixpoint hexDigits (fuel : nat) (v : Z) : string :=
  match fuel with
  | O => EmptyString
  | S fuel' =>
      if v <? 16 then hexDigit v
      else hexDigits fuel' (v / 16) +:+ hexDigit (v mod 16)
  end.

(** [v.toString(16)] for an integer [v]. *)
Definition toString16 (v : Z) : string :=
  if v <? 0 then "-" +:+ hexDigits (S (Z.to_nat (- v))) (- v)
  else hexDigits (S (Z.to_nat v)) v.

(** [template.replace(/[xy]/g, c => ...)], left to right. *)
Fixpoint replaceXY (template : string) : M string :=
  match template with
  | EmptyString => ret EmptyString
  | String c rest =>
      if Ascii.eqb c "x" || Ascii.eqb c "y" then
        let* r := Math_random16 in
        let v := if Ascii.eqb c "x" then r else Z.lor (Z.land r 3) 8 in
        let* tail := replaceXY rest in
        ret (toString16 v +:+ tail)
      else
        let* tail := replaceXY rest in
        ret (String c tail)
  end.

Definition uuidTemplate : string := "xxxxxxxx-xxxx-4xxx-yxxx-xxxxxxxxxxxx".

Definition generateUUID : M string := replaceXY uuidTemplate.

(** [url.match(/#sid=([a-f0-9-]+)/i)] *)
Definition extractSidFromUrl (url : string) : option string :=
  Regex.capture "#sid=" "" url.

(** [getFieldValue] on the cached front matter: [None] is [undefined]. *)
Fixpoint lookupField (fm : list (string * string)) (fieldName : string) : option string :=
  match fm with
  | [] => None
  | (k, v) :: rest => if String.eqb k fieldName then Some v else lookupField rest fieldName
  end.

Definition getFieldValue (fieldName : string) : M (option string) :=
  gets (fun w => lookupField (frontmatter w) fieldName).

(** The callback of [addSidToFieldUrl]: the addressed leaf gains the
    fragment unless it already includes [#sid=]. *)
Fixpoint appendSid (fm : list (string * string)) (fieldName sid : string)
  : list (string * string) :=
  match fm with
  | [] => []
  | (k, v) :: rest =>
      if String.eqb k fieldName
      then (k, if includes v "#sid=" then v else v +:+ "#sid=" +:+ sid) :: rest
      else (k, v) :: appendSid rest fieldName sid
  end.

Definition addSidToFieldUrl (fieldName sid : string) : M unit :=
  fun w =>
    if frontmatterWritable w
    then (Ok tt, with_frontmatter (fun fm => appendSid fm fieldName sid) w)
    else (Throw IOError, w).

Definition getOrCreateSingularityId (url : option string) (fieldName : string)
  : M string :=
  match url with
  | None => throw TypeError         (* [url.match] with [url] undefined *)
  | Some url =>
      match extractSidFromUrl url with
      | Some existingSid => ret existingSid
      | None =>
          let* newId := generateUUID in
          addSidToFieldUrl fieldName newId ;;
          ret newId
      end
  end.

Definition extractBaseUrl (op : Delta.Op) : option string :=
  match Delta.linkOf op with
  | Some url =>
      if startsWith url "obsidian://" then
        let hashIndex := indexOf url "#sid=" in
        Some (if hashIndex >? 0 then substring0 url hashIndex else url)
      else None
  | None => None
  end.

(** [existingBaseUrl === obsidianUrl] *)
Definition sameUrl (existingBaseUrl : option string) (obsidianUrl : string) : bool :=
  match existingBaseUrl with
  | Some u => String.eqb u obsidianUrl
  | None => false
  end.

(** The branch of [syncObsidianUrl] taken when the task has a note:
    [None] is the early return, [Some deltaOps] the body to be written.
    A parsed value that is not an array fails on its first use as one
    ([null.length], or the spread of a boolean or a number), before any
    request is sent. *)
Definition resolveExisting
    (currentOps : Delta.JSONValue) (noteTitle obsidianUrl singularityId : string)
  : result (option (list Delta.Op)) :=
  match currentOps with
  | Delta.VOps ops =>
      let update :=
        JSArray.runOn (fun a => SingularityAPI.updateObsidianLinkById
                                  a noteTitle obsidianUrl singularityId) ops in
      match SingularityAPI.findObsidianLinkById ops singularityId with
      | Some (_, op) =>
          if sameUrl (extractBaseUrl op) obsidianUrl then Ok None
          else match update with Ok d => Ok (Some d) | Throw e => Throw e end
      | None =>
          match SingularityAPI.findAnyObsidianLink ops with
          | Some (index, _) =>
              match JSArray.runOn (fun a => SingularityAPI.addSidToLink
                                              a index singularityId) ops with
              | Ok d => Ok (Some d)
              | Throw e => Throw e
              end
          | None => match update with Ok d => Ok (Some d) | Throw e => Throw e end
          end
      end
  | _ => Throw TypeError
  end.

Definition syncObsidianUrl (taskId : string) (file : TFile) (fieldName : string)
  : M unit :=
  let* vault := gets vaultName in
  let obsidianUrl := Types.buildObsidianUrl vault (path file) in
  let noteTitle := basename file in
  let* currentUrl := getFieldValue fieldName in
  let* singularityId := getOrCreateSingularityId currentUrl fieldName in
  let* task := Api.getTask taskId in
  let* deltaOps :=
    match Api.truthy (SingularityTask.note task) with
    | Some noteId =>
        let* note := Api.getNote noteId in
        let currentOps := SingularityAPI.parseNoteContent (SingularityNote.content note) in
        liftResult (resolveExisting currentOps noteTitle obsidianUrl singularityId)
    | None =>
        ret (Some (SingularityAPI.createInitialDelta noteTitle obsidianUrl singularityId))
    end in
  match deltaOps with
  | None => ret tt                      (* already synced: return *)
  | Some deltaOps =>
      Api.updateTaskNote taskId deltaOps ;;
      TaskCacheState.invalidateTask taskId
  end.

(** The loop of [syncFile] over the collected references; a failing
    reference is logged and the loop goes on. *)
Fixpoint syncEach (file : TFile) (urls : list (string * string)) : M unit :=
  match urls with
  | [] => ret tt
  | (url, fieldName) :: rest =>
      match Types.extractTaskId url with
      | None => syncEach file rest
      | Some taskId =>
          try_catch (syncObsidianUrl taskId file fieldName) (fun _ => ret tt) ;;
          syncEach file rest
      end
  end.

Definition syncFile (file : TFile) : M unit :=
  let* fm := gets frontmatter in
  syncEach file (findAllSingularityUrls fm).

End ObsidianLinkSync.

(** ** cache/taskCache.ts *)

Module TaskCache.

Import MNotations.
Local Open Scope m_scope.

Section WithLocales.

(** [LOCALES] of [types.ts], the table of labels by language. *)
Variable LOCALES : Language → Locale.

Definition setCacheTTL (ttl : Z) : M unit := modify (with_cacheTTL (fun _ => ttl)).

Definition setLanguage (l : Language) : M unit :=
  modify (fun w => with_taskCache (fun _ => ∅) (with_language (fun _ => l) w)).

Definition Date_now : M Z :=
  fun w => (Ok (clock w (clockReads w)), with_clockReads S w).

Definition isExpired (timestamp : Z) : M bool :=
  let* now := Date_now in
  let* ttl := gets cacheTTL in
  ret (now - timestamp >? ttl * 60 * 1000).

(** [if (entry && !this.isExpired(entry.timestamp)) return entry.data;]
    followed by the refetch. *)
Definition cachedOr {T} (entry : option (CacheEntry.t T)) (refetch : M T) : M T :=
  match entry with
  | Some e =>
      let* expired := isExpired (CacheEntry.timestamp e) in
      if expired then refetch else ret (CacheEntry.data e)
  | None => refetch
  end.

Definition getTags : M (list SingularityTag.t) :=
  let* cached := gets tagsCache in
  cachedOr cached
    (let* tags := Api.getTags in
     let* now := Date_now in
     modify (with_tagsCache
               (fun _ => Some {| CacheEntry.data := tags; CacheEntry.timestamp := now |})) ;;
     ret tags).

(** [tagIds.includes(tag.id)] *)
Definition hasId (tagIds : list string) (tag : SingularityTag.t) : bool :=
  existsb (String.eqb (SingularityTag.id tag)) tagIds.

Definition getTagsByIds (tagIds : list string) : M (list SingularityTag.t) :=
  let* allTags := getTags in
  ret (List.filter (hasId tagIds) allTags).

Definition getKanbanStatuses (projectId : string) : M (list KanbanStatus.t) :=
  let* cached := gets (fun w => kanbanCache w !! projectId) in
  cachedOr cached
    (let* statuses := Api.getKanbanStatuses projectId in
     let* now := Date_now in
     modify (with_kanbanCache
               (insert projectId
                  {| CacheEntry.data := statuses; CacheEntry.timestamp := now |})) ;;
     ret statuses).

(** [Promise.all([a, b, c])]: the three computations are all started; the
    whole rejects when one of them does.  Their effects are taken in the
    order in which they are started. *)
Definition promiseAll3 {A B C} (a : M A) (b : M B) (c : M C) : M (A * B * C) :=
  fun w =>
    let '(ra, w1) := a w in
    let '(rb, w2) := b w1 in
    let '(rc, w3) := c w2 in
    match ra, rb, rc with
    | Ok x, Ok y, Ok z => (Ok (x, y, z), w3)
    | Throw e, _, _ => (Throw e, w3)
    | _, Throw e, _ => (Throw e, w3)
    | _, _, Throw e => (Throw e, w3)
    end.

Definition toStatus (s : KanbanStatus.t) : Status.t :=
  {| Status.id := KanbanStatus.id s; Status.name := KanbanStatus.name s |}.

(** The block of [getTaskData] under the comment [Determine status]. *)
Definition determineStatus (locale : Locale) (checked : Z)
    (taskKanbanStatus : list TaskKanbanStatus.t)
    (projectStatuses : list KanbanStatus.t) : option Status.t :=
  let isCompleted := checked =? 1 in
  let isCancelled := checked =? 2 in
  if isCancelled then
    Some {| Status.id := "CANCELLED"; Status.name := statusCancelled locale |}
  else if isCompleted then
    Some {| Status.id := "DONE"; Status.name := statusDone locale |}
  else
    match taskKanbanStatus with
    | first :: _ =>
        let statusId := TaskKanbanStatus.statusId first in
        match List.find (fun s => String.eqb (KanbanStatus.id s) statusId) projectStatuses with
        | Some kanbanStatus => Some (toStatus kanbanStatus)
        | None => None
        end
    | [] =>
        match List.find (fun s => endsWith (KanbanStatus.id s) "-TODO") projectStatuses with
        | Some todoStatus => Some (toStatus todoStatus)
        | None => None
        end
    end.

(** The record [getTaskData] builds from what it has fetched. *)
Definition enriched (lang : Language) (task : SingularityTask.t)
    (taskKanbanStatus : list TaskKanbanStatus.t)
    (projectStatuses : list KanbanStatus.t)
    (tags : list SingularityTag.t) : TaskData.t :=
  {| TaskData.id := SingularityTask.id task;
     TaskData.title := SingularityTask.title task;
     TaskData.projectId := SingularityTask.projectId task;
     TaskData.status :=
       determineStatus (LOCALES lang) (SingularityTask.checked task)
         taskKanbanStatus projectStatuses;
     TaskData.tags := tags;
     TaskData.noteId := SingularityTask.note task;
     TaskData.isCompleted := SingularityTask.checked task =? 1;
     TaskData.isCancelled := SingularityTask.checked task =? 2 |}.

(** The body of [getTaskData] past the cache check. *)
Definition fetchTaskData (taskId : string) : M TaskData.t :=
  let* task := Api.getTask taskId in
  let* fetched :=
    promiseAll3
      (Api.getTaskKanbanStatus taskId)
      (getKanbanStatuses (SingularityTask.projectId task))
      (getTagsByIds (default [] (SingularityTask.tags task))) in
  let '(taskKanbanStatus, projectStatuses, tags) := fetched in
  let* lang := gets language in
  let taskData := enriched lang task taskKanbanStatus projectStatuses tags in
  let* now := Date_now in
  modify (with_taskCache
            (insert taskId
               {| CacheEntry.data := taskData; CacheEntry.timestamp := now |})) ;;
  ret taskData.

Definition getTaskData (taskId : string) : M TaskData.t :=
  let* cached := gets (fun w => taskCache w !! taskId) in
  cachedOr cached (fetchTaskData taskId).

Definition invalidateTask := TaskCacheState.invalidateTask.
Definition invalidateAll := TaskCacheState.invalidateAll.

Definition preloadTags : M unit :=
  try_catch (getTags ;; ret tt) (fun _ => ret tt).

End WithLocales.

End TaskCache.

(** The earlier copy of the cache ([src/cache/taskCache.ts]) differs from
    the one above in the status of a completed task only: it prefers the
    [-DONE] entry of the project and has its labels built in. *)

Module TaskCacheEarlier.

Import MNotations.
Local Open Scope m_scope.

Definition determineStatus (checked : Z)
    (taskKanbanStatus : list TaskKanbanStatus.t)
    (projectStatuses : list KanbanStatus.t) : option Status.t :=
  let isCompleted := checked =? 1 in
  let isCancelled := checked =? 2 in
  if isCancelled then
    Some {| Status.id := "CANCELLED";
            Status.name := "Отменена" |}
  else if isCompleted then
    match List.find (fun s => endsWith (KanbanStatus.id s) "-DONE") projectStatuses with
    | Some doneStatus => Some (TaskCache.toStatus doneStatus)
    | None => Some {| Status.id := "DONE"; Status.name := "Готово" |}
    end
  else
    match taskKanbanStatus with
    | first :: _ =>
        let statusId := TaskKanbanStatus.statusId first in
        match List.find (fun s => String.eqb (KanbanStatus.id s) statusId) projectStatuses with
        | Some kanbanStatus => Some (TaskCache.toStatus kanbanStatus)
        | None => None
        end
    | [] =>
        match List.find (fun s => endsWith (KanbanStatus.id s) "-TODO") projectStatuses with
        | Some todoStatus => Some (TaskCache.toStatus todoStatus)
        | None => None
        end
    end.

(** The record [getTaskData] of this copy builds. *)
Definition enriched (task : SingularityTask.t)
    (taskKanbanStatus : list TaskKanbanStatus.t)
    (projectStatuses : list KanbanStatus.t)
    (tags : list SingularityTag.t) : TaskData.t :=
  {| TaskData.id := SingularityTask.id task;
     TaskData.title := SingularityTask.title task;
     TaskData.projectId := SingularityTask.projectId task;
     TaskData.status :=
       determineStatus (SingularityTask.checked task) taskKanbanStatus projectStatuses;
     TaskData.tags := tags;
     TaskData.noteId := SingularityTask.note task;
     TaskData.isCompleted := SingularityTask.checked task =? 1;
     TaskData.isCancelled := SingularityTask.checked task =? 2 |}.

(** [getTaskData] of this copy; [isExpired], [getKanbanStatuses], [getTags]
    and [getTagsByIds] are, to the letter, those of the copy above. *)
Definition fetchTaskData (taskId : string) : M TaskData.t :=
  let* task := Api.getTask taskId in
  let* fetched :=
    TaskCache.promiseAll3
      (Api.getTaskKanbanStatus taskId)
      (TaskCache.getKanbanStatuses (SingularityTask.projectId task))
      (TaskCache.getTagsByIds (default [] (SingularityTask.tags task))) in
  let '(taskKanbanStatus, projectStatuses, tags) := fetched in
  let taskData := enriched task taskKanbanStatus projectStatuses tags in
  let* now := TaskCache.Date_now in
  modify (with_taskCache
            (insert taskId
               {| CacheEntry.data := taskData; CacheEntry.timestamp := now |})) ;;
  ret taskData.

Definition getTaskData (taskId : string) : M TaskData.t :=
  let* cached := gets (fun w => taskCache w !! taskId) in
  TaskCache.cachedOr cached (fetchTaskData taskId).

End TaskCacheEarlier.

(** ** Values built by the link editor

    The arrays that [updateObsidianLinkById] and [addSidToLink] leave in
    the heap, written as list expressions (shown equal to the results of
    the heap programs below). *)

Module Edited.

Import SingularityAPI.

(** The operation [updateObsidianLinkById] puts in place of the one found. *)
Definition relinked (op : Delta.Op) (noteTitle obsidianUrl singularityId : string)
  : Delta.Op :=
  {| Delta.insert := linkText noteTitle;
     Delta.attributes :=
       Some (Delta.withLink (Delta.attributes op)
               (obsidianUrl +:+ SID_FRAGMENT +:+ singularityId)) |}.

(** The array after the branch that adds a new link at the end. *)
Definition appendedOps (ops : list Delta.Op) (noteTitle obsidianUrl singularityId : string)
  : list Delta.Op :=
  let stripped := if isOnlyNewline (last ops) then removelast ops else ops in
  stripped
  ++ (if (0 <? length stripped)%nat then [Delta.newline] else [])
  ++ createNoteLinkOps noteTitle obsidianUrl singularityId.

Definition updatedOps (ops : list Delta.Op) (noteTitle obsidianUrl singularityId : string)
  : list Delta.Op :=
  match findObsidianLinkById ops singularityId with
  | Some (i, op) => <[i := relinked op noteTitle obsidianUrl singularityId]> ops
  | None => appendedOps ops noteTitle obsidianUrl singularityId
  end.

(** The operation [addSidToLink] puts in place of a link [l]. *)
Definition marked (op : Delta.Op) (l singularityId : string) : Delta.Op :=
  {| Delta.insert := Delta.insert op;
     Delta.attributes :=
       Some (Delta.withLink (Delta.attributes op) (l +:+ SID_FRAGMENT +:+ singularityId)) |}.

End Edited.

(** ** The shape of the identifiers *)

Definition isLowerHex (d : ascii) : bool :=
  let n := nat_of_ascii d in
  (((48 <=? n) && (n <=? 57)) || ((97 <=? n) && (n <=? 102)))%nat.

Definition isVariant (d : ascii) : bool :=
  Ascii.eqb d "8" || Ascii.eqb d "9" || Ascii.eqb d "a" || Ascii.eqb d "b".

(** The shape of a version-4 UUID: [u] is the template with every [x]
    replaced by a hexadecimal digit and [y] by one of [8 9 a b]. *)
Fixpoint matchesTemplate (template u : string) : bool :=
  match template, u with
  | EmptyString, EmptyString => true
  | String c t, String d u' =>
      (if Ascii.eqb c "x" then isLowerHex d
       else if Ascii.eqb c "y" then isVariant d
       else Ascii.eqb c d)
      && matchesTemplate t u'
  | _, _ => false
  end.


(** What a fetch through the cache may change: the status and tag caches,
    the clock reads and the requests sent. *)
Definition fetchFrame (w w' : World) (more : list Request) : Prop :=
  taskCache w' = taskCache w ∧ remote w' = remote w ∧ token w' = token w
  ∧ language w' = language w ∧ cacheTTL w' = cacheTTL w ∧ clock w' = clock w
  ∧ requests w' = requests w ++ more.

(** The world after [updateTaskNote] and [invalidateTask]. *)
Definition written (taskId : string) (deltaOps : list Delta.Op) (w : World) : World :=
  with_taskCache (delete taskId)
    (with_remote (fun _ => snd (Api.patched (remote w) taskId deltaOps))
       (with_requests (fun l => l ++ [PatchTaskNote taskId deltaOps]) w)).

(** What the identity scheme leaves untouched. *)
Definition sameRemoteSide (w w1 : World) : Prop :=
  requests w1 = requests w ∧ remote w1 = remote w ∧ token w1 = token w
  ∧ vaultName w1 = vaultName w ∧ taskCache w1 = taskCache w.

(** A URL that starts with the scheme of the notes and has no [#]. *)
Definition goodUrl (url : string) : Prop :=
  startsWith url "obsidian://" = true ∧ lacks "#" url = true.

(** The state of a reference that the idempotence guard looks for: the
    field carries a sid, and the body of the task parses to operations
    among which [findObsidianLinkById] identifies, for that sid, a link
    whose base URL is the URL of the note. *)
Definition upToDate (w : World) (file : TFile) (taskId fieldName : string) : Prop :=
  ∃ v sid task noteId note ops i op,
    ObsidianLinkSync.lookupField (frontmatter w) fieldName = Some v
    ∧ ObsidianLinkSync.extractSidFromUrl v = Some sid
    ∧ task_of (remote w) taskId = Ok task
    ∧ Api.truthy (SingularityTask.note task) = Some noteId
    ∧ note_of (remote w) noteId = Ok note
    ∧ SingularityAPI.parseNoteContent (SingularityNote.content note) = Delta.VOps ops
    ∧ SingularityAPI.findObsidianLinkById ops sid = Some (i, op)
    ∧ ObsidianLinkSync.extractBaseUrl op = Some (Types.buildObsidianUrl (vaultName w) (path file)).

(** The write requests among the requests sent. *)
Definition writes (w : World) : list Request := List.filter isWrite (requests w).

(** Does the remote store reject this request? *)
Definition rejectedBy (r : Remote) (req : Request) : bool :=
  match req with
  | GetTask taskId => isThrow (task_of r taskId)
  | GetNote noteId => isThrow (note_of r noteId)
  | PatchTaskNote taskId _ => isThrow (task_of r taskId)
  | GetKanbanStatuses projectId => isThrow (kanbanStatuses_of r projectId)
  | GetTaskKanbanStatus taskId => isThrow (taskKanbanStatus_of r taskId)
  | GetTags => isThrow (all_tags r)
  end.

(** The requests sent between two worlds. *)
Definition sentBetween (w w' : World) : list Request :=
  drop (length (requests w)) (requests w').

(** ** sync/obsidianLink.ts: the manual command *)

Module ManualSync.

Import MNotations ObsidianLinkSync.
Local Open Scope m_scope.

(** The loop of [syncCurrentFile], with its counter [synced]. *)
Fixpoint syncCounting (file : TFile) (urls : list (string * string)) (synced : nat)
  : M nat :=
  match urls with
  | [] => ret synced
  | (url, fieldName) :: rest =>
      match Types.extractTaskId url with
      | None => syncCounting file rest synced
      | Some taskId =>
          let* synced' :=
            try_catch (syncObsidianUrl taskId file fieldName ;; ret (S synced))
                      (fun _ => ret synced) in
          syncCounting file rest synced'
      end
  end.

(** [syncCurrentFile]: [None] is one of the notices shown when there is
    nothing to synchronise (no active file, no front matter, no reference),
    [Some n] the notice [Synced n task(s) to Singularity]. *)
Definition syncCurrentFile (activeFile : option TFile) : M (option nat) :=
  match activeFile with
  | None => ret None
  | Some file =>
      let* fm := gets frontmatter in
      match findAllSingularityUrls fm with
      | [] => ret None
      | urls => let* synced := syncCounting file urls 0 in ret (Some synced)
      end
  end.

End ManualSync.

(** ** renderer/livePreview.ts: markdown links around a reference

    A position is an index into the text: one character of the model for
    each code unit of the source, of which the searches only tell the
    brackets and parentheses and the characters of the scheme. *)

Module LivePreview.

(** The two loops [for (let i = position - 1; i >= 0; i--)] that look
    backwards for an opening bracket; the one of [isInsideMarkdownLink]
    gives up at a closing bracket.  [None] is [bracketStart === -1]. *)
Fixpoint bracketBefore (stopAtClose : bool) (text : string) (position : nat)
  : option nat :=
  match position with
  | O => None
  | S i =>
      match String.get i text with
      | Some c =>
          if Ascii.eqb c "[" then Some i
          else if Ascii.eqb c "]" && stopAtClose then None
          else bracketBefore stopAtClose text i
      | None => bracketBefore stopAtClose text i
      end
  end.

(** The text that follows the first occurrence of a character. *)
Fixpoint afterFirst (c : ascii) (s : string) : option string :=
  match s with
  | EmptyString => None
  | String d s' => if Ascii.eqb d c then Some s' else afterFirst c s'
  end.

(** The text that precedes the first occurrence of a character. *)
Fixpoint beforeFirst (c : ascii) (s : string) : option string :=
  match s with
  | EmptyString => None
  | String d s' =>
      if Ascii.eqb d c then Some EmptyString
      else match beforeFirst c s' with
           | Some t => Some (String d t)
           | None => None
           end
  end.

(** [/^\[[^\]]*\]\([^)]*singularityapp:\/\/[^)]*\)/.test(s)]: an opening
    bracket; the run of [[^\]]*] ends at the first closing bracket, which
    must be followed by an opening parenthesis; the two runs of [[^)]*]
    lie before the first closing parenthesis, which must exist, and the
    scheme must occur between the two. *)
Definition linkPattern (s : string) : bool :=
  match s with
  | String c rest =>
      Ascii.eqb c "[" &&
      match afterFirst "]" rest with
      | Some (String d target) =>
          Ascii.eqb d "(" &&
          match beforeFirst ")" target with
          | Some inner => includes inner "singularityapp://"
          | None => false
          end
      | _ => false
      end
  | EmptyString => false
  end.

Definition isInsideMarkdownLink (text : string) (position : nat) : bool :=
  match bracketBefore true text position with
  | None => false
  | Some bracketStart => linkPattern (dropChars bracketStart text)
  end.

(** The loop [for (let i = urlPosition; i < text.length; i++)] over the
    text from [i] on; the result is [parenEnd]. *)
Fixpoint parenFrom (rest : string) (i : nat) : option nat :=
  match rest with
  | EmptyString => None
  | String c rest' => if Ascii.eqb c ")" then Some (S i) else parenFrom rest' (S i)
  end.

Definition findMarkdownLink (text : string) (urlPosition : nat) : option (nat * nat) :=
  match bracketBefore false text urlPosition with
  | None => None
  | Some bracketStart =>
      match parenFrom (dropChars urlPosition text) urlPosition with
      | None => None
      | Some parenEnd => Some (bracketStart, parenEnd)
      end
  end.

End LivePreview.

(** ** sync/obsidianLink.ts: the front matter as an object

    [ObsidianLinkSync] above sees the front matter through its references,
    keyed by field name.  Here it is the object that the three functions
    [findAllSingularityUrls], [getFieldValue] and [addSidToFieldUrl] walk:
    the values of a parsed YAML document. *)

Module FrontMatterTree.

#[warnings="-register-all"]
Inductive Value :=
  | VString (s : string)
  | VNull
  | VOther (truthy : bool)                       (* a number or a boolean *)
  | VArray (items : list Value)
  | VObject (entries : list (string * Value)).   (* [Object.entries], in its order *)

(** [`${idx}`] for an array index. *)
Definition showIndex (idx : N) : string :=
  NilEmpty.string_of_uint (N.to_uint idx).

(** [value.forEach((item, idx) => ...)] in [findAllSingularityUrls] *)
Fixpoint arrayRefs (items : list Value) (idx : nat) (fieldName : string)
  : list (string * string) :=
  match items with
  | [] => []
  | item :: rest =>
      match item with
      | VString s =>
          if startsWith s "singularityapp://"
          then [(s, fieldName +:+ "[" +:+ showIndex (N.of_nat idx) +:+ "]")]
          else []
      | _ => []
      end ++ arrayRefs rest (S idx) fieldName
  end.

Section Entries.

(** What the body of the loop pushes for one entry. *)
Variable pushed : Value → string → list (string * string).

(** [for (const [key, value] of Object.entries(obj))]; an empty [prefix]
    is falsy. *)
Fixpoint forEntries (obj : list (string * Value)) (prefix : string)
  : list (string * string) :=
  match obj with
  | [] => []
  | (key, value) :: rest =>
      let fieldName := if Regex.isEmpty prefix then key else prefix +:+ "." +:+ key in
      pushed value fieldName ++ forEntries rest prefix
  end.

End Entries.

(** The body of the loop of [findAllSingularityUrls]. *)
Fixpoint pushedFor (value : Value) (fieldName : string) : list (string * string) :=
  match value with
  | VString s => if startsWith s "singularityapp://" then [(s, fieldName)] else []
  | VArray items => arrayRefs items 0 fieldName
  | VObject entries => forEntries pushedFor entries fieldName
  | VNull | VOther _ => []
  end.

Definition findAllSingularityUrls (obj : list (string * Value)) (prefix : string)
  : list (string * string) :=
  forEntries pushedFor obj prefix.

(** *** The parts of a field name

    [fieldName.match(/([^.\[\]]+)|\[(\d+)\]/g)]: at each position the
    first alternative, a non-empty greedy run of characters other than
    [.], [[] and []]; else the second, a bracketed non-empty run of
    digits; else the next position.  A part of the second alternative
    is the one in which [part.match(/\[(\d+)\]/)] finds something - a
    part of the first holds no bracket - and [digits] is its group. *)

Inductive Part :=
  | Key (name : string)
  | Index (digits : string).

Definition isDelimiter (c : ascii) : bool :=
  Ascii.eqb c "." || Ascii.eqb c "[" || Ascii.eqb c "]".

Definition isNameChar (c : ascii) : bool := negb (isDelimiter c).

Definition isDigit (c : ascii) : bool :=
  (48 <=? nat_of_ascii c)%nat && (nat_of_ascii c <=? 57)%nat.

Fixpoint dropWhile (P : ascii → bool) (s : string) : string :=
  match s with
  | EmptyString => EmptyString
  | String c s' => if P c then dropWhile P s' else s
  end.

(** [\[(\d+)\]] at the start of [s]: the digits and the text behind. *)
Definition bracketed (s : string) : option (string * string) :=
  match s with
  | String c s1 =>
      if Ascii.eqb c "[" then
        match dropWhile isDigit s1 with
        | String d rest =>
            if Ascii.eqb d "]" && negb (Regex.isEmpty (Regex.takeWhile isDigit s1))
            then Some (Regex.takeWhile isDigit s1, rest)
            else None
        | EmptyString => None
        end
      else None
  | EmptyString => None
  end.

(** The matches from the start of [s] on; [fuel] bounds the number of
    positions tried, and the length of [s] is enough. *)
Fixpoint matchAll (fuel : nat) (s : string) : list Part :=
  match fuel, s with
  | S fuel', String _ s' =>
      if negb (Regex.isEmpty (Regex.takeWhile isNameChar s))
      then Key (Regex.takeWhile isNameChar s) :: matchAll fuel' (dropWhile isNameChar s)
      else match bracketed s with
           | Some (digits, rest) => Index digits :: matchAll fuel' rest
           | None => matchAll fuel' s'
           end
  | _, _ => []
  end.

(** The empty list is the [null] of [String.prototype.match]. *)
Definition matchParts (fieldName : string) : list Part :=
  matchAll (String.length fieldName) fieldName.

(** *** Reading a property

    [Unmodelled] is an answer that the model does not give. *)

Inductive Answer (A : Type) :=
  | Known (a : A)
  | Unmodelled.
Arguments Known {A} a.
Arguments Unmodelled {A}.

(** [parseInt(digits)] for a run of digits. *)
Definition parseInt (digits : string) : option N :=
  N.of_uint <$> NilEmpty.uint_of_string digits.

(** An own property of an object. *)
Fixpoint own (entries : list (string * Value)) (name : string) : option Value :=
  match entries with
  | [] => None
  | (key, value) :: rest => if String.eqb key name then Some value else own rest name
  end.

(** A property name that is an array index: the decimal numeral, without
    leading zero, of a number below [2^32 - 1]. *)
Definition arrayIndex (name : string) : option N :=
  match parseInt name with
  | Some n =>
      if String.eqb (showIndex n) name && (n <? 2 ^ 32 - 1)%N then Some n else None
  | None => None
  end.

(** [current[part]] for a [current] other than [null] and [undefined]:
    [Some v] is a value of the front matter; [None] is what a read gives
    that does not end there - [undefined], a character of a string, or a
    member that strings, arrays and objects inherit ([length],
    [constructor], ...).  A number from [2^53] on is not modelled as the
    name of a property of an object. *)
Definition getProperty (current : Value) (part : Part) : Answer (option Value) :=
  match current, part with
  | VObject entries, Key name => Known (own entries name)
  | VObject entries, Index digits =>
      match parseInt digits with
      | Some n => if (n <? 2 ^ 53)%N then Known (own entries (showIndex n)) else Unmodelled
      | None => Unmodelled
      end
  | VArray items, Index digits =>
      match parseInt digits with
      | Some n => Known (items !! N.to_nat n)
      | None => Unmodelled
      end
  | VArray items, Key name =>
      match arrayIndex name with
      | Some n => Known (items !! N.to_nat n)
      | None => Known None
      end
  | _, _ => Known None
  end.

(** The loop of [getFieldValue]. *)
Fixpoint readParts (parts : list Part) (current : Value) : Answer (option Value) :=
  match parts with
  | [] => Known (Some current)
  | part :: rest =>
      match current with
      | VNull => Known None                         (* return undefined *)
      | _ =>
          match getProperty current part with
          | Known (Some v) => readParts rest v
          | other => other
          end
      end
  end.

(** [getFieldValue]: [Some v] is a value of the front matter, [None] what
    the source returns otherwise ([undefined], or what the reads have
    found outside the front matter). *)
Definition getFieldValue (obj : option Value) (fieldName : string)
  : Answer (option Value) :=
  match obj with
  | None => Known None
  | Some o =>
      match matchParts fieldName with
      | [] => Known None
      | parts => readParts parts o
      end
  end.

(** *** Writing the sid *)

Fixpoint setOwn (entries : list (string * Value)) (name : string) (v : Value)
  : list (string * Value) :=
  match entries with
  | [] => []
  | (key, value) :: rest =>
      if String.eqb key name then (key, v) :: rest else (key, value) :: setOwn rest name v
  end.

(** [obj] with [v] in the place of the value that [getProperty obj part]
    has found. *)
Definition setProperty (obj : Value) (part : Part) (v : Value) : Value :=
  match obj, part with
  | VObject entries, Key name => VObject (setOwn entries name v)
  | VObject entries, Index digits =>
      match parseInt digits with
      | Some n => VObject (setOwn entries (showIndex n) v)
      | None => obj
      end
  | VArray items, Index digits =>
      match parseInt digits with
      | Some n => VArray (<[N.to_nat n := v]> items)
      | None => obj
      end
  | VArray items, Key name =>
      match arrayIndex name with
      | Some n => VArray (<[N.to_nat n := v]> items)
      | None => obj
      end
  | _, _ => obj
  end.

(** The last part: the two branches on [arrayMatch] at the end of the
    callback, for an [obj] that is an array or an object.  An inherited
    member of these is never a string. *)
Definition writeLast (lastPart : Part) (sid : string) (obj : Value)
  : Answer (result Value) :=
  match obj with
  | VNull => Known (Throw TypeError)
  | VString _ | VOther _ => Unmodelled
  | VArray _ | VObject _ =>
      match getProperty obj lastPart, lastPart with
      | Unmodelled, _ => Unmodelled
      | Known (Some (VString s)), Index _ =>
          (* obj[idx] && !obj[idx].includes('#sid=') *)
          if negb (Regex.isEmpty s) && negb (includes s "#sid=")
          then Known (Ok (setProperty obj lastPart (VString (s +:+ "#sid=" +:+ sid))))
          else Known (Ok obj)
      | Known (Some (VOther true)), Index _ => Known (Throw TypeError)
      | Known (Some (VArray _ | VObject _)), Index _ => Unmodelled
      | Known _, Index _ => Known (Ok obj)
      | Known (Some (VString s)), Key _ =>
          (* typeof currentValue === 'string' && !currentValue.includes('#sid=') *)
          if negb (includes s "#sid=")
          then Known (Ok (setProperty obj lastPart (VString (s +:+ "#sid=" +:+ sid))))
          else Known (Ok obj)
      | Known _, Key _ => Known (Ok obj)
      end
  end.

(** The walk over the parts but the last, then the last one.  The source
    mutates the object it has reached; the front matter is a tree, so
    that is the front matter with the new value put where the old one
    was read.  A read that does not give a value of the front matter is
    not followed: the source throws a [TypeError] at the next read if it
    gave [undefined]. *)
Fixpoint writeParts (parts : list Part) (sid : string) (obj : Value)
  : Answer (result Value) :=
  match parts with
  | [] => Known (Ok obj)
  | [lastPart] => writeLast lastPart sid obj
  | part :: (_ :: _) as rest =>
      match obj with
      | VNull => Known (Throw TypeError)
      | _ =>
          match getProperty obj part with
          | Known (Some child) =>
              match writeParts rest sid child with
              | Known (Ok child') => Known (Ok (setProperty obj part child'))
              | other => other
              end
          | _ => Unmodelled
          end
      end
  end.

(** The callback that [addSidToFieldUrl] hands to [processFrontMatter]. *)
Definition addSidToFieldUrl (fieldName sid : string) (fm : Value) : Answer (result Value) :=
  match matchParts fieldName with
  | [] => Known (Ok fm)                              (* if (!parts) return *)
  | parts => writeParts parts sid fm
  end.

End FrontMatterTree.

(** *** Front matters whose field names can be read back *)

Module FrontMatterPaths.

Import FrontMatterTree.

(** A key that is not empty and holds none of [.], [[] and []]. *)
Definition plainKey (key : string) : bool :=
  negb (Regex.isEmpty key) && lacks "." key && lacks "[" key && lacks "]" key.

(** The objects that [findAllSingularityUrls] walks through have plain
    keys, each once (an object has no key twice). *)
Fixpoint plain (value : Value) : bool :=
  match value with
  | VObject entries =>
      bool_decide (NoDup (entries.*1))
      && forallb (fun entry => let '(key, v) := entry in plainKey key && plain v) entries
  | _ => true
  end.

(** The field name of the value reached from [fieldName] by [parts]. *)
Fixpoint render (fieldName : string) (parts : list Part) : string :=
  match parts with
  | [] => fieldName
  | Key name :: rest =>
      render (if Regex.isEmpty fieldName then name else fieldName +:+ "." +:+ name) rest
  | Index digits :: rest => render (fieldName +:+ "[" +:+ digits +:+ "]") rest
  end.

(** The references of a value, each with the parts that lead to it. *)
Fixpoint arrayPaths (items : list Value) (idx : nat) : list (string * list Part) :=
  match items with
  | [] => []
  | item :: rest =>
      match item with
      | VString s =>
          if startsWith s "singularityapp://"
          then [(s, [Index (showIndex (N.of_nat idx))])] else []
      | _ => []
      end ++ arrayPaths rest (S idx)
  end.

Section EntryPaths.

Variable paths : Value → list (string * list Part).

Fixpoint entryPaths (obj : list (string * Value)) : list (string * list Part) :=
  match obj with
  | [] => []
  | (key, value) :: rest =>
      map (fun ref => (ref.1, Key key :: ref.2)) (paths value) ++ entryPaths rest
  end.

End EntryPaths.

Fixpoint paths (value : Value) : list (string * list Part) :=
  match value with
  | VString s => if startsWith s "singularityapp://" then [(s, [])] else []
  | VArray items => arrayPaths items 0
  | VObject entries => entryPaths paths entries
  | VNull | VOther _ => []
  end.

(** The parts that [findAllSingularityUrls] writes into a field name. *)
Definition goodPart (part : Part) : Prop :=
  match part with
  | Key name => plainKey name = true
  | Index digits => ∃ n, digits = showIndex n
  end.

#[export] Instance Part_eq_dec : EqDecision Part.
Proof. solve_decision. Defined.

(** The reference at [parts] after the callback of [addSidToFieldUrl]. *)
Definition bump (parts : list Part) (sid : string) (ref : string * list Part)
  : string * list Part :=
  (if decide (ref.2 = parts)
   then if includes ref.1 "#sid=" then ref.1 else ref.1 +:+ "#sid=" +:+ sid
   else ref.1,
   ref.2).

(** The front matter as [ObsidianLinkSync] sees it: the references by
    field name. *)
Definition flat (fm : list (string * Value)) : list (string * string) :=
  map (fun ref => (ref.2, ref.1)) (findAllSingularityUrls fm "").

End FrontMatterPaths.

(** ** A small world for the examples *)

Module Sample.

Definition file : TFile :=
  {| path := "Notes/Plan.md"; basename := "Plan"; extension := "md" |}.

Definition task (note : option string) (checked : Z) : SingularityTask.t :=
  {| SingularityTask.id := "T-1";
     SingularityTask.title := "Write the plan";
     SingularityTask.note := note;
     SingularityTask.projectId := "P-1";
     SingularityTask.tags := Some [];
     SingularityTask.checked := checked |}.

(** A store with the task [T-1], its note [N-T-1], one project and no tags. *)
Definition store (t : SingularityTask.t) (body : Delta.JSONText)
    (assignment : list TaskKanbanStatus.t) (statuses : list KanbanStatus.t) : Remote :=
  {| task_of := fun k => if String.eqb k "T-1" then Ok t else Throw (ApiError 404);
     note_of := fun k =>
       if String.eqb k "N-T-1"
       then Ok {| SingularityNote.id := "N-T-1"; SingularityNote.content := body |}
       else Throw (ApiError 404);
     kanbanStatuses_of := fun _ => Ok statuses;
     taskKanbanStatus_of := fun _ => Ok assignment;
     all_tags := Ok [] |}.

Definition world (fm : list (string * string)) (r : Remote) : World :=
  {| frontmatter := fm;
     frontmatterWritable := true;
     token := "secret";
     vaultName := "V";
     cacheTTL := 5;
     language := en;
     taskCache := ∅;
     kanbanCache := ∅;
     tagsCache := None;
     remote := r;
     requests := [];
     clock := fun n => 1700000000000 + Z.of_nat n;
     clockReads := 0;
     random := fun n => Z.of_nat n mod 16;
     randomReads := 0 |}.

Definition locales (l : Language) : Locale :=
  match l with
  | en => {| statusDone := "Done"; statusCancelled := "Cancelled" |}
  | ru => {| statusDone := "Готово";
             statusCancelled := "Отменена" |}
  end.

Definition linkOp (text url : string) : Delta.Op :=
  {| Delta.insert := text;
     Delta.attributes := Some {| Delta.link := Some url; Delta.formats := [] |} |}.

(** The note [Notes/Plan.md] of the vault [V] refers to the task from its
    field [task]; [buildObsidianUrl] gives it the URL below. *)
Definition noteUrl : string := "obsidian://open?vault=V&file=Notes%2FPlan.md".

Definition reference : string := "singularityapp://?&page=any&id=T-1".

Definition titled : string := "Obsidian: " +:+ Delta.DQUOTE +:+ "Plan" +:+ Delta.DQUOTE.

Definition noteOf (body : Delta.JSONText) : SingularityNote.t :=
  {| SingularityNote.id := "N-T-1"; SingularityNote.content := body |}.

Definition withBody (field : string) (body : Delta.JSONText) : World :=
  world [("task", field)] (store (task (Some "N-T-1") 0) body [] []).

(** The task already holds the link of the note, under the sid of the field. *)
Definition syncedBody : list Delta.Op :=
  [linkOp titled (noteUrl +:+ "#sid=ab12"); Delta.newline].
Definition synced : World :=
  withBody (reference +:+ "#sid=ab12") (Delta.JSON_stringify syncedBody).


(** A first synchronisation: no sid in the field, an empty body. *)
Definition unsynced : World := withBody reference (Delta.JSON_stringify []).

(** The task holds a link written before sids existed, to another file. *)
Definition legacyBody : list Delta.Op :=
  [linkOp "Old" "obsidian://open?vault=V&file=Old.md"; Delta.newline].
Definition legacy : World :=
  withBody (reference +:+ "#sid=ab12") (Delta.JSON_stringify legacyBody).

(** The field ends with [#sid=] and no identifier. *)
Definition emptySid : World :=
  withBody (reference +:+ "#sid=") (Delta.JSON_stringify []).

(** The body of the task is not JSON; is the JSON text [null]. *)
Definition malformed : World :=
  withBody (reference +:+ "#sid=ab12") (Delta.Malformed "{not json").
Definition nullBody : World :=
  withBody (reference +:+ "#sid=ab12") (Delta.Denotes Delta.VNull).

(** Tasks for the examples of the cache: a cancelled task placed on the
    board, an active task placed on a status the project does not have. *)
Definition board : list KanbanStatus.t :=
  [ {| KanbanStatus.id := "KS-P-1-TODO"; KanbanStatus.name := "Backlog";
       KanbanStatus.kanbanOrder := 0 |};
    {| KanbanStatus.id := "KS-7"; KanbanStatus.name := "Review";
       KanbanStatus.kanbanOrder := 1 |} ].

Definition placedOn (statusId : string) : list TaskKanbanStatus.t :=
  [ {| TaskKanbanStatus.taskId := "T-1"; TaskKanbanStatus.statusId := statusId |} ].

Definition cancelled : World :=
  world [] (store (task None 2) (Delta.JSON_stringify []) (placedOn "KS-7") board).

Definition misplaced : World :=
  world [] (store (task None 0) (Delta.JSON_stringify []) (placedOn "KS-gone") board).

(** An active task placed on a status of the board; a completed task
    without assignment in a project whose board has a [-DONE] entry. *)
Definition placed : World :=
  world [] (store (task None 0) (Delta.JSON_stringify []) (placedOn "KS-7") board).

Definition shipping : list KanbanStatus.t :=
  board ++ [ {| KanbanStatus.id := "KS-P-1-DONE"; KanbanStatus.name := "Shipped";
                KanbanStatus.kanbanOrder := 2 |} ].

Definition completed : World :=
  world [] (store (task None 1) (Delta.JSON_stringify []) [] shipping).

(** The store rejects the request for the tags. *)
Definition tagsDown : World :=
  world []
    {| task_of := task_of (store (task None 0) (Delta.JSON_stringify []) [] board);
       note_of := note_of (store (task None 0) (Delta.JSON_stringify []) [] board);
       kanbanStatuses_of := fun _ => Ok board;
       taskKanbanStatus_of := fun _ => Ok [];
       all_tags := Throw (ApiError 503) |}.

(** A world whose three caches were filled at the instant [1700000000000],
    read by a clock that stands at a given instant. *)
Definition record : TaskData.t :=
  {| TaskData.id := "T-1"; TaskData.title := "Write the plan";
     TaskData.projectId := "P-1"; TaskData.status := None; TaskData.tags := [];
     TaskData.noteId := None; TaskData.isCompleted := false;
     TaskData.isCancelled := false |}.

Definition filledAt (now : Z) : World :=
  {| frontmatter := [];
     frontmatterWritable := true;
     token := "secret";
     vaultName := "V";
     cacheTTL := 5;
     language := en;
     taskCache :=
       {[ "T-1" := {| CacheEntry.data := record; CacheEntry.timestamp := 1700000000000 |} ]};
     kanbanCache :=
       {[ "P-1" := {| CacheEntry.data := board; CacheEntry.timestamp := 1700000000000 |} ]};
     tagsCache := Some {| CacheEntry.data := []; CacheEntry.timestamp := 1700000000000 |};
     remote := store (task None 0) (Delta.JSON_stringify []) [] board;
     requests := [];
     clock := fun _ => now;
     clockReads := 0;
     random := fun n => Z.of_nat n mod 16;
     randomReads := 0 |}.

(** Five minutes later to the millisecond, and one millisecond after that. *)
Definition atTTL : World := filledAt 1700000300000.
Definition pastTTL : World := filledAt 1700000300001.

(** The plugin before its token is configured. *)
Definition noToken : World :=
  {| frontmatter := [("task", reference)];
     frontmatterWritable := true;
     token := EmptyString;
     vaultName := "V";
     cacheTTL := 5;
     language := en;
     taskCache := ∅;
     kanbanCache := ∅;
     tagsCache := None;
     remote := store (task (Some "N-T-1") 0) (Delta.JSON_stringify []) [] [];
     requests := [];
     clock := fun n => 1700000000000 + Z.of_nat n;
     clockReads := 0;
     random := fun n => Z.of_nat n mod 16;
     randomReads := 0 |}.

(** A task without a note; a body whose link, under the sid of the field,
    names the file the note had before it was moved. *)
Definition noteless : World :=
  world [("task", reference +:+ "#sid=ab12")]
    (store (task None 0) (Delta.JSON_stringify []) [] []).

Definition movedBody : list Delta.Op :=
  [ {| Delta.insert := "Agenda"; Delta.attributes := None |};
    {| Delta.insert := "Old";
       Delta.attributes :=
         Some {| Delta.link := Some "obsidian://open?vault=V&file=Old.md#sid=ab12";
                 Delta.formats := [("bold", Delta.AttrBool true)] |} |};
    Delta.newline ].
Definition moved : World :=
  withBody (reference +:+ "#sid=ab12") (Delta.JSON_stringify movedBody).

(** The store rejects the request for the status assignment of the task;
    a store with two tags. *)
Definition statusDown : World :=
  world []
    {| task_of := task_of (store (task None 0) (Delta.JSON_stringify []) []
                             board);
       note_of := note_of (store (task None 0) (Delta.JSON_stringify []) []
                             board);
       kanbanStatuses_of := fun _ => Ok board;
       taskKanbanStatus_of := fun _ => Throw (ApiError 503);
       all_tags := Ok [] |}.

Definition urgent : SingularityTag.t :=
  {| SingularityTag.id := "A-1"; SingularityTag.title := "urgent";
     SingularityTag.color := Some "#dc3545"; SingularityTag.parent := None |}.
Definition home : SingularityTag.t :=
  {| SingularityTag.id := "A-2"; SingularityTag.title := "home";
     SingularityTag.color := None; SingularityTag.parent := None |}.

Definition tagged : World :=
  world []
    {| task_of := fun _ => Throw (ApiError 404);
       note_of := fun _ => Throw (ApiError 404);
       kanbanStatuses_of := fun _ => Ok [];
       taskKanbanStatus_of := fun _ => Ok [];
       all_tags := Ok [urgent; home] |}.

(** A front matter with a reference in a field, in an array and in a
    nested object. *)
Definition nested : list (string * FrontMatterTree.Value) :=
  [ ("title", FrontMatterTree.VString "Plan");
    ("task", FrontMatterTree.VString "singularityapp://?&page=any&id=T-1");
    ("links", FrontMatterTree.VArray
                [ FrontMatterTree.VString "https://example.org";
                  FrontMatterTree.VString "singularityapp://?&page=any&id=T-2#sid=ab12" ]);
    ("meta", FrontMatterTree.VObject
               [ ("rank", FrontMatterTree.VOther true);
                 ("deep", FrontMatterTree.VObject
                            [ ("ref", FrontMatterTree.VString
                                        "singularityapp://?&page=any&id=T-3") ]) ]) ].

End Sample.

(** * Properties *)

(** ** Facts about the string primitives *)

Section JSStringFacts.

Lemma startsWith_refl s : startsWith s s = true.
Proof. induction s as [|c s IH]; simpl; [done|]. by rewrite Ascii.eqb_refl. Qed.

Lemma startsWith_app s p t : startsWith s p = true → startsWith (s +:+ t) p = true.
Proof.
  revert s; induction p as [|c p IH]; intros [|d s]; simpl; try done.
  intros [-> ?]%andb_prop. simpl. eauto.
Qed.

Lemma startsWith_app_self p t : startsWith (p +:+ t) p = true.
Proof. apply startsWith_app, startsWith_refl. Qed.

Lemma indexOf_ge_m1 s p : -1 <= indexOf s p.
Proof.
  induction s as [|c s IH]; simpl; destruct (startsWith _ p); try lia.
  destruct (Z.ltb_spec (indexOf s p) 0); lia.
Qed.

Lemma includes_cons c s p : includes s p = true → includes (String c s) p = true.
Proof.
  unfold includes. simpl. intros H%Z.leb_le.
  destruct (startsWith _ p); [done|].
  destruct (Z.ltb_spec (indexOf s p) 0); apply Z.leb_le; lia.
Qed.

Lemma indexOf_startsWith s p : startsWith s p = true → indexOf s p = 0.
Proof. destruct s; simpl; by intros ->. Qed.

Lemma indexOf_cons_miss d s p :
  startsWith (String d s) p = false →
  indexOf (String d s) p = if indexOf s p <? 0 then -1 else indexOf s p + 1.
Proof. cbn [indexOf]. by intros ->. Qed.

Lemma includes_startsWith s p : startsWith s p = true → includes s p = true.
Proof. unfold includes. by intros ->%indexOf_startsWith. Qed.

(** A text that ends with [p ++ t] includes [p]. *)
Lemma includes_app_mid a p t : includes (a +:+ p +:+ t) p = true.
Proof.
  induction a as [|c a IH].
  - apply includes_startsWith. exact (startsWith_app_self p t).
  - apply includes_cons, IH.
Qed.

Lemma includes_false_cons c s p :
  includes (String c s) p = false → startsWith (String c s) p = false ∧ includes s p = false.
Proof.
  unfold includes. simpl. destruct (startsWith _ p) eqn:E.
  - destruct p; simpl in *; done.
  - intros H%Z.leb_gt. split; [done|]. apply Z.leb_gt.
    destruct (Z.ltb_spec (indexOf s p) 0); lia.
Qed.

Lemma firstChars_app_length a b : firstChars (String.length a) (a +:+ b) = a.
Proof. induction a as [|c a IH]; simpl; [by destruct b|]. by rewrite IH. Qed.

Lemma lacks_app c a b : lacks c (a +:+ b) = lacks c a && lacks c b.
Proof. induction a as [|d a IH]; simpl; [done|]. by rewrite IH, andb_assoc. Qed.

(** A pattern that begins with a character the text lacks does not occur. *)
Lemma lacks_indexOf c s p : lacks c s = true → indexOf s (String c p) = -1.
Proof.
  induction s as [|d s IH]; simpl; [done|].
  intros [Hd Hs]%andb_prop. apply negb_true_iff in Hd. rewrite Hd. simpl.
  by rewrite (IH Hs).
Qed.

(** ... and its first occurrence in [s ++ pattern ++ t] is right after [s]. *)
Lemma lacks_indexOf_app c s p t :
  lacks c s = true →
  indexOf (s +:+ String c p +:+ t) (String c p) = Z.of_nat (String.length s).
Proof.
  induction s as [|d s IH]; intros H.
  - apply indexOf_startsWith. exact (startsWith_app_self (String c p) t).
  - simpl in H. apply andb_prop in H as [Hd Hs]. apply negb_true_iff in Hd.
    change (String d s +:+ ?x) with (String d (s +:+ x)).
    rewrite indexOf_cons_miss by (simpl; by rewrite Hd).
    rewrite (IH Hs). cbn [String.length].
    destruct (Z.ltb_spec (Z.of_nat (String.length s)) 0); lia.
Qed.

End JSStringFacts.

(** ** The link editor on the heap *)

Section LinkEditor.

Import JSArray SingularityAPI Edited.

Implicit Types (h : Heap) (ops : list Delta.Op) (a : loc).

Lemma fresh_lookup h : h !! fresh (dom h) = None.
Proof. apply not_elem_of_dom, is_fresh. Qed.

Lemma read_fresh h a ops : read a (<[a := ops]> h) = Ok (ops, <[a := ops]> h).
Proof. unfold read. by rewrite lookup_insert_eq. Qed.

Lemma spread_run h a ops :
  h !! a = Some ops → spread a h = Ok (fresh (dom h), <[fresh (dom h) := ops]> h).
Proof. unfold spread. by intros ->. Qed.

Lemma bind_ok {A B} (m : Prog A) (k : A → Prog B) h x h' :
  m h = Ok (x, h') → JSArray.bind m k h = k x h'.
Proof. unfold JSArray.bind. by intros ->. Qed.

Lemma len_run h a ops : len a (<[a := ops]> h) = Ok (length ops, <[a := ops]> h).
Proof. unfold len. by rewrite (bind_ok _ _ _ _ _ (read_fresh h a ops)). Qed.

Lemma get_run h a ops i : get a i (<[a := ops]> h) = Ok (ops !! i, <[a := ops]> h).
Proof. unfold get. by rewrite (bind_ok _ _ _ _ _ (read_fresh h a ops)). Qed.

Lemma set_run h a ops i op :
  set a i op (<[a := ops]> h) = Ok (tt, <[a := <[i := op]> ops]> h).
Proof.
  unfold set. rewrite (bind_ok _ _ _ _ _ (read_fresh h a ops)).
  unfold write. by rewrite insert_insert_eq.
Qed.

Lemma pop_run h a ops : pop a (<[a := ops]> h) = Ok (tt, <[a := removelast ops]> h).
Proof.
  unfold pop. rewrite (bind_ok _ _ _ _ _ (read_fresh h a ops)).
  unfold write. by rewrite insert_insert_eq.
Qed.

Lemma push_run h a ops xs : push a xs (<[a := ops]> h) = Ok (tt, <[a := ops ++ xs]> h).
Proof.
  unfold push. rewrite (bind_ok _ _ _ _ _ (read_fresh h a ops)).
  unfold write. by rewrite insert_insert_eq.
Qed.

Lemma last_index ops : ops !! (length ops - 1)%nat = last ops.
Proof. by rewrite last_lookup, Nat.sub_1_r. Qed.

Lemma updateObsidianLinkById_run h a ops t u s :
  h !! a = Some ops →
  updateObsidianLinkById a t u s h
  = Ok (fresh (dom h), <[fresh (dom h) := updatedOps ops t u s]> h).
Proof.
  intros Ha. unfold updateObsidianLinkById, updatedOps.
  rewrite (bind_ok _ _ _ _ _ (spread_run _ _ _ Ha)).
  rewrite (bind_ok _ _ _ _ _ (read_fresh _ _ _)).
  set (r := fresh (dom h)).
  destruct (findObsidianLinkById ops s) as [[i op]|].
  - by rewrite (bind_ok _ _ _ _ _ (set_run _ _ _ _ _)).
  - unfold appendedOps.
    assert (Hstrip :
      (let* n := len r in
       when (0 <? n)%nat
         (let* lastOp := get r (n - 1) in when (isOnlyNewline lastOp) (pop r)))%arr
        (<[r := ops]> h)
      = Ok (tt, <[r := if isOnlyNewline (last ops) then removelast ops else ops]> h)).
    { rewrite (bind_ok _ _ _ _ _ (len_run _ _ _)).
      destruct ops as [|o ops'] eqn:E; [done|]. rewrite <- E.
      replace (0 <? length ops)%nat with true by (subst; done).
      unfold when at 1. rewrite (bind_ok _ _ _ _ _ (get_run _ _ _ _)).
      rewrite last_index. destruct (isOnlyNewline (last ops)); [apply pop_run|done]. }
    rewrite (bind_ok _ _ _ _ _ Hstrip).
    set (stripped := if isOnlyNewline (last ops) then _ else _).
    rewrite (bind_ok _ _ _ tt
               (<[r := stripped ++ (if (0 <? length stripped)%nat
                                    then [Delta.newline] else [])]> h)).
    2:{ rewrite (bind_ok _ _ _ _ _ (len_run _ _ _)).
        destruct (0 <? length stripped)%nat; simpl; [apply push_run|].
        by rewrite app_nil_r. }
    rewrite (bind_ok _ _ _ _ _ (push_run _ _ _ _)).
    unfold JSArray.ret. by rewrite <- app_assoc.
Qed.

Lemma addSidToLink_run h a ops i op l s :
  h !! a = Some ops → ops !! i = Some op → truthyLink op = Some l →
  addSidToLink a i s h
  = Ok (fresh (dom h), <[fresh (dom h) := <[i := marked op l s]> ops]> h).
Proof.
  intros Ha Hi Hl. unfold addSidToLink.
  rewrite (bind_ok _ _ _ _ _ (spread_run _ _ _ Ha)).
  rewrite (bind_ok _ _ _ _ _ (get_run _ _ _ _)).
  rewrite Hi, Hl. by rewrite (bind_ok _ _ _ _ _ (set_run _ _ _ _ _)).
Qed.

Lemma runOn_update ops t u s :
  runOn (fun a => updateObsidianLinkById a t u s) ops = Ok (updatedOps ops t u s).
Proof.
  unfold runOn.
  rewrite (bind_ok _ _ _ _ _ (updateObsidianLinkById_run _ _ ops _ _ _ (lookup_singleton_eq _ _))).
  by rewrite read_fresh.
Qed.

Lemma runOn_addSid ops i op l s :
  ops !! i = Some op → truthyLink op = Some l →
  runOn (fun a => addSidToLink a i s) ops = Ok (<[i := marked op l s]> ops).
Proof.
  intros Hi Hl. unfold runOn.
  rewrite (bind_ok _ _ _ _ _
             (addSidToLink_run _ _ ops _ _ _ _ (lookup_singleton_eq _ _) Hi Hl)).
  by rewrite read_fresh.
Qed.

(** The scanning loop returns the first hit. *)
Lemma scanFrom_None hit i ops :
  scanFrom hit i ops = None ↔ Forall (fun op => hit op = false) ops.
Proof.
  revert i; induction ops as [|o ops IH]; intros i; simpl.
  - split; [constructor|done].
  - destruct (hit o) eqn:E.
    + split; [done|]. intros H. inversion H; congruence.
    + rewrite IH. split; [by constructor|]. by intros H; inversion H.
Qed.

Lemma scanFrom_Some hit i ops j op :
  scanFrom hit i ops = Some (j, op) ↔
  ∃ k, j = (i + k)%nat ∧ ops !! k = Some op ∧ hit op = true
       ∧ Forall (fun o => hit o = false) (take k ops).
Proof.
  revert i; induction ops as [|o ops IH]; intros i; simpl.
  - split; [done|]. by intros (k & _ & ? & _).
  - destruct (hit o) eqn:E.
    + split.
      * intros [= <- <-]. exists 0%nat. rewrite Nat.add_0_r. by repeat split.
      * intros (k & -> & Hk & Hop & Hbefore). destruct k as [|k]; simpl in *.
        -- rewrite Nat.add_0_r. congruence.
        -- inversion Hbefore; congruence.
    + rewrite IH. split.
      * intros (k & -> & Hk & Hop & Hbefore). exists (S k).
        repeat split; [lia|done..|]. simpl. by constructor.
      * intros (k & -> & Hk & Hop & Hbefore). destruct k as [|k]; simpl in *.
        -- congruence.
        -- exists k. repeat split; [lia|done..|]. by inversion Hbefore.
Qed.

(** Replacing the first hit by another hit keeps it the first hit. *)
Lemma scanFrom_insert hit ops i op op' :
  scanFrom hit 0 ops = Some (i, op) → hit op' = true →
  scanFrom hit 0 (<[i := op']> ops) = Some (i, op').
Proof.
  intros (k & -> & Hk & Hop & Hbefore)%scanFrom_Some Hop'. simpl.
  apply scanFrom_Some. exists k. repeat split; [|done|].
  - apply list_lookup_insert_eq. by eapply lookup_lt_Some.
  - by rewrite take_insert_ge.
Qed.

(** Replacing an operation where nothing hits, by a hit, makes it the first hit. *)
Lemma scanFrom_insert_new hit ops i op op' :
  scanFrom hit 0 ops = None → ops !! i = Some op → hit op' = true →
  scanFrom hit 0 (<[i := op']> ops) = Some (i, op').
Proof.
  intros Hnone%scanFrom_None Hi Hop'.
  apply scanFrom_Some. exists i. repeat split; [|done|].
  - apply list_lookup_insert_eq. by eapply lookup_lt_Some.
  - rewrite take_insert_ge by done. by apply Forall_take.
Qed.

End LinkEditor.

(** ** The link editor: appending, updating in place, migrating *)

Section EditorProperties.

Import JSArray SingularityAPI Edited.

Lemma isOnlyNewline_spec (o : option Delta.Op) :
  isOnlyNewline o = true ↔ o = Some Delta.newline.
Proof.
  split; [|by intros ->].
  destruct o as [[txt [a|]]|]; cbn; rewrite ?andb_false_r, ?andb_true_r; try done.
  by intros ->%String.eqb_eq.
Qed.

Lemma findObsidianLinkById_None ops sid :
  findObsidianLinkById ops sid = None ↔
  Forall (fun op => carriesSid (SID_FRAGMENT +:+ sid) op = false) ops.
Proof. apply scanFrom_None. Qed.

(** C3 — Append behaviour of [updateObsidianLinkById]: when no operation of
    the sequence carries the sid, the result is the sequence without its
    trailing bare line terminator (if it ends with one), then one separating
    line terminator if and only if what is left is not empty, then the new
    link operation with text [Obsidian: <title>] and link
    [baseUrl + #sid= + syncId], then a line terminator.  The result is a new
    array; the input array, and every other array, is left as it was. *)
Theorem updateObsidianLinkById_appends
    (h : Heap) (deltaOps : loc) (ops : list Delta.Op)
    (noteTitle obsidianUrl singularityId : string) :
  h !! deltaOps = Some ops →
  Forall (fun op => carriesSid (SID_FRAGMENT +:+ singularityId) op = false) ops →
  let linkOp :=
    {| Delta.insert := "Obsidian: " +:+ Delta.DQUOTE +:+ noteTitle +:+ Delta.DQUOTE;
       Delta.attributes :=
         Some {| Delta.link := Some (obsidianUrl +:+ "#sid=" +:+ singularityId);
                 Delta.formats := [] |} |} in
  let stripped :=
    match last ops with
    | Some op => if isOnlyNewline (Some op) then removelast ops else ops
    | None => ops
    end in
  let separator := match stripped with [] => [] | _ :: _ => [Delta.newline] end in
  (∀ op, isOnlyNewline (Some op) = true ↔ op = Delta.newline) ∧
  ∃ (r : loc) (h' : Heap),
    updateObsidianLinkById deltaOps noteTitle obsidianUrl singularityId h = Ok (r, h')
    ∧ h' !! r = Some (stripped ++ separator ++ [linkOp; Delta.newline])
    ∧ h !! r = None
    ∧ ∀ a, a ≠ r → h' !! a = h !! a.
Proof.
  intros Ha Hnone%findObsidianLinkById_None. cbv zeta. split.
  { intros op. rewrite isOnlyNewline_spec. split; congruence. }
  exists (fresh (dom h)), (<[fresh (dom h) := updatedOps ops noteTitle obsidianUrl singularityId]> h).
  split; [by apply updateObsidianLinkById_run|].
  split; [|split; [apply fresh_lookup|by intros a Hne; rewrite lookup_insert_ne]].
  rewrite lookup_insert_eq. f_equal.
  unfold updatedOps. rewrite Hnone. unfold appendedOps.
  assert (Hs : (if isOnlyNewline (last ops) then removelast ops else ops)
               = match last ops with
                 | Some op => if isOnlyNewline (Some op) then removelast ops else ops
                 | None => ops
                 end) by (by destruct (last ops)).
  rewrite Hs. by destruct (match last ops with Some _ => _ | None => _ end).
Qed.

Lemma updateObsidianLinkById_appends_witness :
  let h : Heap := {[ 7%nat := [ {| Delta.insert := "notes"; Delta.attributes := None |};
                               Delta.newline ] ]} in
  h !! 7%nat = Some [ {| Delta.insert := "notes"; Delta.attributes := None |}; Delta.newline ]
  ∧ ∃ (r : loc) (h' : Heap),
      updateObsidianLinkById 7%nat "Plan" "obsidian://open?vault=V&file=Plan.md" "ab12" h
      = Ok (r, h')
      ∧ h' !! r
        = Some [ {| Delta.insert := "notes"; Delta.attributes := None |};
                 Delta.newline;
                 {| Delta.insert := "Obsidian: " +:+ Delta.DQUOTE +:+ "Plan" +:+ Delta.DQUOTE;
                    Delta.attributes :=
                      Some {| Delta.link :=
                                Some "obsidian://open?vault=V&file=Plan.md#sid=ab12";
                              Delta.formats := [] |} |};
                 Delta.newline ].
Proof.
  intros h. split; [reflexivity|].
  destruct (updateObsidianLinkById_appends h 7%nat
              [ {| Delta.insert := "notes"; Delta.attributes := None |}; Delta.newline ]
              "Plan" "obsidian://open?vault=V&file=Plan.md" "ab12")
    as (_ & r & h' & Hrun & Hr & _).
  - reflexivity.
  - repeat constructor.
  - exists r, h'. split; [exact Hrun|exact Hr].
Defined.

(** C4 — Non-destructive update: when [findObsidianLinkById] identifies an
    operation by the sid, [updateObsidianLinkById] returns a new array of
    the same length in which that operation has the new text and the link
    [baseUrl + #sid= + syncId] and keeps its other attributes, and in which
    every other position holds the operation the input holds there; the
    input array is left as it was. *)
Theorem updateObsidianLinkById_frame
    (h : Heap) (deltaOps : loc) (ops : list Delta.Op)
    (noteTitle obsidianUrl singularityId : string) (index : nat) (op : Delta.Op) :
  h !! deltaOps = Some ops →
  findObsidianLinkById ops singularityId = Some (index, op) →
  ∃ (r : loc) (h' : Heap) (ops' : list Delta.Op) (a : Delta.Attributes),
    updateObsidianLinkById deltaOps noteTitle obsidianUrl singularityId h = Ok (r, h')
    ∧ h' !! r = Some ops'
    ∧ h !! r = None
    ∧ (∀ b, b ≠ r → h' !! b = h !! b)
    ∧ length ops' = length ops
    ∧ ops !! index = Some op
    ∧ Delta.attributes op = Some a
    ∧ ops' !! index
      = Some {| Delta.insert := "Obsidian: " +:+ Delta.DQUOTE +:+ noteTitle +:+ Delta.DQUOTE;
                Delta.attributes :=
                  Some {| Delta.link := Some (obsidianUrl +:+ "#sid=" +:+ singularityId);
                          Delta.formats := Delta.formats a |} |}
    ∧ ∀ j, j ≠ index → ops' !! j = ops !! j.
Proof.
  intros Ha Hfind.
  pose proof Hfind as (k & Hk & Hidx & Hhit & _)%scanFrom_Some. simpl in Hk. subst k.
  assert (∃ a, Delta.attributes op = Some a) as [a Hattr].
  { unfold carriesSid, Delta.linkOf in Hhit. destruct (Delta.attributes op); [eauto|done]. }
  exists (fresh (dom h)),
         (<[fresh (dom h) := updatedOps ops noteTitle obsidianUrl singularityId]> h),
         (updatedOps ops noteTitle obsidianUrl singularityId), a.
  split; [by apply updateObsidianLinkById_run|].
  split; [by rewrite lookup_insert_eq|].
  split; [apply fresh_lookup|].
  split; [by intros b Hne; rewrite lookup_insert_ne|].
  unfold updatedOps. rewrite Hfind.
  split; [by rewrite length_insert|].
  split; [done|]. split; [done|]. split.
  - rewrite list_lookup_insert_eq by (by eapply lookup_lt_Some).
    unfold relinked, Delta.withLink. by rewrite Hattr.
  - intros j Hj. by rewrite list_lookup_insert_ne.
Qed.

Lemma updateObsidianLinkById_frame_witness :
  let bold := {| Delta.insert := "Agenda";
                 Delta.attributes :=
                   Some {| Delta.link := None;
                           Delta.formats := [("bold", Delta.AttrBool true)] |} |} in
  let old := {| Delta.insert := "old title";
                Delta.attributes :=
                  Some {| Delta.link := Some "obsidian://open?vault=V&file=Old.md#sid=ab12";
                          Delta.formats := [("italic", Delta.AttrBool true)] |} |} in
  let ops := [bold; old; Delta.newline] in
  let h : Heap := {[ 3%nat := ops ]} in
  findObsidianLinkById ops "ab12" = Some (1%nat, old)
  ∧ ∃ (r : loc) (h' : Heap) (ops' : list Delta.Op),
      updateObsidianLinkById 3%nat "New" "obsidian://open?vault=V&file=New.md" "ab12" h
      = Ok (r, h')
      ∧ h' !! r = Some ops' ∧ h' !! 3%nat = Some ops
      ∧ ops' !! 0%nat = Some bold ∧ ops' !! 2%nat = Some Delta.newline
      ∧ ops' !! 1%nat
        = Some {| Delta.insert := "Obsidian: " +:+ Delta.DQUOTE +:+ "New" +:+ Delta.DQUOTE;
                  Delta.attributes :=
                    Some {| Delta.link := Some "obsidian://open?vault=V&file=New.md#sid=ab12";
                            Delta.formats := [("italic", Delta.AttrBool true)] |} |}.
Proof.
  intros bold old ops h.
  assert (Hfind : findObsidianLinkById ops "ab12" = Some (1%nat, old)) by reflexivity.
  split; [exact Hfind|].
  destruct (updateObsidianLinkById_frame h 3%nat ops "New"
              "obsidian://open?vault=V&file=New.md" "ab12" 1%nat old eq_refl Hfind)
    as (r & h' & ops' & a & Hrun & Hr & Hfresh & Hothers & _ & _ & Ha & Hnew & Hframe).
  exists r, h', ops'. split; [exact Hrun|]. split; [exact Hr|].
  assert (Hne : 3%nat ≠ r) by (intros <-; discriminate Hfresh).
  split; [exact (Hothers _ Hne)|].
  split; [exact (Hframe 0%nat ltac:(done))|]. split; [exact (Hframe 2%nat ltac:(done))|].
  rewrite Hnew. by injection Ha as <-.
Defined.

End EditorProperties.

(** ** The record cache *)

Section CacheProperties.

Variable LOCALES : Language → Locale.
Import TaskCache.

Ltac unfold_M :=
  unfold cachedOr, isExpired, Date_now, Api.getTask, Api.getTaskKanbanStatus,
    Api.getKanbanStatuses, Api.getTags, Api.request, MNotations.bind, MNotations.ret,
    MNotations.gets, MNotations.modify, fetchFrame in *; cbn beta in *.

Ltac frame_cases :=
  repeat (case_match; simplify_eq/=);
  rewrite ?app_nil_r; try (split_and!; (done || eauto)).

Lemma getTaskKanbanStatus_run taskId w r w' :
  Regex.isEmpty (token w) = false →
  Api.getTaskKanbanStatus taskId w = (r, w') →
  fetchFrame w w' [GetTaskKanbanStatus taskId]
  ∧ r = taskKanbanStatus_of (remote w) taskId ∧ kanbanCache w' = kanbanCache w.
Proof. unfold_M. intros Htok H. rewrite Htok in H. simplify_eq. by split_and!. Qed.

Lemma getKanbanStatuses_run projectId w r w' :
  Regex.isEmpty (token w) = false →
  getKanbanStatuses projectId w = (r, w') →
  ∃ more, fetchFrame w w' more
          ∧ isThrow r = existsb (rejectedBy (remote w)) more
          ∧ ∀ ps, r = Ok ps →
                  ∃ e, kanbanCache w' !! projectId = Some e ∧ CacheEntry.data e = ps.
Proof.
  unfold getKanbanStatuses. unfold_M. intros Htok H.
  repeat (case_match; simplify_eq/=); try congruence.
  all: first
    [ exists []; rewrite app_nil_r; split_and!; try done;
      intros ? [= <-]; eauto
    | exists [GetKanbanStatuses projectId]; simpl;
      match goal with E : kanbanStatuses_of _ _ = _ |- _ => rewrite E end;
      split_and!; try done; intros ? [= <-]; rewrite lookup_insert_eq; eauto ].
Qed.

Lemma getTagsByIds_run tagIds w r w' :
  Regex.isEmpty (token w) = false →
  getTagsByIds tagIds w = (r, w') →
  ∃ more, fetchFrame w w' more
          ∧ isThrow r = existsb (rejectedBy (remote w)) more
          ∧ kanbanCache w' = kanbanCache w.
Proof.
  unfold getTagsByIds, getTags. unfold_M. intros Htok H.
  repeat (case_match; simplify_eq/=); try congruence.
  all: first
    [ by exists []; rewrite app_nil_r
    | exists [GetTags]; simpl;
      match goal with E : all_tags _ = _ |- _ => rewrite E end; done ].
Qed.

Lemma promiseAll3_run {A B C} (a : M A) (b : M B) (c : M C) w r w' :
  promiseAll3 a b c w = (r, w') →
  ∃ ra w1 rb w2 rc,
    a w = (ra, w1) ∧ b w1 = (rb, w2) ∧ c w2 = (rc, w')
    ∧ isThrow r = isThrow ra || isThrow rb || isThrow rc
    ∧ ∀ x y z, ra = Ok x → rb = Ok y → rc = Ok z → r = Ok (x, y, z).
Proof.
  unfold promiseAll3. intros H.
  destruct (a w) as [ra w1] eqn:Ea, (b w1) as [rb w2] eqn:Eb, (c w2) as [rc w3] eqn:Ec.
  exists ra, w1, rb, w2, rc.
  destruct ra, rb, rc; simplify_eq/=; split_and!; try done; by intros; simplify_eq.
Qed.

Lemma fetchTaskData_run taskId w r w' :
  Regex.isEmpty (token w) = false →
  fetchTaskData LOCALES taskId w = (r, w') →
  ∃ more,
    requests w' = requests w ++ GetTask taskId :: more
    ∧ isThrow r = existsb (rejectedBy (remote w)) (GetTask taskId :: more)
    ∧ (isThrow r = true → taskCache w' = taskCache w)
    ∧ ∀ td, r = Ok td →
        ∃ task tks e tags now,
          task_of (remote w) taskId = Ok task
          ∧ taskKanbanStatus_of (remote w) taskId = Ok tks
          ∧ kanbanCache w' !! SingularityTask.projectId task = Some e
          ∧ td = enriched LOCALES (language w) task tks (CacheEntry.data e) tags
          ∧ taskCache w' = <[taskId := {| CacheEntry.data := td;
                                          CacheEntry.timestamp := now |}]> (taskCache w).
Proof.
  intros Htok. unfold fetchTaskData.
  unfold MNotations.bind at 1. unfold Api.getTask, Api.request at 1. rewrite Htok.
  destruct (task_of (remote w) taskId) as [task|err] eqn:Etask.
  2:{ intros [= <- <-]. exists []. simpl. rewrite Etask. by split_and!. }
  set (w0 := with_requests _ w).
  unfold MNotations.bind at 1.
  destruct (promiseAll3 _ _ _ w0) as [rf wf] eqn:Eall.
  apply promiseAll3_run in Eall as (ra & w1 & rb & w2 & rc & Ea & Eb & Ec & Hthrow & Hok).
  apply getTaskKanbanStatus_run in Ea as ((Ftc1 & Frem1 & Ftok1 & Flang1 & Fttl1 & Fclk1 & Freq1)
                                          & -> & Fk1); [|done].
  apply getKanbanStatuses_run in Eb
    as (more2 & (Ftc2 & Frem2 & Ftok2 & Flang2 & Fttl2 & Fclk2 & Freq2) & Hthrow2 & Hk2);
    [|by rewrite Ftok1].
  apply getTagsByIds_run in Ec
    as (more3 & (Ftc3 & Frem3 & Ftok3 & Flang3 & Fttl3 & Fclk3 & Freq3) & Hthrow3 & Hk3);
    [|by rewrite Ftok2, Ftok1].
  assert (Hreq : requests wf
                 = requests w ++ GetTask taskId :: GetTaskKanbanStatus taskId :: more2 ++ more3).
  { rewrite Freq3, Freq2, Freq1. subst w0. simpl. by rewrite <- !app_assoc. }
  assert (Hrej : isThrow rf
                 = existsb (rejectedBy (remote w))
                     (GetTask taskId :: GetTaskKanbanStatus taskId :: more2 ++ more3)).
  { rewrite Hthrow, Hthrow2, Hthrow3. simpl. rewrite Etask. simpl.
    rewrite existsb_app, Frem2, Frem1. subst w0. simpl. by rewrite orb_assoc. }
  intros Hrun. exists (GetTaskKanbanStatus taskId :: more2 ++ more3).
  destruct (isThrow rf) eqn:Ethrow.
  - destruct rf as [?|err]; [done|]. injection Hrun as <- <-.
    split; [done|]. split; [done|]. split; [|done].
    intros _. by rewrite Ftc3, Ftc2, Ftc1.
  - symmetry in Hthrow. apply orb_false_elim in Hthrow as [[Ha Hb]%orb_false_elim Hc].
    destruct (taskKanbanStatus_of (remote w0) taskId) as [tks|] eqn:Etks; [|done].
    destruct rb as [ps|]; [|done]. destruct rc as [tags|]; [|done].
    rewrite (Hok _ _ _ eq_refl eq_refl eq_refl) in Hrun.
    unfold MNotations.bind, MNotations.gets, Date_now, MNotations.modify, MNotations.ret in Hrun.
    injection Hrun as <- <-. split; [exact Hreq|]. split; [by rewrite <- Hrej|].
    split; [done|]. intros td [= <-]. simpl.
    destruct (Hk2 _ eq_refl) as (e & He & <-).
    exists task, tks, e, tags, (clock wf (clockReads wf)).
    split_and!; try done.
    + by rewrite Hk3.
    + rewrite Flang3, Flang2, Flang1. done.
    + by rewrite Ftc3, Ftc2, Ftc1.
Qed.

Lemma cachedOr_fresh {T} (e : CacheEntry.t T) (refetch : M T) w :
  clock w (clockReads w) - CacheEntry.timestamp e <= cacheTTL w * 60 * 1000 →
  cachedOr (Some e) refetch w = (Ok (CacheEntry.data e), with_clockReads S w).
Proof.
  intros H. unfold cachedOr, isExpired, Date_now, MNotations.bind, MNotations.gets, MNotations.ret.
  simpl. by destruct (Z.gtb_spec (clock w (clockReads w) - CacheEntry.timestamp e)
                                (cacheTTL w * 60 * 1000)); [lia|].
Qed.

Lemma cachedOr_expired {T} (e : CacheEntry.t T) (refetch : M T) w :
  clock w (clockReads w) - CacheEntry.timestamp e > cacheTTL w * 60 * 1000 →
  cachedOr (Some e) refetch w = refetch (with_clockReads S w).
Proof.
  intros H. unfold cachedOr, isExpired, Date_now, MNotations.bind, MNotations.gets, MNotations.ret.
  simpl. by destruct (Z.gtb_spec (clock w (clockReads w) - CacheEntry.timestamp e)
                                (cacheTTL w * 60 * 1000)); [|lia].
Qed.

(** Every run of [getTaskData] is a cache hit, or the fetch of the task. *)
Lemma getTaskData_run taskId w :
  (∃ e, taskCache w !! taskId = Some e
        ∧ clock w (clockReads w) - CacheEntry.timestamp e <= cacheTTL w * 60 * 1000
        ∧ getTaskData LOCALES taskId w = (Ok (CacheEntry.data e), with_clockReads S w))
  ∨ (∃ w0, getTaskData LOCALES taskId w = fetchTaskData LOCALES taskId w0
           ∧ requests w0 = requests w ∧ remote w0 = remote w ∧ token w0 = token w
           ∧ taskCache w0 = taskCache w ∧ language w0 = language w).
Proof.
  change (getTaskData LOCALES taskId w)
    with (cachedOr (taskCache w !! taskId) (fetchTaskData LOCALES taskId) w).
  destruct (taskCache w !! taskId) as [e|] eqn:E.
  - destruct (Z.le_gt_cases (clock w (clockReads w) - CacheEntry.timestamp e)
                            (cacheTTL w * 60 * 1000)) as [Hle|Hgt].
    + left. exists e. by rewrite cachedOr_fresh.
    + right. exists (with_clockReads S w). rewrite cachedOr_expired by lia. done.
  - right. by exists w.
Qed.

Lemma sentBetween_app w w' more :
  requests w' = requests w ++ more → sentBetween w w' = more.
Proof. unfold sentBetween. intros ->. apply drop_app_length. Qed.

Lemma sentBetween_tick w : sentBetween w (with_clockReads S w) = [].
Proof. unfold sentBetween. simpl. apply drop_all. Qed.

(** The parts of a run of [getTaskData] that the properties below use. *)
Lemma getTaskData_fetched taskId w r w' :
  getTaskData LOCALES taskId w = (r, w') →
  sentBetween w w' ≠ [] →
  ∃ more,
    sentBetween w w' = GetTask taskId :: more
    ∧ isThrow r = existsb (rejectedBy (remote w)) (GetTask taskId :: more)
    ∧ (isThrow r = true → taskCache w' = taskCache w)
    ∧ ∀ td, r = Ok td →
        ∃ task tks e tags now,
          task_of (remote w) taskId = Ok task
          ∧ taskKanbanStatus_of (remote w) taskId = Ok tks
          ∧ kanbanCache w' !! SingularityTask.projectId task = Some e
          ∧ td = enriched LOCALES (language w) task tks (CacheEntry.data e) tags
          ∧ taskCache w' = <[taskId := {| CacheEntry.data := td;
                                          CacheEntry.timestamp := now |}]> (taskCache w).
Proof.
  intros Hrun Hsent.
  destruct (getTaskData_run taskId w) as [(e & _ & _ & Hhit)|(w0 & Hfetch & Hreq & Hrem & Htok & Htc & Hlang)].
  { rewrite Hhit in Hrun. injection Hrun as <- <-. by rewrite sentBetween_tick in Hsent. }
  rewrite Hfetch in Hrun.
  destruct (Regex.isEmpty (token w0)) eqn:Etok.
  { unfold fetchTaskData, MNotations.bind at 1, Api.getTask, Api.request in Hrun.
    rewrite Etok in Hrun. injection Hrun as <- <-.
    exfalso. apply Hsent. unfold sentBetween. rewrite Hreq. apply drop_all. }
  destruct (fetchTaskData_run _ _ _ _ Etok Hrun) as (more & Hmore & Hthrow & Hatomic & Hok).
  exists more. rewrite Hreq in Hmore. rewrite Hrem in Hthrow, Hok. rewrite Htc in Hatomic, Hok.
  rewrite Hlang in Hok. split; [by apply sentBetween_app|]. by split_and!.
Qed.

(** C8 — Enrichment atomicity: whenever [getTaskData] rejects, the per-task
    cache is what it was before the call; and it rejects whenever the
    remote store rejects one of the requests the call sends (the task, its
    status assignment, the status set of its project, the tags). *)
Theorem getTaskData_atomic (taskId : string) (w : World) :
  let '(r, w') := getTaskData LOCALES taskId w in
  (isThrow r = true → taskCache w' = taskCache w)
  ∧ (existsb (rejectedBy (remote w)) (sentBetween w w') = true →
     isThrow r = true ∧ taskCache w' = taskCache w).
Proof.
  destruct (getTaskData LOCALES taskId w) as [r w'] eqn:Hrun.
  destruct (decide (sentBetween w w' = [])) as [Hnone|Hsent].
  - rewrite Hnone. split; [|done]. intros Hthrow.
    destruct (getTaskData_run taskId w)
      as [(e & _ & _ & Hhit)|(w0 & Hfetch & Hreq & Hrem & Htok & Htc & Hlang)].
    { rewrite Hhit in Hrun. by injection Hrun as <- <-. }
    rewrite Hfetch in Hrun. destruct (Regex.isEmpty (token w0)) eqn:Etok.
    + unfold fetchTaskData, MNotations.bind at 1, Api.getTask, Api.request in Hrun.
      rewrite Etok in Hrun. by injection Hrun as <- <-.
    + destruct (fetchTaskData_run _ _ _ _ Etok Hrun) as (more & Hmore & _ & Hatomic & _).
      rewrite <- Htc. by apply Hatomic.
  - destruct (getTaskData_fetched _ _ _ _ Hrun Hsent) as (more & -> & Hthrow & Hatomic & _).
    split; [done|]. intros Hrej. rewrite Hrej in Hthrow. by split; [|apply Hatomic].
Qed.

(** C9 — Cache expiry boundary, for each of the three record classes: an
    entry whose own timestamp [T] satisfies [now - T <= ttl] is returned
    without any request being sent and without any cache being changed; an
    entry with [now - T > ttl] makes the call send the request for that
    record again.  [now] is the reading of the clock taken by the call and
    [ttl] is the configured number of minutes in milliseconds. *)
Theorem cache_expiry_boundary (w : World) :
  let now := clock w (clockReads w) in
  let ttl := cacheTTL w * 60 * 1000 in
  let served := with_clockReads S w in
  (requests served = requests w ∧ taskCache served = taskCache w
   ∧ kanbanCache served = kanbanCache w ∧ tagsCache served = tagsCache w)
  ∧ (∀ taskId e, taskCache w !! taskId = Some e →
       (now - CacheEntry.timestamp e <= ttl →
        getTaskData LOCALES taskId w = (Ok (CacheEntry.data e), served))
       ∧ (now - CacheEntry.timestamp e > ttl → Regex.isEmpty (token w) = false →
          ∃ more, requests (snd (getTaskData LOCALES taskId w))
                  = requests w ++ GetTask taskId :: more))
  ∧ (∀ projectId e, kanbanCache w !! projectId = Some e →
       (now - CacheEntry.timestamp e <= ttl →
        getKanbanStatuses projectId w = (Ok (CacheEntry.data e), served))
       ∧ (now - CacheEntry.timestamp e > ttl → Regex.isEmpty (token w) = false →
          requests (snd (getKanbanStatuses projectId w))
          = requests w ++ [GetKanbanStatuses projectId]))
  ∧ (∀ e, tagsCache w = Some e →
       (now - CacheEntry.timestamp e <= ttl →
        getTags w = (Ok (CacheEntry.data e), served))
       ∧ (now - CacheEntry.timestamp e > ttl → Regex.isEmpty (token w) = false →
          requests (snd (getTags w)) = requests w ++ [GetTags])).
Proof.
  cbv zeta. split; [done|]. split; [|split].
  - intros taskId e He. split.
    + intros Hfresh.
      change (getTaskData LOCALES taskId w)
        with (cachedOr (taskCache w !! taskId) (fetchTaskData LOCALES taskId) w).
      rewrite He. by apply cachedOr_fresh.
    + intros Hexp Htok.
      change (getTaskData LOCALES taskId w)
        with (cachedOr (taskCache w !! taskId) (fetchTaskData LOCALES taskId) w).
      rewrite He, cachedOr_expired by done.
      destruct (fetchTaskData LOCALES taskId (with_clockReads S w)) as [r w'] eqn:Hrun.
      apply fetchTaskData_run in Hrun as (more & Hmore & _); [|done]. by exists more.
  - intros projectId e He. split.
    + intros Hfresh. unfold getKanbanStatuses, MNotations.bind at 1, MNotations.gets at 1.
      rewrite He. by apply cachedOr_fresh.
    + intros Hexp Htok. unfold getKanbanStatuses, MNotations.bind at 1, MNotations.gets at 1.
      rewrite He, cachedOr_expired by done.
      unfold MNotations.bind, Api.getKanbanStatuses, Api.request. simpl. rewrite Htok.
      by destruct (kanbanStatuses_of (remote w) projectId).
  - intros e He. split.
    + intros Hfresh. unfold getTags, MNotations.bind at 1, MNotations.gets at 1.
      rewrite He. by apply cachedOr_fresh.
    + intros Hexp Htok. unfold getTags, MNotations.bind at 1, MNotations.gets at 1.
      rewrite He, cachedOr_expired by done.
      unfold MNotations.bind, Api.getTags, Api.request. simpl. rewrite Htok.
      by destruct (all_tags (remote w)).
Qed.

(** The same for the earlier copy of the cache. *)
Lemma earlier_fetchTaskData_run taskId w r w' :
  Regex.isEmpty (token w) = false →
  TaskCacheEarlier.fetchTaskData taskId w = (r, w') →
  ∃ more,
    requests w' = requests w ++ GetTask taskId :: more
    ∧ isThrow r = existsb (rejectedBy (remote w)) (GetTask taskId :: more)
    ∧ ∀ td, r = Ok td →
        ∃ task tks e tags,
          task_of (remote w) taskId = Ok task
          ∧ taskKanbanStatus_of (remote w) taskId = Ok tks
          ∧ kanbanCache w' !! SingularityTask.projectId task = Some e
          ∧ td = TaskCacheEarlier.enriched task tks (CacheEntry.data e) tags.
Proof.
  intros Htok. unfold TaskCacheEarlier.fetchTaskData.
  unfold MNotations.bind at 1. unfold Api.getTask, Api.request at 1. rewrite Htok.
  destruct (task_of (remote w) taskId) as [task|err] eqn:Etask.
  2:{ intros [= <- <-]. exists []. simpl. rewrite Etask. by split_and!. }
  set (w0 := with_requests _ w).
  unfold MNotations.bind at 1.
  destruct (promiseAll3 _ _ _ w0) as [rf wf] eqn:Eall.
  apply promiseAll3_run in Eall as (ra & w1 & rb & w2 & rc & Ea & Eb & Ec & Hthrow & Hok).
  apply getTaskKanbanStatus_run in Ea as ((Ftc1 & Frem1 & Ftok1 & Flang1 & Fttl1 & Fclk1 & Freq1)
                                          & -> & Fk1); [|done].
  apply getKanbanStatuses_run in Eb
    as (more2 & (Ftc2 & Frem2 & Ftok2 & Flang2 & Fttl2 & Fclk2 & Freq2) & Hthrow2 & Hk2);
    [|by rewrite Ftok1].
  apply getTagsByIds_run in Ec
    as (more3 & (Ftc3 & Frem3 & Ftok3 & Flang3 & Fttl3 & Fclk3 & Freq3) & Hthrow3 & Hk3);
    [|by rewrite Ftok2, Ftok1].
  assert (Hreq : requests wf
                 = requests w ++ GetTask taskId :: GetTaskKanbanStatus taskId :: more2 ++ more3).
  { rewrite Freq3, Freq2, Freq1. subst w0. simpl. by rewrite <- !app_assoc. }
  assert (Hrej : isThrow rf
                 = existsb (rejectedBy (remote w))
                     (GetTask taskId :: GetTaskKanbanStatus taskId :: more2 ++ more3)).
  { rewrite Hthrow, Hthrow2, Hthrow3. simpl. rewrite Etask. simpl.
    rewrite existsb_app, Frem2, Frem1. subst w0. simpl. by rewrite orb_assoc. }
  intros Hrun. exists (GetTaskKanbanStatus taskId :: more2 ++ more3).
  destruct (isThrow rf) eqn:Ethrow.
  - destruct rf as [?|err]; [done|]. injection Hrun as <- <-.
    split; [done|]. split; [done|]. done.
  - symmetry in Hthrow. apply orb_false_elim in Hthrow as [[Ha Hb]%orb_false_elim Hc].
    destruct (taskKanbanStatus_of (remote w0) taskId) as [tks|] eqn:Etks; [|done].
    destruct rb as [ps|]; [|done]. destruct rc as [tags|]; [|done].
    rewrite (Hok _ _ _ eq_refl eq_refl eq_refl) in Hrun.
    unfold MNotations.bind, MNotations.gets, Date_now, MNotations.modify, MNotations.ret in Hrun.
    injection Hrun as <- <-. split; [exact Hreq|]. split; [by rewrite <- Hrej|].
    intros td [= <-]. simpl.
    destruct (Hk2 _ eq_refl) as (e & He & <-).
    exists task, tks, e, tags. split_and!; try done. by rewrite Hk3.
Qed.

Lemma earlier_getTaskData_fetched taskId w r w' :
  TaskCacheEarlier.getTaskData taskId w = (r, w') →
  sentBetween w w' ≠ [] →
  ∃ more,
    sentBetween w w' = GetTask taskId :: more
    ∧ isThrow r = existsb (rejectedBy (remote w)) (GetTask taskId :: more)
    ∧ ∀ td, r = Ok td →
        ∃ task tks e tags,
          task_of (remote w) taskId = Ok task
          ∧ taskKanbanStatus_of (remote w) taskId = Ok tks
          ∧ kanbanCache w' !! SingularityTask.projectId task = Some e
          ∧ td = TaskCacheEarlier.enriched task tks (CacheEntry.data e) tags.
Proof.
  change (TaskCacheEarlier.getTaskData taskId w)
    with (cachedOr (taskCache w !! taskId) (TaskCacheEarlier.fetchTaskData taskId) w).
  intros Hrun Hsent.
  assert (Hfetch : ∃ w0, TaskCacheEarlier.fetchTaskData taskId w0 = (r, w')
                         ∧ requests w0 = requests w ∧ remote w0 = remote w
                         ∧ token w0 = token w).
  { destruct (taskCache w !! taskId) as [e|]; [|by exists w].
    destruct (Z.le_gt_cases (clock w (clockReads w) - CacheEntry.timestamp e)
                            (cacheTTL w * 60 * 1000)) as [Hle|Hgt].
    - rewrite cachedOr_fresh in Hrun by done. injection Hrun as <- <-.
      by rewrite sentBetween_tick in Hsent.
    - rewrite cachedOr_expired in Hrun by lia. by exists (with_clockReads S w). }
  destruct Hfetch as (w0 & Hrun0 & Hreq & Hrem & Htok).
  destruct (Regex.isEmpty (token w0)) eqn:Etok.
  { unfold TaskCacheEarlier.fetchTaskData, MNotations.bind at 1, Api.getTask, Api.request
      in Hrun0.
    rewrite Etok in Hrun0. injection Hrun0 as <- <-.
    exfalso. apply Hsent. unfold sentBetween. rewrite Hreq. apply drop_all. }
  destruct (earlier_fetchTaskData_run _ _ _ _ Etok Hrun0) as (more & Hmore & Hthrow & Hok).
  exists more. rewrite Hreq in Hmore. rewrite Hrem in Hthrow, Hok.
  split; [by apply sentBetween_app|]. by split_and!.
Qed.

(** C2 (amended) — Status resolution precedence, in the two copies of the
    cache.  When [getTaskData] fetches a task and no request is rejected,
    it returns a record whose status is the fixed cancelled label if the
    cancellation flag is set, whatever the assignment.  Otherwise, if the
    completion flag is set: in the current copy the fixed done label; in
    the earlier copy the identifier and name of the first entry of the
    status set of the project whose identifier ends with [-DONE], and the
    fixed done label only if there is no such entry.  Otherwise, if the
    task has a status assignment, the identifier and name of the first
    entry of the status set with the identifier of the (first) assignment;
    otherwise those of the first entry whose identifier ends with [-TODO]
    ([null] where no entry is found).  The labels of the current copy are
    those of the language; those of the earlier copy are built in. *)
Theorem status_precedence (taskId : string) (w : World) :
  (let '(r, w') := getTaskData LOCALES taskId w in
   sentBetween w w' ≠ [] →
   existsb (rejectedBy (remote w)) (sentBetween w w') = false →
   ∃ td task assignment statuses,
     r = Ok td
     ∧ task_of (remote w) taskId = Ok task
     ∧ taskKanbanStatus_of (remote w) taskId = Ok assignment
     ∧ CacheEntry.data <$> kanbanCache w' !! SingularityTask.projectId task = Some statuses
     ∧ TaskData.isCancelled td = (SingularityTask.checked task =? 2)
     ∧ TaskData.isCompleted td = (SingularityTask.checked task =? 1)
     ∧ (TaskData.isCancelled td = true →
        TaskData.status td
        = Some {| Status.id := "CANCELLED";
                  Status.name := statusCancelled (LOCALES (language w)) |})
     ∧ (TaskData.isCancelled td = false → TaskData.isCompleted td = true →
        TaskData.status td
        = Some {| Status.id := "DONE"; Status.name := statusDone (LOCALES (language w)) |})
     ∧ (TaskData.isCancelled td = false → TaskData.isCompleted td = false →
        ∀ first others, assignment = first :: others →
          TaskData.status td
          = match List.find (fun s => String.eqb (KanbanStatus.id s)
                                        (TaskKanbanStatus.statusId first)) statuses with
            | Some entry => Some {| Status.id := KanbanStatus.id entry;
                                    Status.name := KanbanStatus.name entry |}
            | None => None
            end)
     ∧ (TaskData.isCancelled td = false → TaskData.isCompleted td = false →
        assignment = [] →
        TaskData.status td
        = match List.find (fun s => endsWith (KanbanStatus.id s) "-TODO") statuses with
          | Some entry => Some {| Status.id := KanbanStatus.id entry;
                                  Status.name := KanbanStatus.name entry |}
          | None => None
          end))
  ∧ (let '(r, w') := TaskCacheEarlier.getTaskData taskId w in
     sentBetween w w' ≠ [] →
     existsb (rejectedBy (remote w)) (sentBetween w w') = false →
     ∃ td task assignment statuses,
       r = Ok td
       ∧ task_of (remote w) taskId = Ok task
       ∧ taskKanbanStatus_of (remote w) taskId = Ok assignment
       ∧ CacheEntry.data <$> kanbanCache w' !! SingularityTask.projectId task = Some statuses
       ∧ TaskData.isCancelled td = (SingularityTask.checked task =? 2)
       ∧ TaskData.isCompleted td = (SingularityTask.checked task =? 1)
       ∧ (TaskData.isCancelled td = true →
          TaskData.status td
          = Some {| Status.id := "CANCELLED"; Status.name := "Отменена" |})
       ∧ (TaskData.isCancelled td = false → TaskData.isCompleted td = true →
          TaskData.status td
          = match List.find (fun s => endsWith (KanbanStatus.id s) "-DONE") statuses with
            | Some entry => Some {| Status.id := KanbanStatus.id entry;
                                    Status.name := KanbanStatus.name entry |}
            | None => Some {| Status.id := "DONE"; Status.name := "Готово" |}
            end)
       ∧ (TaskData.isCancelled td = false → TaskData.isCompleted td = false →
          ∀ first others, assignment = first :: others →
            TaskData.status td
            = match List.find (fun s => String.eqb (KanbanStatus.id s)
                                          (TaskKanbanStatus.statusId first)) statuses with
              | Some entry => Some {| Status.id := KanbanStatus.id entry;
                                      Status.name := KanbanStatus.name entry |}
              | None => None
              end)
       ∧ (TaskData.isCancelled td = false → TaskData.isCompleted td = false →
          assignment = [] →
          TaskData.status td
          = match List.find (fun s => endsWith (KanbanStatus.id s) "-TODO") statuses with
            | Some entry => Some {| Status.id := KanbanStatus.id entry;
                                    Status.name := KanbanStatus.name entry |}
            | None => None
            end)).
Proof.
  split.
  - destruct (getTaskData LOCALES taskId w) as [r w'] eqn:Hrun. intros Hsent Hacc.
    destruct (getTaskData_fetched _ _ _ _ Hrun Hsent) as (more & Hmore & Hthrow & _ & Hok).
    rewrite Hmore in Hacc. rewrite Hacc in Hthrow. destruct r as [td|]; [|done].
    destruct (Hok _ eq_refl) as (task & tks & e & tags & now & Htask & Htks & He & -> & _).
    exists (enriched LOCALES (language w) task tks (CacheEntry.data e) tags),
           task, tks, (CacheEntry.data e).
    rewrite He. simpl. unfold determineStatus, toStatus.
    split_and!; try done.
    + by intros ->.
    + by intros -> ->.
    + by intros -> -> first others ->.
    + by intros -> -> ->.
  - destruct (TaskCacheEarlier.getTaskData taskId w) as [r w'] eqn:Hrun. intros Hsent Hacc.
    destruct (earlier_getTaskData_fetched _ _ _ _ Hrun Hsent) as (more & Hmore & Hthrow & Hok).
    rewrite Hmore in Hacc. rewrite Hacc in Hthrow. destruct r as [td|]; [|done].
    destruct (Hok _ eq_refl) as (task & tks & e & tags & Htask & Htks & He & ->).
    exists (TaskCacheEarlier.enriched task tks (CacheEntry.data e) tags),
           task, tks, (CacheEntry.data e).
    rewrite He. simpl. unfold TaskCacheEarlier.determineStatus, toStatus.
    split_and!; try done.
    + by intros ->.
    + by intros -> ->.
    + by intros -> -> first others ->.
    + by intros -> -> ->.
Qed.

(** C10 — Status of an active task that cannot be resolved: when
    [getTaskData] fetches a task that is neither completed nor cancelled
    and no request is rejected, it returns a record (it does not reject),
    and the status of that record is [null] if the task has an assignment
    whose [statusId] is the identifier of no entry of the status set (no
    fall-back to the [-TODO] entry, even if there is one), and also if the
    task has no assignment and no entry of the status set has an identifier
    ending with [-TODO]. *)
Theorem unresolved_status_is_null (taskId : string) (w : World) :
  let '(r, w') := getTaskData LOCALES taskId w in
  sentBetween w w' ≠ [] →
  existsb (rejectedBy (remote w)) (sentBetween w w') = false →
  ∃ td task assignment statuses,
    r = Ok td
    ∧ task_of (remote w) taskId = Ok task
    ∧ taskKanbanStatus_of (remote w) taskId = Ok assignment
    ∧ CacheEntry.data <$> kanbanCache w' !! SingularityTask.projectId task = Some statuses
    ∧ TaskData.isCancelled td = (SingularityTask.checked task =? 2)
    ∧ TaskData.isCompleted td = (SingularityTask.checked task =? 1)
    ∧ (TaskData.isCancelled td = false → TaskData.isCompleted td = false →
       (∀ first others,
          assignment = first :: others →
          Forall (fun s => KanbanStatus.id s ≠ TaskKanbanStatus.statusId first) statuses →
          TaskData.status td = None)
       ∧ (assignment = [] →
          Forall (fun s => endsWith (KanbanStatus.id s) "-TODO" = false) statuses →
          TaskData.status td = None)).
Proof.
  destruct (getTaskData LOCALES taskId w) as [r w'] eqn:Hrun. intros Hsent Hacc.
  destruct (getTaskData_fetched _ _ _ _ Hrun Hsent) as (more & Hmore & Hthrow & _ & Hok).
  rewrite Hmore in Hacc. rewrite Hacc in Hthrow. destruct r as [td|]; [|done].
  destruct (Hok _ eq_refl) as (task & tks & e & tags & now & Htask & Htks & He & -> & _).
  exists (enriched LOCALES (language w) task tks (CacheEntry.data e) tags),
         task, tks, (CacheEntry.data e).
  rewrite He. simpl. unfold determineStatus.
  split_and!; try done.
  intros -> ->. split.
  - intros first others -> Hnone.
    destruct (List.find _ _) as [s|] eqn:Hfind; [|done].
    apply find_some in Hfind as [Hin Heq]. apply String.eqb_eq in Heq.
    rewrite Forall_forall in Hnone. by destruct (Hnone s (proj2 (list_elem_of_In _ _) Hin)).
  - intros -> Hnone.
    destruct (List.find _ _) as [s|] eqn:Hfind; [|done].
    apply find_some in Hfind as [Hin Heq].
    rewrite Forall_forall in Hnone.
    by rewrite (Hnone s (proj2 (list_elem_of_In _ _) Hin)) in Heq.
Qed.

End CacheProperties.

(** ** The identity scheme *)

Section IdentityScheme.

Import ObsidianLinkSync.

Lemma with_randomReads_add k w :
  with_randomReads (Nat.add k) (with_randomReads S w) = with_randomReads (Nat.add (S k)) w.
Proof. unfold with_randomReads. simpl. f_equal. lia. Qed.

Lemma toString16_digit v :
  0 <= v < 16 → ∃ d, toString16 v = String d EmptyString ∧ isLowerHex d = true.
Proof.
  intros H.
  assert (v = 0 ∨ v = 1 ∨ v = 2 ∨ v = 3 ∨ v = 4 ∨ v = 5 ∨ v = 6 ∨ v = 7 ∨ v = 8
          ∨ v = 9 ∨ v = 10 ∨ v = 11 ∨ v = 12 ∨ v = 13 ∨ v = 14 ∨ v = 15) as Hv by lia.
  repeat (destruct Hv as [->|Hv]); try subst v; eexists; split; reflexivity.
Qed.

Lemma toString16_variant r :
  0 <= r < 16 →
  ∃ d, toString16 (Z.lor (Z.land r 3) 8) = String d EmptyString ∧ isVariant d = true.
Proof.
  intros H.
  assert (r = 0 ∨ r = 1 ∨ r = 2 ∨ r = 3 ∨ r = 4 ∨ r = 5 ∨ r = 6 ∨ r = 7 ∨ r = 8
          ∨ r = 9 ∨ r = 10 ∨ r = 11 ∨ r = 12 ∨ r = 13 ∨ r = 14 ∨ r = 15) as Hr by lia.
  repeat (destruct Hr as [->|Hr]); try subst r; eexists; split; reflexivity.
Qed.

(** [replaceXY] reads one random value per [x] or [y], changes nothing
    else and does not throw; with random values in range, its result has
    the shape of the template. *)
Lemma replaceXY_run template w :
  ∃ u n, replaceXY template w = (Ok u, with_randomReads (Nat.add n) w)
         ∧ ((∀ k, 0 <= random w k < 16) → matchesTemplate template u = true).
Proof.
  revert w. induction template as [|c t IH]; intros w.
  - exists EmptyString, 0%nat. split; [|done]. unfold replaceXY, MNotations.ret.
    by destruct w.
  - cbn [replaceXY]. destruct (Ascii.eqb c "x") eqn:Ex; [|destruct (Ascii.eqb c "y") eqn:Ey]; simpl.
    + destruct (IH (with_randomReads S w)) as (u & n & Hrun & Hshape).
      exists (toString16 (random w (randomReads w)) +:+ u), (S n).
      unfold MNotations.bind, Math_random16, MNotations.ret.
      rewrite Hrun, with_randomReads_add. split; [done|]. intros Hrange.
      destruct (toString16_digit (random w (randomReads w)) (Hrange _)) as (d & -> & Hhex).
      change (String d EmptyString +:+ u) with (String d u).
      simpl. by rewrite Ex, Hhex, (Hshape Hrange).
    + destruct (IH (with_randomReads S w)) as (u & n & Hrun & Hshape).
      exists (toString16 (Z.lor (Z.land (random w (randomReads w)) 3) 8) +:+ u), (S n).
      unfold MNotations.bind, Math_random16, MNotations.ret.
      rewrite Hrun, with_randomReads_add. split; [done|]. intros Hrange.
      destruct (toString16_variant (random w (randomReads w)) (Hrange _)) as (d & -> & Hvar).
      change (String d EmptyString +:+ u) with (String d u).
      simpl. by rewrite Ex, Ey, Hvar, (Hshape Hrange).
    + destruct (IH w) as (u & n & Hrun & Hshape).
      exists (String c u), n. unfold MNotations.bind, MNotations.ret.
      rewrite Hrun. split; [done|]. intros Hrange.
      simpl. by rewrite Ex, Ey, Ascii.eqb_refl, (Hshape Hrange).
Qed.

Lemma isLowerHex_inClass d : isLowerHex d = true → Regex.inClass d = true.
Proof. destruct d as [[] [] [] [] [] [] [] []]; by vm_compute. Qed.

Lemma isVariant_inClass d : isVariant d = true → Regex.inClass d = true.
Proof. destruct d as [[] [] [] [] [] [] [] []]; by vm_compute. Qed.

(** Every character of a text of the shape of a UUID is in the class of
    the sid expression, and the text has 36 characters. *)
Lemma matchesTemplate_class t u :
  matchesTemplate t u = true →
  Regex.takeWhile
    (fun c => Ascii.eqb c "x" || Ascii.eqb c "y" || Regex.inClass c) t = t →
  Regex.takeWhile Regex.inClass u = u ∧ String.length u = String.length t.
Proof.
  revert u. induction t as [|c t IH]; intros [|d u] H Ht; try done.
  cbn [matchesTemplate] in H. apply andb_prop in H as [Hc Hrest].
  cbn [Regex.takeWhile] in Ht.
  destruct (Ascii.eqb c "x" || Ascii.eqb c "y" || Regex.inClass c) eqn:Eok; [|done].
  injection Ht as Ht. destruct (IH u Hrest Ht) as [Hu Hlen].
  assert (Regex.inClass d = true) as Hd.
  { destruct (Ascii.eqb c "x"); [by apply isLowerHex_inClass|].
    destruct (Ascii.eqb c "y"); [by apply isVariant_inClass|].
    apply Ascii.eqb_eq in Hc as <-. done. }
  cbn [Regex.takeWhile String.length]. by rewrite Hd, Hu, Hlen.
Qed.

Lemma matchesTemplate_uuid u :
  matchesTemplate uuidTemplate u = true →
  Regex.takeWhile Regex.inClass u = u ∧ Regex.isEmpty u = false
  ∧ String.length u = 36%nat.
Proof.
  intros H. destruct (matchesTemplate_class _ _ H eq_refl) as [Hu Hlen].
  split; [done|]. split; [|done]. by destruct u.
Qed.

Lemma generateUUID_run w :
  ∃ u n, generateUUID w = (Ok u, with_randomReads (Nat.add n) w)
         ∧ ((∀ k, 0 <= random w k < 16) → matchesTemplate uuidTemplate u = true).
Proof. apply replaceXY_run. Qed.

(** *** The sid expression on a value that has just gained a fragment *)

Lemma takeWhile_hash s : Regex.takeWhile Regex.inClass (String "#" s) = EmptyString.
Proof. reflexivity. Qed.

(** A match of [/#sid=([a-f0-9-]+)/i] at the start of [s ++ #sid=...]
    is a match at the start of [s] when [s] is not empty: the character
    [#] is neither a later character of the literal nor in the class. *)
Lemma matchHere_app s u :
  s ≠ EmptyString →
  Regex.matchHere "#sid=" "" s = None →
  Regex.matchHere "#sid=" "" (s +:+ "#sid=" +:+ u) = None.
Proof.
  intros Hs. unfold Regex.matchHere.
  destruct s as [|c1 s]; [done|]. clear Hs. simpl.
  destruct (Regex.eqCI c1 "#"); [|done].
  destruct s as [|c2 s]; [done|]. simpl.
  destruct (Regex.eqCI c2 "s"); [|done].
  destruct s as [|c3 s]; [done|]. simpl.
  destruct (Regex.eqCI c3 "i"); [|done].
  destruct s as [|c4 s]; [done|]. simpl.
  destruct (Regex.eqCI c4 "d"); [|done].
  destruct s as [|c5 s]; [done|]. simpl.
  destruct (Regex.eqCI c5 "="); [|done].
  destruct s as [|d s]; [done|]. simpl.
  by destruct (Regex.inClass d).
Qed.

Lemma capture_app v u :
  Regex.capture "#sid=" "" v = None →
  Regex.takeWhile Regex.inClass u = u → Regex.isEmpty u = false →
  Regex.capture "#sid=" "" (v +:+ "#sid=" +:+ u) = Some u.
Proof.
  intros Hv Hu Hne. induction v as [|c v IH].
  - change (EmptyString +:+ ?x) with x.
    unfold Regex.capture, Regex.matchHere. destruct u as [|d u]; [done|].
    simpl. simpl in Hu. by rewrite Hu.
  - cbn [Regex.capture] in Hv.
    destruct (Regex.matchHere "#sid=" "" (String c v)) eqn:Ehere; [done|].
    change (String c v +:+ ?x) with (String c (v +:+ x)).
    cbn [Regex.capture].
    change (String c (v +:+ ?x)) with (String c v +:+ x).
    rewrite matchHere_app by done. by apply IH.
Qed.

Lemma extractSid_appended v u :
  extractSidFromUrl v = None → matchesTemplate uuidTemplate u = true →
  extractSidFromUrl (v +:+ "#sid=" +:+ u) = Some u.
Proof.
  intros Hv (Hu & Hne & _)%matchesTemplate_uuid. by apply capture_app.
Qed.

End IdentityScheme.

(** ** The synchroniser *)

Section Synchroniser.

Import MNotations JSArray SingularityAPI Edited ObsidianLinkSync.

Lemma includes_app_r a p : includes (a +:+ p) p = true.
Proof.
  induction a as [|c a IH].
  - apply includes_startsWith, startsWith_refl.
  - by apply includes_cons.
Qed.

Lemma startsWith_length s p : startsWith s p = true → (String.length p <= String.length s)%nat.
Proof.
  revert s; induction p as [|c p IH]; intros [|d s]; simpl; try done; [lia|].
  intros [_ H]%andb_prop. apply IH in H. lia.
Qed.

Lemma lacks_hash_encoded c :
  lacks "#" (if Types.isUnreserved c then String c EmptyString else Types.percentEncode c)
  = true.
Proof. destruct c as [[] [] [] [] [] [] [] []]; by vm_compute. Qed.

Lemma lacks_hash_encodeURIComponent s : lacks "#" (Types.encodeURIComponent s) = true.
Proof.
  induction s as [|c s IH]; [done|].
  cbn [Types.encodeURIComponent]. by rewrite lacks_app, lacks_hash_encoded, IH.
Qed.

(** The URL of a note starts with the scheme and contains no [#]. *)
Lemma buildObsidianUrl_shape vault filePath :
  startsWith (Types.buildObsidianUrl vault filePath) "obsidian://" = true
  ∧ lacks "#" (Types.buildObsidianUrl vault filePath) = true.
Proof.
  unfold Types.buildObsidianUrl. split.
  - done.
  - by rewrite !lacks_app, !lacks_hash_encodeURIComponent.
Qed.

(** A link written by the editor carries its sid, and its base URL is the
    URL it was built from. *)
Lemma carriesSid_written txt a url sid :
  carriesSid (SID_FRAGMENT +:+ sid)
    {| Delta.insert := txt;
       Delta.attributes := Some (Delta.withLink a (url +:+ SID_FRAGMENT +:+ sid)) |} = true.
Proof.
  unfold carriesSid, Delta.linkOf, Delta.withLink. cbn [Delta.attributes Delta.link].
  apply includes_app_r.
Qed.

Lemma extractBaseUrl_written txt a url sid :
  startsWith url "obsidian://" = true → lacks "#" url = true →
  extractBaseUrl
    {| Delta.insert := txt;
       Delta.attributes := Some (Delta.withLink a (url +:+ SID_FRAGMENT +:+ sid)) |}
  = Some url.
Proof.
  intros Hscheme Hlacks. unfold extractBaseUrl, Delta.linkOf, Delta.withLink.
  cbn [Delta.attributes Delta.link].
  rewrite (startsWith_app _ _ _ Hscheme).
  change (url +:+ SID_FRAGMENT +:+ sid) with (url +:+ String "#" "sid=" +:+ sid).
  rewrite lacks_indexOf_app by done.
  apply startsWith_length in Hscheme. simpl in Hscheme.
  destruct (Z.gtb_spec (Z.of_nat (String.length url)) 0); [|lia].
  unfold substring0. by rewrite Nat2Z.id, firstChars_app_length.
Qed.

Lemma sameUrl_refl url : sameUrl (Some url) url = true.
Proof. apply String.eqb_refl. Qed.

(** *** The four outcomes of [resolveExisting] on an array of operations *)

Lemma resolve_synced ops t url sid i op :
  findObsidianLinkById ops sid = Some (i, op) →
  sameUrl (extractBaseUrl op) url = true →
  resolveExisting (Delta.VOps ops) t url sid = Ok None.
Proof. unfold resolveExisting. intros Hfind Hsame. by rewrite Hfind, Hsame. Qed.

Lemma resolve_renamed ops t url sid i op :
  findObsidianLinkById ops sid = Some (i, op) →
  sameUrl (extractBaseUrl op) url = false →
  resolveExisting (Delta.VOps ops) t url sid = Ok (Some (<[i := relinked op t url sid]> ops)).
Proof.
  unfold resolveExisting. intros Hfind Hsame. rewrite Hfind, Hsame, runOn_update.
  unfold updatedOps. by rewrite Hfind.
Qed.

Lemma isLegacyLink_link op :
  isLegacyLink op = true →
  ∃ l, truthyLink op = Some l ∧ Delta.linkOf op = Some l
       ∧ startsWith l "obsidian://" = true ∧ includes l SID_FRAGMENT = false.
Proof.
  unfold isLegacyLink, truthyLink. destruct (Delta.linkOf op) as [l|]; [|done].
  intros [Hs Hi%negb_true_iff]%andb_prop. exists l. by destruct l.
Qed.

Lemma resolve_legacy ops t url sid i op :
  findObsidianLinkById ops sid = None →
  findAnyObsidianLink ops = Some (i, op) →
  ∃ l, Delta.linkOf op = Some l ∧ startsWith l "obsidian://" = true
       ∧ includes l SID_FRAGMENT = false ∧ ops !! i = Some op
       ∧ resolveExisting (Delta.VOps ops) t url sid = Ok (Some (<[i := marked op l sid]> ops)).
Proof.
  intros Hnone Hany. unfold resolveExisting. rewrite Hnone, Hany.
  apply scanFrom_Some in Hany as (k & Hk & Hi & Hleg & _). simpl in Hk. subst k.
  destruct (isLegacyLink_link _ Hleg) as (l & Htruthy & Hl & Hs & Hinc).
  exists l. rewrite (runOn_addSid _ _ _ _ _ Hi Htruthy). by split_and!.
Qed.

Lemma resolve_new ops t url sid :
  findObsidianLinkById ops sid = None →
  findAnyObsidianLink ops = None →
  resolveExisting (Delta.VOps ops) t url sid = Ok (Some (appendedOps ops t url sid)).
Proof.
  intros Hnone Hany. unfold resolveExisting. rewrite Hnone, Hany, runOn_update.
  unfold updatedOps. by rewrite Hnone.
Qed.

Lemma getOrCreateSingularityId_cases url fieldName w :
  match url with
  | None => getOrCreateSingularityId url fieldName w = (Throw TypeError, w)
  | Some v =>
      match extractSidFromUrl v with
      | Some sid => getOrCreateSingularityId url fieldName w = (Ok sid, w)
      | None =>
          ∃ u n,
            ((∀ k, 0 <= random w k < 16) → matchesTemplate uuidTemplate u = true)
            ∧ getOrCreateSingularityId url fieldName w
              = if frontmatterWritable w
                then (Ok u, with_frontmatter (fun fm => appendSid fm fieldName u)
                              (with_randomReads (Nat.add n) w))
                else (Throw IOError, with_randomReads (Nat.add n) w)
      end
  end.
Proof.
  destruct url as [v|]; [|done]. unfold getOrCreateSingularityId.
  destruct (extractSidFromUrl v); [done|].
  destruct (generateUUID_run w) as (u & n & Hrun & Hshape).
  exists u, n. split; [done|].
  unfold MNotations.bind, addSidToFieldUrl, MNotations.ret. rewrite Hrun. simpl.
  by destruct (frontmatterWritable w).
Qed.

Lemma getOrCreateSingularityId_frame url fieldName w r w1 :
  getOrCreateSingularityId url fieldName w = (r, w1) → sameRemoteSide w w1.
Proof.
  pose proof (getOrCreateSingularityId_cases url fieldName w) as H.
  destruct url as [v|]; [|by rewrite H; intros [= <- <-]].
  destruct (extractSidFromUrl v); [by rewrite H; intros [= <- <-]|].
  destruct H as (u & n & _ & ->).
  by destruct (frontmatterWritable w); intros [= <- <-].
Qed.

(** One run of [syncObsidianUrl], once the identity scheme has produced
    the sid and the task has been fetched. *)
Lemma syncObsidianUrl_run taskId file fieldName w sid w1 task :
  getOrCreateSingularityId (lookupField (frontmatter w) fieldName) fieldName w = (Ok sid, w1) →
  Regex.isEmpty (token w) = false →
  task_of (remote w) taskId = Ok task →
  let url := Types.buildObsidianUrl (vaultName w) (path file) in
  let w2 := with_requests (fun l => l ++ [GetTask taskId]) w1 in
  syncObsidianUrl taskId file fieldName w
  = match Api.truthy (SingularityTask.note task) with
    | Some noteId =>
        let w3 := with_requests (fun l => l ++ [GetNote noteId]) w2 in
        match note_of (remote w) noteId with
        | Ok note =>
            match resolveExisting
                    (parseNoteContent (SingularityNote.content note))
                    (basename file) url sid with
            | Ok (Some deltaOps) => (Ok tt, written taskId deltaOps w3)
            | Ok None => (Ok tt, w3)
            | Throw e => (Throw e, w3)
            end
        | Throw e => (Throw e, w3)
        end
    | None =>
        (Ok tt, written taskId (createInitialDelta (basename file) url sid) w2)
    end.
Proof.
  intros Hid Htok Htask. cbv zeta.
  destruct (getOrCreateSingularityId_frame _ _ _ _ _ Hid) as (Hreq & Hrem & Htok1 & Hvault & Htc).
  unfold syncObsidianUrl.
  unfold MNotations.bind at 1, MNotations.gets at 1.
  unfold MNotations.bind at 1, getFieldValue, MNotations.gets at 1.
  unfold MNotations.bind at 1. rewrite Hid.
  unfold MNotations.bind at 1, Api.getTask, Api.request at 1.
  rewrite Htok1, Htok, Hrem, Htask.
  assert (Hpatch : ∀ d w', remote w' = remote w → Regex.isEmpty (token w') = false →
            (Api.updateTaskNote taskId d ;; TaskCacheState.invalidateTask taskId)%M w'
            = (Ok tt, written taskId d w')).
  { intros d w' Hr Ht. unfold MNotations.bind, Api.updateTaskNote, written.
    rewrite Ht, Hr. unfold Api.patched. rewrite Htask. done. }
  destruct (Api.truthy (SingularityTask.note task)) as [noteId|].
  - unfold MNotations.bind at 1. unfold MNotations.bind at 1, Api.getNote, Api.request at 1.
    cbn [token with_requests remote]. rewrite Htok1, Htok, Hrem.
    destruct (note_of (remote w) noteId) as [note|e]; [|done].
    unfold liftResult.
    destruct (resolveExisting _ _ _ _) as [[d|]|e]; [|done..].
    apply Hpatch; simpl; congruence.
  - unfold MNotations.bind at 1, MNotations.ret at 1.
    apply Hpatch; simpl; congruence.
Qed.

(** *** Reading back what a run has written *)

Lemma scanFrom_app hit i pre rest :
  Forall (fun op => hit op = false) pre →
  scanFrom hit i (pre ++ rest) = scanFrom hit (i + length pre) rest.
Proof.
  revert i. induction pre as [|o pre IH]; intros i H; simpl.
  - by rewrite Nat.add_0_r.
  - inversion H as [|? ? Ho Hpre]; subst. rewrite Ho, IH by done. f_equal. lia.
Qed.

Lemma Forall_removelast {A} (P : A → Prop) (l : list A) :
  Forall P l → Forall P (removelast l).
Proof. rewrite removelast_firstn_len. apply Forall_take. Qed.

Lemma resolve_written ops t url sid j txt a :
  goodUrl url →
  findObsidianLinkById ops sid
  = Some (j, {| Delta.insert := txt;
                Delta.attributes := Some (Delta.withLink a (url +:+ SID_FRAGMENT +:+ sid)) |}) →
  resolveExisting (Delta.VOps ops) t url sid = Ok None.
Proof.
  intros [Hs Hl] Hfind. eapply resolve_synced; [done|].
  by rewrite extractBaseUrl_written, sameUrl_refl.
Qed.

Lemma reread_renamed ops t url sid i op :
  goodUrl url → findObsidianLinkById ops sid = Some (i, op) →
  resolveExisting (Delta.VOps (<[i := relinked op t url sid]> ops)) t url sid = Ok None.
Proof.
  intros Hurl Hfind. eapply resolve_written; [done|].
  apply scanFrom_insert with (op := op); [done|apply carriesSid_written].
Qed.


Lemma scanFrom_hit hit i op rest :
  hit op = true → scanFrom hit i (op :: rest) = Some (i, op).
Proof. simpl. by intros ->. Qed.

Lemma scanFrom_miss hit i op rest :
  hit op = false → scanFrom hit i (op :: rest) = scanFrom hit (S i) rest.
Proof. simpl. by intros ->. Qed.

Lemma createNoteLinkOps_eq t url sid :
  createNoteLinkOps t url sid
  = [ {| Delta.insert := linkText t;
         Delta.attributes := Some (Delta.withLink None (url +:+ SID_FRAGMENT +:+ sid)) |};
      Delta.newline ].
Proof. reflexivity. Qed.



(** *** Two runs in succession *)

Lemma lookupField_appendSid fm fieldName sid v :
  lookupField fm fieldName = Some v →
  lookupField (appendSid fm fieldName sid) fieldName
  = Some (if includes v "#sid=" then v else v +:+ "#sid=" +:+ sid).
Proof.
  induction fm as [|[k x] fm IH]; [done|]. simpl.
  destruct (String.eqb k fieldName) eqn:E; simpl; rewrite E; [by intros [= ->]|done].
Qed.




Lemma writes_sent w w' more :
  requests w' = requests w ++ more → List.filter isWrite more = [] → writes w' = writes w.
Proof. unfold writes. intros -> H. by rewrite List.filter_app, H, app_nil_r. Qed.



Lemma syncObsidianUrl_guard taskId file fieldName w sid w1 task noteId note ops i op :
  getOrCreateSingularityId (lookupField (frontmatter w) fieldName) fieldName w
  = (Ok sid, w1) →
  Regex.isEmpty (token w) = false →
  task_of (remote w) taskId = Ok task →
  Api.truthy (SingularityTask.note task) = Some noteId →
  note_of (remote w) noteId = Ok note →
  parseNoteContent (SingularityNote.content note) = Delta.VOps ops →
  findObsidianLinkById ops sid = Some (i, op) →
  extractBaseUrl op = Some (Types.buildObsidianUrl (vaultName w) (path file)) →
  ∃ w', syncObsidianUrl taskId file fieldName w = (Ok tt, w')
        ∧ sentBetween w w' = [GetTask taskId; GetNote noteId]
        ∧ writes w' = writes w ∧ remote w' = remote w
        ∧ frontmatter w' = frontmatter w1 ∧ token w' = token w
        ∧ vaultName w' = vaultName w.
Proof.
  intros Hid Htok Htask Hnote Hn Hparse Hfind Hbase.
  destruct (getOrCreateSingularityId_frame _ _ _ _ _ Hid) as (Hreq & Hrem & Htok1 & Hvault & _).
  rewrite (syncObsidianUrl_run _ _ _ _ _ _ _ Hid Htok Htask). cbv zeta.
  rewrite Hnote, Hn, Hparse.
  rewrite (resolve_synced _ _ _ _ _ _ Hfind) by (by rewrite Hbase, sameUrl_refl).
  eexists. split; [done|].
  assert (Hsent : requests (with_requests (fun l => l ++ [GetNote noteId])
                              (with_requests (fun l => l ++ [GetTask taskId]) w1))
                  = requests w ++ [GetTask taskId; GetNote noteId])
    by (simpl; by rewrite Hreq, <- app_assoc).
  split; [by apply sentBetween_app|]. split; [by eapply writes_sent|]. by split_and!.
Qed.




Lemma synced_upToDate : upToDate Sample.synced Sample.file "T-1" "task".
Proof.
   exists (Sample.reference +:+ "#sid=ab12"), "ab12", (Sample.task (Some "N-T-1") 0), "N-T-1",
           (Sample.noteOf (Delta.JSON_stringify Sample.syncedBody)), Sample.syncedBody,
           0%nat, (Sample.linkOp Sample.titled (Sample.noteUrl +:+ "#sid=ab12")).
    split_and!; vm_compute; reflexivity.
Qed.



Lemma sent_three w1 w a b c :
  requests w1 = requests w →
  sentBetween w
    (with_requests (fun l => l ++ [c])
       (with_requests (fun l => l ++ [b]) (with_requests (fun l => l ++ [a]) w1)))
  = [a; b; c].
Proof. intros H. apply sentBetween_app. simpl. by rewrite H, <- !app_assoc. Qed.

(** C5 — Legacy migration: when no operation of the body carries the sid
    of the reference and exactly one operation is a link of the
    [obsidian://] scheme without [#sid=], the run sends one write, whose
    body has the length of the old one, holds at the position of that link
    the same text with the link value followed by [#sid=<sid>] (the other
    attributes kept), and holds every other operation where it was. *)
Theorem legacy_link_migrated
    (taskId : string) (file : TFile) (fieldName : string) (w : World)
    (sid : string) (w1 : World) (task : SingularityTask.t) (noteId : string)
    (note : SingularityNote.t) (ops : list Delta.Op) (i : nat) (op : Delta.Op)
    (l : string) :
  getOrCreateSingularityId (lookupField (frontmatter w) fieldName) fieldName w
  = (Ok sid, w1) →
  Regex.isEmpty (token w) = false →
  task_of (remote w) taskId = Ok task →
  Api.truthy (SingularityTask.note task) = Some noteId →
  note_of (remote w) noteId = Ok note →
  parseNoteContent (SingularityNote.content note) = Delta.VOps ops →
  Forall (fun o => carriesSid (SID_FRAGMENT +:+ sid) o = false) ops →
  ops !! i = Some op →
  Delta.linkOf op = Some l →
  startsWith l "obsidian://" = true →
  includes l "#sid=" = false →
  (∀ j o l', ops !! j = Some o → Delta.linkOf o = Some l' →
             startsWith l' "obsidian://" = true → includes l' "#sid=" = false → j = i) →
  ∃ ops' w',
    syncObsidianUrl taskId file fieldName w = (Ok tt, w')
    ∧ sentBetween w w' = [GetTask taskId; GetNote noteId; PatchTaskNote taskId ops']
    ∧ length ops' = length ops
    ∧ ops' !! i
      = Some {| Delta.insert := Delta.insert op;
                Delta.attributes :=
                  Some (Delta.withLink (Delta.attributes op) (l +:+ "#sid=" +:+ sid)) |}
    ∧ ∀ j, j ≠ i → ops' !! j = ops !! j.
Proof.
  intros Hid Htok Htask Hnote Hn Hparse Hnone%findObsidianLinkById_None Hi Hl Hs Hinc Huniq.
  assert (Hany : findAnyObsidianLink ops = Some (i, op)).
  { apply scanFrom_Some. exists i. split; [done|]. split; [done|]. split.
    - unfold isLegacyLink, SID_FRAGMENT. by rewrite Hl, Hs, Hinc.
    - apply Forall_forall. intros o Ho.
      apply list_elem_of_lookup in Ho as [j Hj].
      apply lookup_take_Some in Hj as [Hj Hlt].
      destruct (isLegacyLink o) eqn:Hleg; [|done].
      destruct (isLegacyLink_link _ Hleg) as (l' & _ & Hl' & Hs' & Hinc').
      specialize (Huniq j o l' Hj Hl' Hs' Hinc'). lia. }
  destruct (resolve_legacy _ (basename file)
              (Types.buildObsidianUrl (vaultName w) (path file)) _ _ _ Hnone Hany)
    as (l0 & Hl0 & _ & _ & _ & Hres).
  rewrite Hl in Hl0. injection Hl0 as <-.
  destruct (getOrCreateSingularityId_frame _ _ _ _ _ Hid) as (Hreq & _).
  rewrite (syncObsidianUrl_run _ _ _ _ _ _ _ Hid Htok Htask). cbv zeta.
  rewrite Hnote, Hn, Hparse, Hres.
  exists (<[i := marked op l sid]> ops). eexists. split; [done|].
  split; [by apply sent_three|]. split; [by rewrite length_insert|]. split.
  - apply list_lookup_insert_eq. by eapply lookup_lt_Some.
  - intros j Hj. by apply list_lookup_insert_ne.
Qed.

Lemma legacy_link_migrated_witness :
  ∃ w',
    syncObsidianUrl "T-1" Sample.file "task" Sample.legacy = (Ok tt, w')
    ∧ sentBetween Sample.legacy w'
      = [GetTask "T-1"; GetNote "N-T-1";
         PatchTaskNote "T-1"
           [Sample.linkOp "Old" "obsidian://open?vault=V&file=Old.md#sid=ab12";
            Delta.newline]].
Proof.
  destruct (legacy_link_migrated "T-1" Sample.file "task" Sample.legacy "ab12" Sample.legacy
              (Sample.task (Some "N-T-1") 0) "N-T-1"
              (Sample.noteOf (Delta.JSON_stringify Sample.legacyBody)) Sample.legacyBody
              0%nat (Sample.linkOp "Old" "obsidian://open?vault=V&file=Old.md")
              "obsidian://open?vault=V&file=Old.md")
    as (ops' & w' & Hrun & Hsent & Hlen & Hnew & Hother).
  - reflexivity.
  - vm_compute; reflexivity.
  - vm_compute; reflexivity.
  - vm_compute; reflexivity.
  - vm_compute; reflexivity.
  - vm_compute; reflexivity.
  - repeat constructor.
  - vm_compute; reflexivity.
  - vm_compute; reflexivity.
  - vm_compute; reflexivity.
  - vm_compute; reflexivity.
  - intros [|[|[|j]]] o l' Hj Hl'; try done.
    vm_compute in Hj. injection Hj as <-. discriminate Hl'.
  - exists w'. split; [exact Hrun|]. rewrite Hsent. f_equal. f_equal. f_equal.
    destruct ops' as [|a [|b [|c ops']]]; try discriminate Hlen.
    specialize (Hother 1%nat ltac:(done)). simpl in Hother, Hnew.
    injection Hother as ->. by injection Hnew as ->.
Defined.

(** C7 (amended) — A body that is not JSON: [parseNoteContent] yields the
    empty sequence, and the run for the reference does not reject; it
    writes a body made of the new identified link and a line terminator. *)
Theorem malformed_body_appends
    (taskId : string) (file : TFile) (fieldName : string) (w : World)
    (sid : string) (w1 : World) (task : SingularityTask.t) (noteId : string)
    (note : SingularityNote.t) (raw : string) :
  getOrCreateSingularityId (lookupField (frontmatter w) fieldName) fieldName w
  = (Ok sid, w1) →
  Regex.isEmpty (token w) = false →
  task_of (remote w) taskId = Ok task →
  Api.truthy (SingularityTask.note task) = Some noteId →
  note_of (remote w) noteId = Ok note →
  SingularityNote.content note = Delta.Malformed raw →
  parseNoteContent (SingularityNote.content note) = Delta.VOps []
  ∧ ∃ w',
      syncObsidianUrl taskId file fieldName w = (Ok tt, w')
      ∧ sentBetween w w'
        = [GetTask taskId; GetNote noteId;
           PatchTaskNote taskId
             [ {| Delta.insert := "Obsidian: " +:+ Delta.DQUOTE +:+ basename file
                                  +:+ Delta.DQUOTE;
                  Delta.attributes :=
                    Some {| Delta.link :=
                              Some (Types.buildObsidianUrl (vaultName w) (path file)
                                    +:+ "#sid=" +:+ sid);
                            Delta.formats := [] |} |};
               Delta.newline ]].
Proof.
  intros Hid Htok Htask Hnote Hn Hraw.
  assert (Hparse : parseNoteContent (SingularityNote.content note) = Delta.VOps [])
    by (by rewrite Hraw).
  split; [done|].
  destruct (getOrCreateSingularityId_frame _ _ _ _ _ Hid) as (Hreq & _).
  rewrite (syncObsidianUrl_run _ _ _ _ _ _ _ Hid Htok Htask). cbv zeta.
  rewrite Hnote, Hn, Hparse.
  rewrite (resolve_new [] _ _ _ eq_refl eq_refl).
  eexists. split; [done|]. by apply sent_three.
Qed.

Lemma malformed_body_appends_witness :
  ∃ w',
    syncObsidianUrl "T-1" Sample.file "task" Sample.malformed = (Ok tt, w')
    ∧ sentBetween Sample.malformed w'
      = [GetTask "T-1"; GetNote "N-T-1";
         PatchTaskNote "T-1"
           [Sample.linkOp Sample.titled (Sample.noteUrl +:+ "#sid=ab12"); Delta.newline]].
Proof.
  destruct (malformed_body_appends "T-1" Sample.file "task" Sample.malformed "ab12"
              Sample.malformed (Sample.task (Some "N-T-1") 0) "N-T-1"
              (Sample.noteOf (Delta.Malformed "{not json")) "{not json")
    as (_ & w' & Hrun & Hsent).
  - reflexivity.
  - vm_compute; reflexivity.
  - vm_compute; reflexivity.
  - vm_compute; reflexivity.
  - vm_compute; reflexivity.
  - reflexivity.
  - exists w'. split; [exact Hrun|exact Hsent].
Defined.

(** C7, as stated, fails: the JSON text [null] is not an operation
    sequence, yet [parseNoteContent] returns the value [null] for it, not
    the empty sequence, and the run for the reference rejects with a
    [TypeError] after its two reads, without writing. *)
Lemma malformed_body_counterexample :
  (∀ ops, Delta.JSON_parse (Delta.Denotes Delta.VNull) ≠ Ok (Delta.VOps ops))
  ∧ parseNoteContent (Delta.Denotes Delta.VNull) = Delta.VNull
  ∧ parseNoteContent (Delta.Denotes Delta.VNull) ≠ Delta.VOps []
  ∧ fst (syncObsidianUrl "T-1" Sample.file "task" Sample.nullBody) = Throw TypeError
  ∧ sentBetween Sample.nullBody (snd (syncObsidianUrl "T-1" Sample.file "task" Sample.nullBody))
    = [GetTask "T-1"; GetNote "N-T-1"].
Proof. split_and!; by vm_compute. Qed.

End Synchroniser.

(** ** The properties of the cache on the sample store *)

Section CacheExamples.

Import TaskCache.

Lemma status_precedence_witness :
  (∃ td, fst (getTaskData Sample.locales "T-1" Sample.cancelled) = Ok td
         ∧ TaskData.status td
           = Some {| Status.id := "CANCELLED"; Status.name := "Cancelled" |})
  ∧ (∃ td, fst (getTaskData Sample.locales "T-1" Sample.placed) = Ok td
           ∧ TaskData.status td
             = Some {| Status.id := "KS-7"; Status.name := "Review" |})
  ∧ (∃ td, fst (TaskCacheEarlier.getTaskData "T-1" Sample.placed) = Ok td
           ∧ TaskData.status td
             = Some {| Status.id := "KS-7"; Status.name := "Review" |}).
Proof.
  split; [|split].
  - destruct (status_precedence Sample.locales "T-1" Sample.cancelled) as [H _].
    assert (Hsent : sentBetween Sample.cancelled
                      (snd (getTaskData Sample.locales "T-1" Sample.cancelled))
                    = [GetTask "T-1"; GetTaskKanbanStatus "T-1"; GetKanbanStatuses "P-1";
                       GetTags]) by (vm_compute; reflexivity).
    destruct (getTaskData Sample.locales "T-1" Sample.cancelled) as [r w'].
    simpl in Hsent. rewrite Hsent in H.
    destruct H as (td & task & assignment & statuses & -> & Htask & _ & _ & Hflag & _ & Hc & _).
    + done.
    + vm_compute; reflexivity.
    + exists td. split; [reflexivity|]. rewrite Hc; [reflexivity|].
      vm_compute in Htask. injection Htask as <-. exact Hflag.
  - destruct (status_precedence Sample.locales "T-1" Sample.placed) as [H _].
    assert (Hsent : sentBetween Sample.placed
                      (snd (getTaskData Sample.locales "T-1" Sample.placed))
                    = [GetTask "T-1"; GetTaskKanbanStatus "T-1"; GetKanbanStatuses "P-1";
                       GetTags]) by (vm_compute; reflexivity).
    assert (Hboard : CacheEntry.data
                       <$> kanbanCache (snd (getTaskData Sample.locales "T-1" Sample.placed))
                           !! "P-1"
                     = Some Sample.board) by (vm_compute; reflexivity).
    destruct (getTaskData Sample.locales "T-1" Sample.placed) as [r w'].
    simpl in Hsent. cbn [snd] in Hboard. rewrite Hsent in H.
    destruct H as (td & task & assignment & statuses & -> & Htask & Hplaced & Hstatuses
                   & Hcancelled & Hcompleted & _ & _ & Hassigned & _).
    + done.
    + vm_compute; reflexivity.
    + vm_compute in Htask. injection Htask as <-.
      vm_compute in Hplaced. injection Hplaced as <-.
      assert (statuses = Sample.board) as ->.
      { apply (inj Some). rewrite <- Hstatuses, <- Hboard. reflexivity. }
      exists td. split; [reflexivity|].
      rewrite (Hassigned Hcancelled Hcompleted _ _ eq_refl). reflexivity.
  - destruct (status_precedence Sample.locales "T-1" Sample.placed) as [_ H].
    assert (Hsent : sentBetween Sample.placed
                      (snd (TaskCacheEarlier.getTaskData "T-1" Sample.placed))
                    = [GetTask "T-1"; GetTaskKanbanStatus "T-1"; GetKanbanStatuses "P-1";
                       GetTags]) by (vm_compute; reflexivity).
    assert (Hboard : CacheEntry.data
                       <$> kanbanCache (snd (TaskCacheEarlier.getTaskData "T-1" Sample.placed))
                           !! "P-1"
                     = Some Sample.board) by (vm_compute; reflexivity).
    destruct (TaskCacheEarlier.getTaskData "T-1" Sample.placed) as [r w'].
    simpl in Hsent. cbn [snd] in Hboard. rewrite Hsent in H.
    destruct H as (td & task & assignment & statuses & -> & Htask & Hplaced & Hstatuses
                   & Hcancelled & Hcompleted & _ & _ & Hassigned & _).
    + done.
    + vm_compute; reflexivity.
    + vm_compute in Htask. injection Htask as <-.
      vm_compute in Hplaced. injection Hplaced as <-.
      assert (statuses = Sample.board) as ->.
      { apply (inj Some). rewrite <- Hstatuses, <- Hboard. reflexivity. }
      exists td. split; [reflexivity|].
      rewrite (Hassigned Hcancelled Hcompleted _ _ eq_refl). reflexivity.
Defined.

(** C2, as stated, fails in the earlier copy of the cache, which the claim
    cites: a completed task without assignment, in a project whose status
    set has an entry with an identifier ending with [-DONE], is given that
    entry, not the fixed done label.  The current copy gives the label. *)
Lemma status_precedence_counterexample :
  task_of (remote Sample.completed) "T-1" = Ok (Sample.task None 1)
  ∧ kanbanStatuses_of (remote Sample.completed) "P-1" = Ok Sample.shipping
  ∧ fst (TaskCacheEarlier.getTaskData "T-1" Sample.completed)
    = Ok {| TaskData.id := "T-1"; TaskData.title := "Write the plan";
            TaskData.projectId := "P-1";
            TaskData.status :=
              Some {| Status.id := "KS-P-1-DONE"; Status.name := "Shipped" |};
            TaskData.tags := []; TaskData.noteId := None;
            TaskData.isCompleted := true; TaskData.isCancelled := false |}
  ∧ sentBetween Sample.completed (snd (TaskCacheEarlier.getTaskData "T-1" Sample.completed))
    = [GetTask "T-1"; GetTaskKanbanStatus "T-1"; GetKanbanStatuses "P-1"; GetTags]
  ∧ TaskData.status <$> match fst (getTaskData Sample.locales "T-1" Sample.completed) with
                        | Ok td => Some td
                        | Throw _ => None
                        end
    = Some (Some {| Status.id := "DONE"; Status.name := "Done" |}).
Proof. split_and!; by vm_compute. Qed.

Lemma unresolved_status_is_null_witness :
  ∃ td, fst (getTaskData Sample.locales "T-1" Sample.misplaced) = Ok td
        ∧ TaskData.status td = None.
Proof.
  pose proof (unresolved_status_is_null Sample.locales "T-1" Sample.misplaced) as H.
  assert (Hsent : sentBetween Sample.misplaced
                    (snd (getTaskData Sample.locales "T-1" Sample.misplaced))
                  = [GetTask "T-1"; GetTaskKanbanStatus "T-1"; GetKanbanStatuses "P-1";
                     GetTags]) by (vm_compute; reflexivity).
  assert (Hboard : CacheEntry.data
                     <$> kanbanCache (snd (getTaskData Sample.locales "T-1" Sample.misplaced))
                         !! "P-1"
                   = Some Sample.board) by (vm_compute; reflexivity).
  destruct (getTaskData Sample.locales "T-1" Sample.misplaced) as [r w'].
  simpl in Hsent, Hboard. rewrite Hsent in H.
  destruct H as (td & task & assignment & statuses & -> & Htask & Hassign & Hstatuses
                 & Hcancelled & Hcompleted & Hnull).
  - done.
  - vm_compute; reflexivity.
  - exists td. split; [reflexivity|].
    vm_compute in Htask. injection Htask as <-.
    vm_compute in Hassign. injection Hassign as <-.
    simpl in Hstatuses. rewrite Hboard in Hstatuses. injection Hstatuses as <-.
    destruct (Hnull Hcancelled Hcompleted) as [Hmissing _].
    eapply Hmissing; [reflexivity|]. repeat constructor; discriminate.
Defined.

Lemma getTaskData_atomic_witness :
  fst (getTaskData Sample.locales "T-1" Sample.tagsDown) = Throw (ApiError 503)
  ∧ taskCache (snd (getTaskData Sample.locales "T-1" Sample.tagsDown))
    = taskCache Sample.tagsDown.
Proof.
  pose proof (getTaskData_atomic Sample.locales "T-1" Sample.tagsDown) as H.
  assert (Hsent : sentBetween Sample.tagsDown
                    (snd (getTaskData Sample.locales "T-1" Sample.tagsDown))
                  = [GetTask "T-1"; GetTaskKanbanStatus "T-1"; GetKanbanStatuses "P-1";
                     GetTags]) by (vm_compute; reflexivity).
  assert (Hfst : fst (getTaskData Sample.locales "T-1" Sample.tagsDown)
                 = Throw (ApiError 503)) by (vm_compute; reflexivity).
  destruct (getTaskData Sample.locales "T-1" Sample.tagsDown) as [r w'].
  simpl in Hsent, Hfst. rewrite Hsent in H. destruct H as [_ H].
  split; [exact Hfst|]. apply H. vm_compute; reflexivity.
Defined.

Lemma cache_expiry_boundary_witness :
  (getTaskData Sample.locales "T-1" Sample.atTTL
   = (Ok Sample.record, with_clockReads S Sample.atTTL)
   ∧ requests (with_clockReads S Sample.atTTL) = requests Sample.atTTL)
  ∧ (∃ more, requests (snd (getTaskData Sample.locales "T-1" Sample.pastTTL))
             = requests Sample.pastTTL ++ GetTask "T-1" :: more)
  ∧ getKanbanStatuses "P-1" Sample.atTTL = (Ok Sample.board, with_clockReads S Sample.atTTL)
  ∧ requests (snd (getKanbanStatuses "P-1" Sample.pastTTL))
    = requests Sample.pastTTL ++ [GetKanbanStatuses "P-1"]
  ∧ getTags Sample.atTTL = (Ok [], with_clockReads S Sample.atTTL)
  ∧ requests (snd (getTags Sample.pastTTL)) = requests Sample.pastTTL ++ [GetTags].
Proof.
  destruct (cache_expiry_boundary Sample.locales Sample.atTTL)
    as ((Hsame & _) & Htask & Hkanban & Htags).
  destruct (cache_expiry_boundary Sample.locales Sample.pastTTL)
    as (_ & Htask' & Hkanban' & Htags').
  split_and!.
  - eapply (proj1 (Htask "T-1" _ ltac:(vm_compute; reflexivity))). simpl. lia.
  - exact Hsame.
  - eapply (proj2 (Htask' "T-1" _ ltac:(vm_compute; reflexivity))); [simpl; lia|reflexivity].
  - eapply (proj1 (Hkanban "P-1" _ ltac:(vm_compute; reflexivity))). simpl. lia.
  - eapply (proj2 (Hkanban' "P-1" _ ltac:(vm_compute; reflexivity))); [simpl; lia|reflexivity].
  - eapply (proj1 (Htags _ ltac:(vm_compute; reflexivity))). simpl. lia.
  - eapply (proj2 (Htags' _ ltac:(vm_compute; reflexivity))); [simpl; lia|reflexivity].
Defined.

End CacheExamples.

(** ** The identity scheme: what holds, and where it breaks *)

Section IdentityClaims.

Import MNotations ObsidianLinkSync.

(** The identity scheme on a field value that matches the sid expression,
    and on one that includes no [#sid=]: the captured identifier is
    returned and nothing changes; or an identifier of the shape of a
    version-4 UUID is generated, appended to the stored value after
    [#sid=], and returned, and every later call reads it back from the
    field.  When the write is refused the call rejects and the field is
    left as it was. *)
Lemma identity_stable (fieldName url : string) (w : World) :
  (∀ sid, extractSidFromUrl url = Some sid →
          getOrCreateSingularityId (Some url) fieldName w = (Ok sid, w))
  ∧ (extractSidFromUrl url = None → includes url "#sid=" = false →
     lookupField (frontmatter w) fieldName = Some url →
     frontmatterWritable w = true →
     (∀ k, 0 <= random w k < 16) →
     ∃ u w',
       getOrCreateSingularityId (Some url) fieldName w = (Ok u, w')
       ∧ matchesTemplate uuidTemplate u = true
       ∧ lookupField (frontmatter w') fieldName = Some (url +:+ "#sid=" +:+ u)
       ∧ ∀ w'', frontmatter w'' = frontmatter w' →
                getOrCreateSingularityId (lookupField (frontmatter w'') fieldName)
                  fieldName w'' = (Ok u, w''))
  ∧ (extractSidFromUrl url = None → frontmatterWritable w = false →
     ∃ e w', getOrCreateSingularityId (Some url) fieldName w = (Throw e, w')
             ∧ frontmatter w' = frontmatter w).
Proof.
  pose proof (getOrCreateSingularityId_cases (Some url) fieldName w) as H. cbv beta iota in H.
  split; [|split].
  - intros sid Hsid. by rewrite Hsid in H.
  - intros Hnone Hinc Hfield Hwritable Hrange. rewrite Hnone in H.
    destruct H as (u & n & Hshape & Hrun). rewrite Hwritable in Hrun.
    exists u. eexists. split; [exact Hrun|]. split; [by apply Hshape|].
    assert (Hstored : lookupField
                        (frontmatter
                           (with_frontmatter (fun fm => appendSid fm fieldName u)
                              (with_randomReads (Nat.add n) w))) fieldName
                      = Some (url +:+ "#sid=" +:+ u)).
    { cbn [frontmatter with_frontmatter with_randomReads].
      by rewrite (lookupField_appendSid _ _ _ _ Hfield), Hinc. }
    split; [exact Hstored|].
    intros w'' Hfm. rewrite Hfm, Hstored. unfold getOrCreateSingularityId.
    by rewrite extractSid_appended by auto.
  - intros Hnone Hwritable. rewrite Hnone in H.
    destruct H as (u & n & _ & Hrun). rewrite Hwritable in Hrun.
    by eexists _, _.
Qed.

(** C6 — Identity stability is broken by a field value that includes
    [#sid=] without an identifier after it (here the value ends with
    [#sid=]): the sid expression does not match, so an identifier is
    generated; the write to the front matter succeeds but leaves the value
    as it is, because the value includes [#sid=]; the next call therefore
    generates another identifier. *)
Theorem identity_unstable_on_empty_sid :
  lookupField (frontmatter Sample.emptySid) "task"
  = Some "singularityapp://?&page=any&id=T-1#sid="
  ∧ frontmatterWritable Sample.emptySid = true
  ∧ fst (getOrCreateSingularityId (lookupField (frontmatter Sample.emptySid) "task")
           "task" Sample.emptySid)
    = Ok "01234567-89ab-4cde-b012-3456789abcde"
  ∧ frontmatter
      (snd (getOrCreateSingularityId (lookupField (frontmatter Sample.emptySid) "task")
              "task" Sample.emptySid))
    = frontmatter Sample.emptySid
  ∧ fst (getOrCreateSingularityId (lookupField (frontmatter Sample.emptySid) "task") "task"
           (snd (getOrCreateSingularityId (lookupField (frontmatter Sample.emptySid) "task")
                   "task" Sample.emptySid)))
    = Ok "f0123456-789a-4bcd-af01-23456789abcd".
Proof. split_and!; by vm_compute. Qed.

End IdentityClaims.

(** ** The earlier copy of the cache *)

Section EarlierCopy.

(** The two copies resolve the status of a task that is not completed in
    the same way, up to the label of a cancelled task. *)
Lemma earlier_copy_agrees locale checked assignment statuses :
  checked ≠ 1 → checked ≠ 2 →
  TaskCacheEarlier.determineStatus checked assignment statuses
  = TaskCache.determineStatus locale checked assignment statuses.
Proof.
  intros H1 H2. unfold TaskCacheEarlier.determineStatus, TaskCache.determineStatus.
  destruct (Z.eqb_spec checked 2); [done|]. by destruct (Z.eqb_spec checked 1).
Qed.

(** For a completed task the earlier copy prefers the [-DONE] entry of the
    project; the current one always gives the fixed label. *)
Lemma earlier_copy_differs :
  let statuses := [ {| KanbanStatus.id := "KS-P-1-DONE"; KanbanStatus.name := "Shipped";
                       KanbanStatus.kanbanOrder := 2 |} ] in
  TaskCacheEarlier.determineStatus 1 [] statuses
  = Some {| Status.id := "KS-P-1-DONE"; Status.name := "Shipped" |}
  ∧ TaskCache.determineStatus (Sample.locales en) 1 [] statuses
    = Some {| Status.id := "DONE"; Status.name := "Done" |}.
Proof. by vm_compute. Qed.

End EarlierCopy.

(** * Further properties of the sources *)


(** ** The two expressions that read identifiers *)


Section RegexFacts.

Lemma eqCI_refl c : Regex.eqCI c c = true.
Proof. apply Ascii.eqb_refl. Qed.

Lemma eqCI_hash c : Regex.eqCI "#" c = Ascii.eqb "#" c.
Proof. destruct c as [[] [] [] [] [] [] [] []]; reflexivity. Qed.

Lemma afterLiteral_app_self lit t : Regex.afterLiteral (lit +:+ t) lit = Some t.
Proof. induction lit as [|c lit IH]; simpl; [done|]. by rewrite eqCI_refl. Qed.

Lemma afterLiteral_app s lit s1 x :
  Regex.afterLiteral s lit = Some s1 → Regex.afterLiteral (s +:+ x) lit = Some (s1 +:+ x).
Proof.
  revert s. induction lit as [|c lit IH]; intros [|d s]; simpl; try done.
  - by intros [= <-].
  - by intros [= <-].
  - destruct (Regex.eqCI d c); [apply IH|done].
Qed.

Lemma afterLiteral_hash s lit t :
  lacks "#" lit = true →
  Regex.afterLiteral s lit = None → Regex.afterLiteral (s +:+ String "#" t) lit = None.
Proof.
  revert s. induction lit as [|c lit IH]; intros [|d s]; simpl; try done.
  - intros [Hc _]%andb_prop _. rewrite eqCI_hash.
    apply negb_true_iff in Hc. rewrite Ascii.eqb_sym. by rewrite Hc.
  - intros [_ Hlit]%andb_prop. destruct (Regex.eqCI d c); [by apply IH|done].
Qed.

(** The part of [s1] that a literal has matched is kept when text follows. *)
Lemma afterLiteral_firstChars s1 grp s2 x :
  Regex.afterLiteral s1 grp = Some s2 →
  firstChars (String.length grp) (s1 +:+ x) = firstChars (String.length grp) s1
  ∧ Regex.afterLiteral (firstChars (String.length grp) s1 +:+ x) grp = Some x.
Proof.
  revert s1. induction grp as [|c grp IH]; intros [|d s1]; simpl; try done.
  destruct (Regex.eqCI d c) eqn:E; [|done]. intros H.
  destruct (IH _ H) as [IH1 IH2]. split; [by rewrite IH1|].
  exact IH2.
Qed.

Lemma afterLiteral_length s p s' :
  Regex.afterLiteral s p = Some s' →
  String.length (firstChars (String.length p) s) = String.length p.
Proof.
  revert s. induction p as [|c p IH]; intros [|d s]; simpl; try done.
  destruct (Regex.eqCI d c); [|done]. intros H. by rewrite (IH _ H).
Qed.

Lemma takeWhile_idem P s : Regex.takeWhile P (Regex.takeWhile P s) = Regex.takeWhile P s.
Proof.
  induction s as [|c s IH]; simpl; [done|].
  destruct (P c) eqn:E; simpl; [|done]. by rewrite E, IH.
Qed.

Lemma takeWhile_app_stop P a d t :
  P d = false → Regex.takeWhile P (a +:+ String d t) = Regex.takeWhile P a.
Proof.
  intros Hd. induction a as [|c a IH]; simpl; [by rewrite Hd|].
  destruct (P c); [by rewrite IH|done].
Qed.

Lemma matchHere_inv lit grp s g :
  Regex.matchHere lit grp s = Some g →
  ∃ s1 s2, Regex.afterLiteral s lit = Some s1 ∧ Regex.afterLiteral s1 grp = Some s2
           ∧ Regex.isEmpty (Regex.takeWhile Regex.inClass s2) = false
           ∧ g = firstChars (String.length grp) s1 +:+ Regex.takeWhile Regex.inClass s2.
Proof.
  unfold Regex.matchHere.
  destruct (Regex.afterLiteral s lit) as [s1|] eqn:E1; [|done].
  destruct (Regex.afterLiteral s1 grp) as [s2|] eqn:E2; [|done].
  destruct (Regex.isEmpty _) eqn:E; [done|]. intros [= <-]. by exists s1, s2.
Qed.

Lemma capture_inv lit grp s g :
  Regex.capture lit grp s = Some g →
  ∃ pre rest, s = pre +:+ rest ∧ Regex.matchHere lit grp rest = Some g.
Proof.
  induction s as [|c s IH]; cbn [Regex.capture].
  - destruct (Regex.matchHere lit grp "") eqn:E; [|done].
    intros [= <-]. by exists EmptyString, EmptyString.
  - destruct (Regex.matchHere lit grp (String c s)) eqn:E.
    + intros [= <-]. by exists EmptyString, (String c s).
    + intros (pre & rest & -> & H)%IH. by exists (String c pre), rest.
Qed.

Lemma capture_here lit grp s g :
  Regex.matchHere lit grp s = Some g → Regex.capture lit grp s = Some g.
Proof. destruct s; cbn [Regex.capture]; by intros ->. Qed.

(** A captured group is captured again from the literal followed by it. *)
Lemma matchHere_rebuilt lit grp s g :
  Regex.matchHere lit grp s = Some g → Regex.matchHere lit grp (lit +:+ g) = Some g.
Proof.
  intros (s1 & s2 & _ & Hgrp & Hrun & ->)%matchHere_inv.
  unfold Regex.matchHere. rewrite afterLiteral_app_self.
  destruct (afterLiteral_firstChars s1 grp s2 (Regex.takeWhile Regex.inClass s2) Hgrp)
    as [_ ->].
  rewrite takeWhile_idem, Hrun. f_equal. f_equal.
  rewrite <- (afterLiteral_length _ _ _ Hgrp) at 1. apply firstChars_app_length.
Qed.

Lemma matchHere_hash_None lit grp s t :
  lacks "#" lit = true → lacks "#" grp = true →
  Regex.matchHere lit grp s = None →
  Regex.matchHere lit grp (s +:+ String "#" t) = None.
Proof.
  intros Hlit Hgrp. unfold Regex.matchHere.
  destruct (Regex.afterLiteral s lit) as [s1|] eqn:E1.
  - rewrite (afterLiteral_app _ _ _ _ E1).
    destruct (Regex.afterLiteral s1 grp) as [s2|] eqn:E2.
    + rewrite (afterLiteral_app _ _ _ _ E2).
      rewrite takeWhile_app_stop by done.
      by destruct (Regex.isEmpty _).
    + by rewrite afterLiteral_hash.
  - by rewrite afterLiteral_hash.
Qed.

Lemma matchHere_hash_Some lit grp s t g :
  Regex.matchHere lit grp s = Some g →
  Regex.matchHere lit grp (s +:+ String "#" t) = Some g.
Proof.
  intros (s1 & s2 & E1 & E2 & Hrun & ->)%matchHere_inv. unfold Regex.matchHere.
  rewrite (afterLiteral_app _ _ _ _ E1), (afterLiteral_app _ _ _ _ E2).
  rewrite takeWhile_app_stop by done. rewrite Hrun.
  by destruct (afterLiteral_firstChars s1 grp s2 (String "#" t) E2) as [-> _].
Qed.

Lemma capture_hash lit grp s t g :
  lacks "#" lit = true → lacks "#" grp = true →
  Regex.capture lit grp s = Some g →
  Regex.capture lit grp (s +:+ String "#" t) = Some g.
Proof.
  intros Hlit Hgrp. induction s as [|c s IH]; cbn [Regex.capture].
  - destruct (Regex.matchHere lit grp "") eqn:E; [|done]. intros [= <-].
    apply capture_here. by apply (matchHere_hash_Some lit grp "").
  - destruct (Regex.matchHere lit grp (String c s)) eqn:E.
    + intros [= <-]. apply capture_here. by apply matchHere_hash_Some.
    + intros H. change (String c s +:+ ?x) with (String c (s +:+ x)).
      cbn [Regex.capture]. change (String c (s +:+ ?x)) with (String c s +:+ x).
      rewrite matchHere_hash_None by done. by apply IH.
Qed.

End RegexFacts.

(** ** types.ts: task ids and URLs *)


Section TypesProperties.

(** X1 — [extractTaskId] after [buildSingularityUrl]: a task id that
    [extractTaskId] has extracted from any text is extracted again,
    unchanged, from the URL that [buildSingularityUrl] builds for it (the
    URL that the badges open). *)
Theorem extractTaskId_buildSingularityUrl (url taskId : string) :
  Types.extractTaskId url = Some taskId →
  Types.extractTaskId (Types.buildSingularityUrl taskId) = Some taskId.
Proof.
  unfold Types.extractTaskId, Types.SINGULARITY_URL_REGEX_SINGLE, Types.buildSingularityUrl.
  intros (pre & rest & _ & H)%capture_inv.
  apply capture_here. by eapply matchHere_rebuilt.
Qed.

Lemma extractTaskId_buildSingularityUrl_witness :
  Types.extractTaskId "see [plan](singularityapp://?&page=any&id=t-0AF9-3b) here"
  = Some "t-0AF9-3b"
  ∧ Types.extractTaskId (Types.buildSingularityUrl "t-0AF9-3b") = Some "t-0AF9-3b".
Proof.
  split; [reflexivity|].
  apply (extractTaskId_buildSingularityUrl
           "see [plan](singularityapp://?&page=any&id=t-0AF9-3b) here").
  reflexivity.
Defined.

(** X2 — The sid fragment does not disturb the task id: appending
    [#sid=<sid>] to a reference, as [addSidToFieldUrl] does, leaves the id
    that [extractTaskId] extracts from it unchanged, whatever the sid. *)
Theorem extractTaskId_sid_suffix (url taskId sid : string) :
  Types.extractTaskId url = Some taskId →
  Types.extractTaskId (url +:+ "#sid=" +:+ sid) = Some taskId.
Proof.
  unfold Types.extractTaskId, Types.SINGULARITY_URL_REGEX_SINGLE.
  change (url +:+ "#sid=" +:+ sid) with (url +:+ String "#" ("sid=" +:+ sid)).
  by apply capture_hash.
Qed.

Lemma extractTaskId_sid_suffix_witness :
  Types.extractTaskId Sample.reference = Some "T-1"
  ∧ Types.extractTaskId (Sample.reference +:+ "#sid=" +:+ "ab12") = Some "T-1".
Proof.
  split; [reflexivity|]. by apply (extractTaskId_sid_suffix Sample.reference).
Defined.

End TypesProperties.

Section UrlFacts.

Lemma hexUpper_inj (a b : nat) :
  (a < 16)%nat → (b < 16)%nat → Types.hexUpper a = Types.hexUpper b → a = b.
Proof.
  intros Ha Hb.
  do 16 (destruct a as [|a];
         [do 16 (destruct b as [|b]; [intros H; first [reflexivity|by vm_compute in H]|]); lia|]).
  lia.
Qed.

Lemma percentEncode_inj c c' : Types.percentEncode c = Types.percentEncode c' → c = c'.
Proof.
  unfold Types.percentEncode.
  pose proof (nat_ascii_bounded c) as Hc. pose proof (nat_ascii_bounded c') as Hc'.
  pose proof (Nat.div_mod_eq (nat_of_ascii c) 16) as Hn.
  pose proof (Nat.div_mod_eq (nat_of_ascii c') 16) as Hn'.
  pose proof (Nat.mod_upper_bound (nat_of_ascii c) 16 ltac:(lia)) as Hm.
  pose proof (Nat.mod_upper_bound (nat_of_ascii c') 16 ltac:(lia)) as Hm'.
  remember (nat_of_ascii c / 16)%nat as hi. remember (nat_of_ascii c mod 16)%nat as lo.
  remember (nat_of_ascii c' / 16)%nat as hi'. remember (nat_of_ascii c' mod 16)%nat as lo'.
  intros [= Hhi Hlo].
  apply hexUpper_inj in Hhi; [|lia..]. apply hexUpper_inj in Hlo; [|lia..].
  rewrite <- (ascii_nat_embedding c), <- (ascii_nat_embedding c'). f_equal. lia.
Qed.

Lemma encodeURIComponent_inj s s' :
  Types.encodeURIComponent s = Types.encodeURIComponent s' → s = s'.
Proof.
  revert s'. induction s as [|c s IH]; intros [|c' s']; cbn [Types.encodeURIComponent].
  - done.
  - by destruct (Types.isUnreserved c').
  - by destruct (Types.isUnreserved c).
  - destruct (Types.isUnreserved c) eqn:Ec, (Types.isUnreserved c') eqn:Ec'.
    + intros [= -> H]. by rewrite (IH _ H).
    + unfold Types.percentEncode. intros [= -> _]. done.
    + unfold Types.percentEncode. intros [= <- _]. done.
    + intros H.
      assert (Hsplit : ∀ x y a b, Types.percentEncode x +:+ a = Types.percentEncode y +:+ b
                                  → Types.percentEncode x = Types.percentEncode y ∧ a = b).
      { intros x y a b. unfold Types.percentEncode.
        remember (Types.hexUpper (nat_of_ascii x / 16)) as x1.
        remember (Types.hexUpper (nat_of_ascii x mod 16)) as x2.
        remember (Types.hexUpper (nat_of_ascii y / 16)) as y1.
        remember (Types.hexUpper (nat_of_ascii y mod 16)) as y2.
        intros [= E1 E2 E3]. split; [by rewrite E1, E2|exact E3]. }
      apply Hsplit in H as [Hc H]. by rewrite (percentEncode_inj _ _ Hc), (IH _ H).
Qed.

Lemma lacks_amp_encoded c :
  lacks "&" (if Types.isUnreserved c then String c EmptyString else Types.percentEncode c)
  = true.
Proof. destruct c as [[] [] [] [] [] [] [] []]; by vm_compute. Qed.

Lemma lacks_amp_encodeURIComponent s : lacks "&" (Types.encodeURIComponent s) = true.
Proof.
  induction s as [|c s IH]; [done|].
  cbn [Types.encodeURIComponent]. by rewrite lacks_app, lacks_amp_encoded, IH.
Qed.

(** Two texts that lack a character and are followed by it end at the same place. *)
Lemma lacks_split c a a' r r' :
  lacks c a = true → lacks c a' = true →
  a +:+ String c r = a' +:+ String c r' → a = a' ∧ r = r'.
Proof.
  revert a'. induction a as [|d a IH]; intros [|d' a']; simpl.
  - by intros _ _ [= ->].
  - intros _ [Hd _]%andb_prop [= <- _]. by rewrite Ascii.eqb_refl in Hd.
  - intros [Hd _]%andb_prop _ [= -> _]. by rewrite Ascii.eqb_refl in Hd.
  - intros [_ Ha]%andb_prop [_ Ha']%andb_prop [= -> H].
    destruct (IH _ Ha Ha' H) as [-> ->]. done.
Qed.

End UrlFacts.

Section UrlProperties.

(** X3 — [buildObsidianUrl] is injective: two notes have the same URL only
    if they have the same vault name and the same path. *)
Theorem buildObsidianUrl_injective (vaultName filePath vaultName' filePath' : string) :
  Types.buildObsidianUrl vaultName filePath = Types.buildObsidianUrl vaultName' filePath' →
  vaultName = vaultName' ∧ filePath = filePath'.
Proof.
  unfold Types.buildObsidianUrl. intros H.
  simpl in H. injection H as H.
  apply lacks_split in H as [Hv Hp]; [|apply lacks_amp_encodeURIComponent..].
  simpl in Hp. injection Hp as Hp.
  by rewrite (encodeURIComponent_inj _ _ Hv), (encodeURIComponent_inj _ _ Hp).
Qed.

Lemma buildObsidianUrl_injective_witness :
  Types.buildObsidianUrl "V" "Notes/Plan.md" = Sample.noteUrl
  ∧ ("V" = "V" ∧ "Notes/Plan.md" = "Notes/Plan.md").
Proof.
  split; [reflexivity|].
  apply (buildObsidianUrl_injective "V" "Notes/Plan.md" "V" "Notes/Plan.md"). reflexivity.
Defined.

End UrlProperties.

(** ** api/singularity.ts: more on the link editor *)


Section EditorFacts.

Import JSArray SingularityAPI Edited ObsidianLinkSync.

Lemma startsWith_app_lacks s p c x :
  lacks c p = true → startsWith s p = false → startsWith (s +:+ String c x) p = false.
Proof.
  revert s. induction p as [|d p IH]; intros [|e s]; simpl; try done.
  - intros [Hd _]%andb_prop _. apply negb_true_iff in Hd.
    rewrite Ascii.eqb_sym. by rewrite Hd.
  - intros [_ Hp]%andb_prop. destruct (Ascii.eqb e d); [by apply IH|done].
Qed.

(** The first [#sid=] of a text that had none and gains one is the one it gains. *)
Lemma indexOf_sid_app l t :
  includes l "#sid=" = false →
  indexOf (l +:+ "#sid=" +:+ t) "#sid=" = Z.of_nat (String.length l).
Proof.
  induction l as [|c l IH]; intros H.
  - apply indexOf_startsWith. exact (startsWith_app_self "#sid=" t).
  - apply includes_false_cons in H as [Hhere Hrest].
    change (String c l +:+ ?x) with (String c (l +:+ x)).
    rewrite indexOf_cons_miss.
    + rewrite (IH Hrest). cbn [String.length].
      destruct (Z.ltb_spec (Z.of_nat (String.length l)) 0); lia.
    + change (startsWith (String c l) "#sid=")
        with (Ascii.eqb c "#" && startsWith l "sid=") in Hhere.
      change (startsWith (String c (l +:+ "#sid=" +:+ t)) "#sid=")
        with (Ascii.eqb c "#" && startsWith (l +:+ String "#" ("sid=" +:+ t)) "sid=").
      destruct (Ascii.eqb c "#"); [|done].
      rewrite andb_true_l in Hhere |- *. by apply startsWith_app_lacks.
Qed.

Lemma updatedOps_found ops t u s :
  ∃ j op', findObsidianLinkById (updatedOps ops t u s) s = Some (j, op')
           ∧ op' = relinked op' t u s
           ∧ Delta.insert op' = linkText t
           ∧ Delta.linkOf op' = Some (u +:+ SID_FRAGMENT +:+ s).
Proof.
  unfold updatedOps. destruct (findObsidianLinkById ops s) as [[i op]|] eqn:Hfind.
  - exists i, (relinked op t u s). split; [|done].
    apply scanFrom_insert with (op := op); [done|apply carriesSid_written].
  - apply scanFrom_None in Hfind.
    set (stripped := if isOnlyNewline (last ops) then removelast ops else ops).
    assert (Hstripped : Forall (fun op => carriesSid (SID_FRAGMENT +:+ s) op = false) stripped).
    { subst stripped. destruct (isOnlyNewline (last ops)); [by apply Forall_removelast|done]. }
    unfold findObsidianLinkById, appendedOps. fold stripped.
    rewrite scanFrom_app, createNoteLinkOps_eq by done.
    destruct (0 <? length stripped)%nat; eexists _, _.
    + split.
      * change ([Delta.newline] ++ ?l) with (Delta.newline :: l).
        rewrite scanFrom_miss by done. apply scanFrom_hit, carriesSid_written.
      * done.
    + split; [apply scanFrom_hit, carriesSid_written|done].
Qed.

End EditorFacts.

Section EditorExtras.

Import JSArray SingularityAPI Edited ObsidianLinkSync.

(** X4 — [addSidToLink], case by case.  At an index past the end of the
    array it throws a [TypeError].  At an operation without a link, or with
    an empty link, it returns a copy of the array.  Otherwise it returns a
    copy in which that operation has its link followed by [#sid=<sid>] and
    keeps its text and its other attributes.  The result is a new array;
    the array it is given, and every other array, is left as it was. *)
Theorem addSidToLink_cases
    (h : Heap) (deltaOps : loc) (ops : list Delta.Op) (linkIndex : nat)
    (singularityId : string) :
  h !! deltaOps = Some ops →
  match ops !! linkIndex with
  | None => addSidToLink deltaOps linkIndex singularityId h = Throw TypeError
  | Some op =>
      ∃ (r : loc) (h' : Heap),
        addSidToLink deltaOps linkIndex singularityId h = Ok (r, h')
        ∧ h !! r = None
        ∧ (∀ a, a ≠ r → h' !! a = h !! a)
        ∧ h' !! r
          = Some match Delta.linkOf op with
                 | Some (String c l) =>
                     <[linkIndex :=
                         {| Delta.insert := Delta.insert op;
                            Delta.attributes :=
                              Some {| Delta.link :=
                                        Some (String c l +:+ "#sid=" +:+ singularityId);
                                      Delta.formats :=
                                        match Delta.attributes op with
                                        | Some a => Delta.formats a
                                        | None => []
                                        end |} |}]> ops
                 | _ => ops
                 end
  end.
Proof.
  intros Ha. destruct (ops !! linkIndex) as [op|] eqn:Hi.
  - destruct (truthyLink op) as [l|] eqn:Hl.
    + exists (fresh (dom h)), (<[fresh (dom h) := <[linkIndex := marked op l singularityId]> ops]> h).
      split; [by apply addSidToLink_run|]. split; [apply fresh_lookup|].
      split; [by intros a Hne; rewrite lookup_insert_ne|].
      rewrite lookup_insert_eq. f_equal. unfold truthyLink in Hl.
      destruct (Delta.linkOf op) as [[|c l']|]; try done. by injection Hl as <-.
    + exists (fresh (dom h)), (<[fresh (dom h) := ops]> h).
      split.
      * unfold addSidToLink.
        rewrite (bind_ok _ _ _ _ _ (spread_run _ _ _ Ha)).
        rewrite (bind_ok _ _ _ _ _ (get_run _ _ _ _)). by rewrite Hi, Hl.
      * split; [apply fresh_lookup|]. split; [by intros a Hne; rewrite lookup_insert_ne|].
        rewrite lookup_insert_eq. unfold truthyLink in Hl.
        by destruct (Delta.linkOf op) as [[|c l']|].
  - unfold addSidToLink.
    rewrite (bind_ok _ _ _ _ _ (spread_run _ _ _ Ha)).
    rewrite (bind_ok _ _ _ _ _ (get_run _ _ _ _)). by rewrite Hi.
Qed.

Lemma addSidToLink_cases_witness :
  let h : Heap := {[ 2%nat := Sample.legacyBody ]} in
  h !! 2%nat = Some Sample.legacyBody
  ∧ addSidToLink 2%nat 5%nat "ab12" h = Throw TypeError
  ∧ ∃ r h', addSidToLink 2%nat 1%nat "ab12" h = Ok (r, h')
            ∧ h' !! r = Some Sample.legacyBody ∧ h' !! 2%nat = Some Sample.legacyBody.
Proof.
  intros h. split; [reflexivity|]. split.
  - exact (addSidToLink_cases h 2%nat Sample.legacyBody 5%nat "ab12" eq_refl).
  - destruct (addSidToLink_cases h 2%nat Sample.legacyBody 1%nat "ab12" eq_refl)
      as (r & h' & Hrun & Hfresh & Hothers & Hr).
    exists r, h'. split; [exact Hrun|]. split; [exact Hr|].
    assert (Hne : 2%nat ≠ r) by (intros <-; discriminate Hfresh).
    exact (Hothers _ Hne).
Defined.

(** X5 — [updateObsidianLinkById] is idempotent: it returns for every
    array, and applying it once more, with the same title, URL and sid, to
    the operations it has returned gives the same operations. *)
Theorem updateObsidianLinkById_idempotent
    (ops : list Delta.Op) (noteTitle obsidianUrl singularityId : string) :
  ∃ d, runOn (fun a => updateObsidianLinkById a noteTitle obsidianUrl singularityId) ops = Ok d
       ∧ runOn (fun a => updateObsidianLinkById a noteTitle obsidianUrl singularityId) d = Ok d.
Proof.
  exists (updatedOps ops noteTitle obsidianUrl singularityId).
  split; [apply runOn_update|]. rewrite runOn_update. f_equal.
  destruct (updatedOps_found ops noteTitle obsidianUrl singularityId)
    as (j & op' & Hfind & Hfix & _).
  unfold updatedOps at 1. rewrite Hfind, <- Hfix.
  apply list_insert_id. apply scanFrom_Some in Hfind as (k & -> & Hk & _). exact Hk.
Qed.

(** X6 — What the editor writes is read back.  In the operations that
    [updateObsidianLinkById] returns for the URL of a note,
    [findObsidianLinkById] finds a link for the sid, whose base URL
    ([extractBaseUrl]) is the URL of the note and whose text is the title.
    In the body of [createInitialDelta] the link found for the sid comes
    first and has the URL of the note as base URL, and [findAnyObsidianLink]
    finds no legacy link. *)
Theorem written_link_read_back
    (ops : list Delta.Op) (noteTitle vault filePath singularityId : string) :
  let url := Types.buildObsidianUrl vault filePath in
  (∃ d j op,
     runOn (fun a => updateObsidianLinkById a noteTitle url singularityId) ops = Ok d
     ∧ findObsidianLinkById d singularityId = Some (j, op)
     ∧ extractBaseUrl op = Some url
     ∧ Delta.insert op = "Obsidian: " +:+ Delta.DQUOTE +:+ noteTitle +:+ Delta.DQUOTE)
  ∧ (∃ op,
       findObsidianLinkById (createInitialDelta noteTitle url singularityId) singularityId
       = Some (0%nat, op)
       ∧ extractBaseUrl op = Some url
       ∧ findAnyObsidianLink (createInitialDelta noteTitle url singularityId) = None).
Proof.
  cbv zeta. destruct (buildObsidianUrl_shape vault filePath) as [Hscheme Hlacks]. split.
  - destruct (updatedOps_found ops noteTitle (Types.buildObsidianUrl vault filePath) singularityId)
      as (j & op & Hfind & Hfix & Htxt & _).
    exists (updatedOps ops noteTitle (Types.buildObsidianUrl vault filePath) singularityId), j, op.
    split; [apply runOn_update|]. split; [done|]. split; [|done].
    rewrite Hfix. by apply extractBaseUrl_written.
  - eexists. split; [|split].
    + unfold findObsidianLinkById, createInitialDelta. rewrite createNoteLinkOps_eq.
      apply scanFrom_hit, carriesSid_written.
    + by apply extractBaseUrl_written.
    + unfold findAnyObsidianLink, createInitialDelta. rewrite createNoteLinkOps_eq.
      apply scanFrom_None. constructor; [|by repeat constructor].
      unfold isLegacyLink, Delta.linkOf, Delta.withLink. cbn [Delta.attributes Delta.link].
      rewrite (startsWith_app _ _ _ Hscheme).
      change (?u +:+ SID_FRAGMENT +:+ ?s) with (u +:+ "#sid=" +:+ s).
      by rewrite includes_app_mid.
Qed.

(** X7 — Migrating a legacy link.  A link that [findAnyObsidianLink]
    returns carries no sid at all.  When no operation carries the sid of
    the reference, [addSidToLink] at the index of that link makes it the
    link that [findObsidianLinkById] finds for the sid, with its old URL as
    base URL and its old text; the search for a legacy link then only
    returns later operations. *)
Theorem addSidToLink_migrates
    (ops : list Delta.Op) (i : nat) (op : Delta.Op) (singularityId : string) :
  findObsidianLinkById ops singularityId = None →
  findAnyObsidianLink ops = Some (i, op) →
  ∃ l d op',
    Delta.linkOf op = Some l
    ∧ runOn (fun a => addSidToLink a i singularityId) ops = Ok d
    ∧ findObsidianLinkById d singularityId = Some (i, op')
    ∧ Delta.linkOf op' = Some (l +:+ "#sid=" +:+ singularityId)
    ∧ Delta.insert op' = Delta.insert op
    ∧ extractBaseUrl op' = Some l
    ∧ (∀ sid, carriesSid (SID_FRAGMENT +:+ sid) op = false)
    ∧ (∀ j o, findAnyObsidianLink d = Some (j, o) → (i < j)%nat).
Proof.
  intros Hnone Hany.
  pose proof Hany as (k & Hk & Hi & Hleg & Hbefore)%scanFrom_Some. simpl in Hk. subst k.
  destruct (isLegacyLink_link _ Hleg) as (l & Htruthy & Hl & Hs & Hinc).
  exists l, (<[i := marked op l singularityId]> ops), (marked op l singularityId).
  split; [done|]. split; [by apply runOn_addSid|]. split.
  { apply scanFrom_insert_new with (op := op); [done..|apply carriesSid_written]. }
  split; [done|]. split; [done|]. split.
  { unfold extractBaseUrl, marked, Delta.linkOf, Delta.withLink.
    cbn [Delta.attributes Delta.link].
    rewrite (startsWith_app _ _ _ Hs).
    change (l +:+ SID_FRAGMENT +:+ singularityId) with (l +:+ "#sid=" +:+ singularityId).
    rewrite indexOf_sid_app by done.
    apply startsWith_length in Hs. simpl in Hs.
    destruct (Z.gtb_spec (Z.of_nat (String.length l)) 0); [|lia].
    unfold substring0. by rewrite Nat2Z.id, firstChars_app_length. }
  split.
  { intros sid. unfold carriesSid. rewrite Hl.
    destruct (includes l (SID_FRAGMENT +:+ sid)) eqn:E; [|done].
    exfalso. revert Hinc E. unfold SID_FRAGMENT. clear.
    induction l as [|c l IH]; intros Hinc E.
    - unfold includes in E. simpl in E. done.
    - apply includes_false_cons in Hinc as [Hhere Hrest].
      unfold includes in E. cbn [indexOf] in E.
      destruct (startsWith (String c l) ("#sid=" +:+ sid)) eqn:Es.
      + clear -Hhere Es. revert Hhere Es. generalize (String c l). intros s.
        change ("#sid=" +:+ sid) with (String "#" (String "s" (String "i" (String "d" (String "=" sid))))).
        destruct s as [|c1 [|c2 [|c3 [|c4 [|c5 s]]]]]; simpl; try done;
          repeat (destruct (Ascii.eqb _ _); simpl; try done).
      + destruct (Z.ltb_spec (indexOf l ("#sid=" +:+ sid)) 0); [done|].
        apply IH; [done|]. unfold includes. apply Z.leb_le. lia. }
  intros j o (k & Hk & Hj & Hlegj & Hbeforej)%scanFrom_Some. simpl in Hk. subst k.
  destruct (Nat.lt_trichotomy j i) as [Hlt|[->|Hgt]]; [| |done].
  - exfalso. rewrite list_lookup_insert_ne in Hj by lia.
    rewrite Forall_forall in Hbefore.
    assert (Hin : o ∈ take i ops).
    { apply list_elem_of_lookup. exists j. by rewrite lookup_take_lt. }
    specialize (Hbefore _ Hin). congruence.
  - exfalso. rewrite list_lookup_insert_eq in Hj by (by eapply lookup_lt_Some).
    injection Hj as <-.
    unfold isLegacyLink, marked, Delta.linkOf, Delta.withLink in Hlegj.
    cbn [Delta.attributes Delta.link] in Hlegj.
    change (?u +:+ SID_FRAGMENT +:+ ?s) with (u +:+ "#sid=" +:+ s) in Hlegj.
    rewrite includes_app_mid in Hlegj. by rewrite andb_false_r in Hlegj.
Qed.

Lemma addSidToLink_migrates_witness :
  findAnyObsidianLink Sample.legacyBody
  = Some (0%nat, Sample.linkOp "Old" "obsidian://open?vault=V&file=Old.md")
  ∧ ∃ d op',
      runOn (fun a => addSidToLink a 0%nat "ab12") Sample.legacyBody = Ok d
      ∧ findObsidianLinkById d "ab12" = Some (0%nat, op')
      ∧ extractBaseUrl op' = Some "obsidian://open?vault=V&file=Old.md".
Proof.
  split; [reflexivity|].
  destruct (addSidToLink_migrates Sample.legacyBody 0%nat
              (Sample.linkOp "Old" "obsidian://open?vault=V&file=Old.md") "ab12"
              eq_refl eq_refl)
    as (l & d & op' & Hl & Hrun & Hfind & _ & _ & Hbase & _).
  injection Hl as <-. exists d, op'. split; [exact Hrun|]. split; [exact Hfind|exact Hbase].
Defined.

End EditorExtras.

(** ** sync/obsidianLink.ts: every run of the synchroniser *)


Section SyncFacts.

Import MNotations JSArray SingularityAPI Edited ObsidianLinkSync.

(** Every run of [syncObsidianUrl], by the step at which it ends. *)
Lemma syncObsidianUrl_outcomes taskId file fieldName w :
  ∃ rid w1,
    getOrCreateSingularityId (lookupField (frontmatter w) fieldName) fieldName w = (rid, w1)
    ∧ sameRemoteSide w w1
    ∧ match rid with
      | Throw e => syncObsidianUrl taskId file fieldName w = (Throw e, w1)
      | Ok sid =>
          if Regex.isEmpty (token w)
          then syncObsidianUrl taskId file fieldName w = (Throw TokenNotConfigured, w1)
          else
            let w2 := with_requests (fun l => l ++ [GetTask taskId]) w1 in
            match task_of (remote w) taskId with
            | Throw e => syncObsidianUrl taskId file fieldName w = (Throw e, w2)
            | Ok task =>
                let url := Types.buildObsidianUrl (vaultName w) (path file) in
                syncObsidianUrl taskId file fieldName w
                = match Api.truthy (SingularityTask.note task) with
                  | Some noteId =>
                      let w3 := with_requests (fun l => l ++ [GetNote noteId]) w2 in
                      match note_of (remote w) noteId with
                      | Ok note =>
                          match resolveExisting
                                  (parseNoteContent (SingularityNote.content note))
                                  (basename file) url sid with
                          | Ok (Some deltaOps) => (Ok tt, written taskId deltaOps w3)
                          | Ok None => (Ok tt, w3)
                          | Throw e => (Throw e, w3)
                          end
                      | Throw e => (Throw e, w3)
                      end
                  | None =>
                      (Ok tt, written taskId (createInitialDelta (basename file) url sid) w2)
                  end
            end
      end.
Proof.
  destruct (getOrCreateSingularityId (lookupField (frontmatter w) fieldName) fieldName w)
    as [rid w1] eqn:Hid.
  exists rid, w1. split; [done|].
  pose proof (getOrCreateSingularityId_frame _ _ _ _ _ Hid) as Hframe.
  split; [done|]. destruct Hframe as (Hreq & Hrem & Htok1 & Hvault & Htc).
  destruct rid as [sid|e].
  - destruct (Regex.isEmpty (token w)) eqn:Htok.
    + unfold syncObsidianUrl.
      unfold MNotations.bind at 1, MNotations.gets at 1.
      unfold MNotations.bind at 1, getFieldValue, MNotations.gets at 1.
      unfold MNotations.bind at 1. rewrite Hid.
      unfold MNotations.bind at 1, Api.getTask, Api.request at 1.
      by rewrite Htok1, Htok.
    + cbv zeta. destruct (task_of (remote w) taskId) as [task|e] eqn:Htask.
      * by apply syncObsidianUrl_run.
      * unfold syncObsidianUrl.
        unfold MNotations.bind at 1, MNotations.gets at 1.
        unfold MNotations.bind at 1, getFieldValue, MNotations.gets at 1.
        unfold MNotations.bind at 1. rewrite Hid.
        unfold MNotations.bind at 1, Api.getTask, Api.request at 1.
        by rewrite Htok1, Htok, Hrem, Htask.
  - unfold syncObsidianUrl.
    unfold MNotations.bind at 1, MNotations.gets at 1.
    unfold MNotations.bind at 1, getFieldValue, MNotations.gets at 1.
    unfold MNotations.bind at 1. by rewrite Hid.
Qed.

(** The requests of one run, and what the run leaves of the plugin's state. *)
Lemma syncObsidianUrl_sent taskId file fieldName w r w' :
  syncObsidianUrl taskId file fieldName w = (r, w') →
  token w' = token w ∧ vaultName w' = vaultName w
  ∧ kanbanCache w' = kanbanCache w ∧ tagsCache w' = tagsCache w
  ∧ ∃ more,
      requests w' = requests w ++ more
      ∧ (more = [] ∧ remote w' = remote w ∧ taskCache w' = taskCache w
         ∨ more = [GetTask taskId] ∧ isThrow r = true
           ∧ remote w' = remote w ∧ taskCache w' = taskCache w
         ∨ (∃ n, more = [GetTask taskId; GetNote n]
                 ∧ remote w' = remote w ∧ taskCache w' = taskCache w)
         ∨ (∃ n d, more = [GetTask taskId; GetNote n; PatchTaskNote taskId d]
                   ∧ taskCache w' = delete taskId (taskCache w))
         ∨ (∃ d, more = [GetTask taskId; PatchTaskNote taskId d]
                 ∧ taskCache w' = delete taskId (taskCache w))).
Proof.
  destruct (syncObsidianUrl_outcomes taskId file fieldName w)
    as (rid & w1 & Hid & (Hreq & Hrem & Htok & Hvault & Htc) & Hout).
  assert (Hk : kanbanCache w1 = kanbanCache w ∧ tagsCache w1 = tagsCache w).
  { pose proof (getOrCreateSingularityId_cases (lookupField (frontmatter w) fieldName)
                  fieldName w) as H.
    destruct (lookupField (frontmatter w) fieldName) as [v|];
      [|rewrite H in Hid; by injection Hid as <- <-].
    destruct (extractSidFromUrl v); [rewrite H in Hid; by injection Hid as <- <-|].
    destruct H as (u & n & _ & H). rewrite H in Hid.
    destruct (frontmatterWritable w); by injection Hid as <- <-. }
  destruct Hk as [Hkan Htags].
  destruct rid as [sid|e].
  2:{ rewrite Hout. intros [= <- <-]. split_and!; try done.
      exists []. rewrite app_nil_r. split; [done|]. by left. }
  destruct (Regex.isEmpty (token w)).
  { rewrite Hout. intros [= <- <-]. split_and!; try done.
    exists []. rewrite app_nil_r. split; [done|]. by left. }
  cbv zeta in Hout. destruct (task_of (remote w) taskId) as [task|e].
  2:{ rewrite Hout. intros [= <- <-]. split_and!; try done.
      exists [GetTask taskId]. simpl. rewrite Hreq. split; [done|]. right. by left. }
  rewrite Hout. clear Hout.
  destruct (Api.truthy (SingularityTask.note task)) as [noteId|].
  - destruct (note_of (remote w) noteId) as [note|e].
    + destruct (resolveExisting _ _ _ _) as [[d|]|e]; intros [= <- <-];
        (split_and!; [done..|]).
      * exists [GetTask taskId; GetNote noteId; PatchTaskNote taskId d]. simpl.
        rewrite Hreq, <- !app_assoc. split; [done|].
        do 3 right. left. exists noteId, d. by rewrite Htc.
      * exists [GetTask taskId; GetNote noteId]. simpl.
        rewrite Hreq, <- !app_assoc. split; [done|].
        do 2 right. left. by exists noteId.
      * exists [GetTask taskId; GetNote noteId]. simpl.
        rewrite Hreq, <- !app_assoc. split; [done|].
        do 2 right. left. by exists noteId.
    + intros [= <- <-]. split_and!; try done.
      exists [GetTask taskId; GetNote noteId]. simpl.
      rewrite Hreq, <- !app_assoc. split; [done|].
      do 2 right. left. by exists noteId.
  - intros [= <- <-]. split_and!; try done.
    eexists [GetTask taskId; PatchTaskNote taskId _]. simpl.
    rewrite Hreq, <- !app_assoc. split; [done|].
    do 4 right. eexists. by rewrite Htc.
Qed.

End SyncFacts.

Section SyncExtras.

Import MNotations JSArray SingularityAPI Edited ObsidianLinkSync.

(** The world after the runs for a list of references, whatever their results. *)
Lemma syncEach_fold file urls w :
  syncEach file urls w
  = (Ok tt,
     fold_left (fun w0 ref =>
                  match Types.extractTaskId ref.1 with
                  | Some taskId => snd (syncObsidianUrl taskId file ref.2 w0)
                  | None => w0
                  end) urls w).
Proof.
  revert w. induction urls as [|[url fieldName] urls IH]; intros w; [done|].
  cbn [syncEach fold_left fst snd].
  destruct (Types.extractTaskId url) as [taskId|]; [|apply IH].
  unfold MNotations.bind, try_catch.
  destruct (syncObsidianUrl taskId file fieldName w) as [[[]|e] w1]; simpl; apply IH.
Qed.

(** X8 — [syncFile] never rejects, and a reference whose run fails does not
    stop the runs for the next ones: the world it leaves is the one
    obtained by running [syncObsidianUrl] for each reference that holds a
    task id, in the order of the references, whatever each run returns. *)
Theorem syncFile_never_rejects (file : TFile) (w : World) :
  syncFile file w
  = (Ok tt,
     fold_left (fun w0 ref =>
                  match Types.extractTaskId ref.1 with
                  | Some taskId => snd (syncObsidianUrl taskId file ref.2 w0)
                  | None => w0
                  end)
       (findAllSingularityUrls (frontmatter w)) w).
Proof. unfold syncFile, MNotations.bind, MNotations.gets. apply syncEach_fold. Qed.

Lemma syncEach_requests file urls w :
  ∃ more,
    requests (snd (syncEach file urls w)) = requests w ++ more
    ∧ (length (List.filter isWrite more) <= length urls)%nat
    ∧ Forall (fun req =>
                match req with
                | GetTask t | PatchTaskNote t _ =>
                    ∃ url f, (url, f) ∈ urls ∧ Types.extractTaskId url = Some t
                | GetNote _ => True
                | _ => False
                end) more.
Proof.
  revert w. induction urls as [|[url fieldName] urls IH]; intros w.
  { exists []. simpl. rewrite app_nil_r. by split_and!. }
  assert (Hweaken : ∀ more : list Request,
    Forall (fun req =>
              match req with
              | GetTask t | PatchTaskNote t _ =>
                  ∃ url f, (url, f) ∈ urls ∧ Types.extractTaskId url = Some t
              | GetNote _ => True
              | _ => False
              end) more →
    Forall (fun req =>
              match req with
              | GetTask t | PatchTaskNote t _ =>
                  ∃ url' f, (url', f) ∈ (url, fieldName) :: urls
                            ∧ Types.extractTaskId url' = Some t
              | GetNote _ => True
              | _ => False
              end) more).
  { intros more Hmore. eapply Forall_impl; [exact Hmore|]. intros [t|n|t d|p|t|]; try done.
    - intros (u & f & Hin & Hu). exists u, f. split; [by right|done].
    - intros (u & f & Hin & Hu). exists u, f. split; [by right|done]. }
  cbn [syncEach].
  destruct (Types.extractTaskId url) as [taskId|] eqn:Hid.
  2:{ destruct (IH w) as (more & Hreq & Hlen & Hall). exists more.
      split; [done|]. split; [simpl; lia|by apply Hweaken]. }
  unfold MNotations.bind at 1, try_catch.
  destruct (syncObsidianUrl taskId file fieldName w) as [r w1] eqn:Hrun.
  assert (Hnext : (match r with
                   | Ok a => (Ok a, w1)
                   | Throw e => MNotations.ret tt w1
                   end) = (Ok tt, w1)) by (by destruct r as [[]|]).
  rewrite Hnext.
  destruct (syncObsidianUrl_sent _ _ _ _ _ _ Hrun) as (_ & _ & _ & _ & first & Hfirst & Hshape).
  destruct (IH w1) as (more & Hreq & Hlen & Hall).
  exists (first ++ more). rewrite Hreq, Hfirst, <- app_assoc. split; [done|].
  assert (Hhere : ∃ url' f, (url', f) ∈ (url, fieldName) :: urls
                            ∧ Types.extractTaskId url' = Some taskId).
  { exists url, fieldName. split; [by left|done]. }
  rewrite List.filter_app, length_app.
  destruct Hshape as [(-> & _)|[(-> & _)|[(n & -> & _)|[(n & d & -> & _)|(d & -> & _)]]]];
    simpl; (split; [lia|]); repeat (constructor; [done|]); by apply Hweaken.
Qed.

(** X9 — The requests of [syncFile]: it sends nothing but requests for
    tasks, for notes and writes of task notes; every task it reads or
    writes is one that a reference of the note names; and it sends at most
    one write per reference. *)
Theorem syncFile_requests (file : TFile) (w : World) :
  let refs := findAllSingularityUrls (frontmatter w) in
  ∃ more,
    requests (snd (syncFile file w)) = requests w ++ more
    ∧ (length (List.filter isWrite more) <= length refs)%nat
    ∧ Forall (fun req =>
                match req with
                | GetTask t | PatchTaskNote t _ =>
                    ∃ url f, (url, f) ∈ refs ∧ Types.extractTaskId url = Some t
                | GetNote _ => True
                | _ => False
                end) more.
Proof.
  cbv zeta. unfold syncFile, MNotations.bind, MNotations.gets. apply syncEach_requests.
Qed.

End SyncExtras.

Section SyncExtras2.

Import MNotations JSArray SingularityAPI Edited ObsidianLinkSync.

Lemma getOrCreateSingularityId_caches url fieldName w r w1 :
  getOrCreateSingularityId url fieldName w = (r, w1) →
  kanbanCache w1 = kanbanCache w ∧ tagsCache w1 = tagsCache w
  ∧ frontmatterWritable w1 = frontmatterWritable w ∧ random w1 = random w.
Proof.
  pose proof (getOrCreateSingularityId_cases url fieldName w) as H.
  destruct url as [v|]; [|by rewrite H; intros [= <- <-]].
  destruct (extractSidFromUrl v); [by rewrite H; intros [= <- <-]|].
  destruct H as (u & n & _ & ->).
  by destruct (frontmatterWritable w) eqn:E; intros [= <- <-].
Qed.

(** X10 — Without a token nothing is sent.  The run for a reference
    rejects, sends no request and leaves the store and the task cache as
    they were; yet a reference that had no sid has gained one in the front
    matter, because the identity scheme runs before the first request.
    [syncFile] as a whole sends nothing and leaves the store as it was. *)
Theorem sync_without_token (taskId : string) (file : TFile) (fieldName : string) (w : World) :
  Regex.isEmpty (token w) = true →
  (let '(r, w') := syncObsidianUrl taskId file fieldName w in
   isThrow r = true ∧ requests w' = requests w ∧ remote w' = remote w
   ∧ taskCache w' = taskCache w
   ∧ ∀ v, lookupField (frontmatter w) fieldName = Some v →
          extractSidFromUrl v = None → includes v "#sid=" = false →
          frontmatterWritable w = true → (∀ k, 0 <= random w k < 16) →
          ∃ u, r = Throw TokenNotConfigured
               ∧ matchesTemplate uuidTemplate u = true
               ∧ lookupField (frontmatter w') fieldName = Some (v +:+ "#sid=" +:+ u))
  ∧ requests (snd (syncFile file w)) = requests w
  ∧ remote (snd (syncFile file w)) = remote w.
Proof.
  intros Htok. split.
  - destruct (syncObsidianUrl_outcomes taskId file fieldName w)
      as (rid & w1 & Hid & (Hreq & Hrem & Htok1 & Hvault & Htc) & Hout).
    rewrite Htok in Hout.
    assert (Hrun : ∃ e, syncObsidianUrl taskId file fieldName w = (Throw e, w1)
                        ∧ (isThrow rid = false → e = TokenNotConfigured)).
    { destruct rid as [sid|e]; eexists; (split; [exact Hout|done]). }
    destruct Hrun as (e & -> & He). split_and!; try done.
    intros v Hv Hnone Hinc Hwritable Hrange.
    pose proof (getOrCreateSingularityId_cases (lookupField (frontmatter w) fieldName)
                  fieldName w) as H.
    rewrite Hv, Hnone in H. destruct H as (u & n & Hshape & H).
    rewrite Hwritable in H. rewrite Hv, H in Hid. injection Hid as <- <-.
    exists u. split; [by rewrite He|]. split; [by apply Hshape|].
    cbn [frontmatter with_frontmatter with_randomReads].
    by rewrite (lookupField_appendSid _ _ _ _ Hv), Hinc.
  - unfold syncFile, MNotations.bind, MNotations.gets. rewrite syncEach_fold. cbn [snd].
    generalize (findAllSingularityUrls (frontmatter w)). intros urls.
    revert w Htok. induction urls as [|[url f] urls IH]; intros w Htok; [done|].
    cbn [fold_left fst snd].
    destruct (Types.extractTaskId url) as [t|]; [|by apply IH].
    destruct (syncObsidianUrl_outcomes t file f w)
      as (rid & w1 & Hid & (Hreq & Hrem & Htok1 & Hvault & Htc) & Hout).
    rewrite Htok in Hout.
    assert (Hrun : ∃ e, syncObsidianUrl t file f w = (Throw e, w1)).
    { destruct rid as [sid|e]; eexists; exact Hout. }
    destruct Hrun as (e & ->). cbn [snd].
    destruct (IH w1) as [IH1 IH2]; [by rewrite Htok1|].
    split; congruence.
Qed.

Lemma sync_without_token_witness :
  Regex.isEmpty (token Sample.noToken) = true
  ∧ requests (snd (syncFile Sample.file Sample.noToken)) = requests Sample.noToken.
Proof.
  split; [reflexivity|].
  destruct (sync_without_token "T-1" Sample.file "task" Sample.noToken eq_refl) as (_ & H & _).
  exact H.
Defined.

Lemma sent_two w1 w a b :
  requests w1 = requests w →
  sentBetween w (with_requests (fun l => l ++ [b]) (with_requests (fun l => l ++ [a]) w1))
  = [a; b].
Proof. intros H. apply sentBetween_app. simpl. by rewrite H, <- !app_assoc. Qed.

(** X11 — A task that has no note yet: with a token and a sid from the
    identity scheme, the run reads the task and sends one write, whose body is the link of the note - text
    [Obsidian: <title>], link [<URL of the note>#sid=<sid>] - and a line
    terminator; no note is read. *)
Theorem sync_task_without_note
    (taskId : string) (file : TFile) (fieldName : string) (w : World)
    (sid : string) (w1 : World) (task : SingularityTask.t) :
  getOrCreateSingularityId (lookupField (frontmatter w) fieldName) fieldName w
  = (Ok sid, w1) →
  Regex.isEmpty (token w) = false →
  task_of (remote w) taskId = Ok task →
  Api.truthy (SingularityTask.note task) = None →
  let w' := snd (syncObsidianUrl taskId file fieldName w) in
  sentBetween w w'
  = [GetTask taskId;
     PatchTaskNote taskId
       [ {| Delta.insert := "Obsidian: " +:+ Delta.DQUOTE +:+ basename file +:+ Delta.DQUOTE;
            Delta.attributes :=
              Some {| Delta.link :=
                        Some (Types.buildObsidianUrl (vaultName w) (path file)
                              +:+ "#sid=" +:+ sid);
                      Delta.formats := [] |} |};
         Delta.newline ]].
Proof.
  intros Hid Htok Htask Hnote. cbv zeta.
  destruct (getOrCreateSingularityId_frame _ _ _ _ _ Hid) as (Hreq & _).
  rewrite (syncObsidianUrl_run _ _ _ _ _ _ _ Hid Htok Htask). cbv zeta.
  rewrite Hnote. cbn [snd]. unfold written.
  apply sentBetween_app. simpl. by rewrite Hreq, <- !app_assoc.
Qed.

End SyncExtras2.

Section SyncExtras3.

Import MNotations JSArray SingularityAPI Edited ObsidianLinkSync.

Lemma sync_task_without_note_witness :
  sentBetween Sample.noteless (snd (syncObsidianUrl "T-1" Sample.file "task" Sample.noteless))
  = [GetTask "T-1";
     PatchTaskNote "T-1"
       [Sample.linkOp Sample.titled (Sample.noteUrl +:+ "#sid=ab12"); Delta.newline]].
Proof.
  pose proof (sync_task_without_note "T-1" Sample.file "task" Sample.noteless "ab12" Sample.noteless
                (Sample.task None 0)) as H.
  cbv zeta in H. rewrite H.
  - vm_compute; reflexivity.
  - reflexivity.
  - vm_compute; reflexivity.
  - vm_compute; reflexivity.
  - vm_compute; reflexivity.
Defined.

(** X12 — A note that was renamed or moved: when the link found by the sid
    of the reference names another URL, the run (with a token) reads the
    task and its note and sends one write, whose
    body has the length of the old one, holds at the position of that link
    the new title and the new URL followed by the sid (the other
    attributes of the operation kept), and holds every other operation
    where it was.  On that body the idempotence guard holds. *)
Theorem sync_renamed_note
    (taskId : string) (file : TFile) (fieldName : string) (w : World)
    (sid : string) (w1 : World) (task : SingularityTask.t) (noteId : string)
    (note : SingularityNote.t) (ops : list Delta.Op) (i : nat) (op : Delta.Op) :
  let url := Types.buildObsidianUrl (vaultName w) (path file) in
  getOrCreateSingularityId (lookupField (frontmatter w) fieldName) fieldName w
  = (Ok sid, w1) →
  Regex.isEmpty (token w) = false →
  task_of (remote w) taskId = Ok task →
  Api.truthy (SingularityTask.note task) = Some noteId →
  note_of (remote w) noteId = Ok note →
  parseNoteContent (SingularityNote.content note) = Delta.VOps ops →
  findObsidianLinkById ops sid = Some (i, op) →
  extractBaseUrl op ≠ Some url →
  ∃ ops',
    sentBetween w (snd (syncObsidianUrl taskId file fieldName w))
    = [GetTask taskId; GetNote noteId; PatchTaskNote taskId ops']
    ∧ length ops' = length ops
    ∧ ops' !! i
      = Some {| Delta.insert := "Obsidian: " +:+ Delta.DQUOTE +:+ basename file
                                +:+ Delta.DQUOTE;
                Delta.attributes :=
                  Some (Delta.withLink (Delta.attributes op) (url +:+ "#sid=" +:+ sid)) |}
    ∧ (∀ j, j ≠ i → ops' !! j = ops !! j)
    ∧ resolveExisting (Delta.VOps ops') (basename file) url sid = Ok None.
Proof.
  intros url Hid Htok Htask Hnote Hn Hparse Hfind Hbase.
  assert (Hsame : sameUrl (extractBaseUrl op) url = false).
  { unfold sameUrl. destruct (extractBaseUrl op) as [u|]; [|done].
    apply String.eqb_neq. congruence. }
  destruct (getOrCreateSingularityId_frame _ _ _ _ _ Hid) as (Hreq & _).
  rewrite (syncObsidianUrl_run _ _ _ _ _ _ _ Hid Htok Htask). cbv zeta.
  rewrite Hnote, Hn, Hparse. fold url.
  rewrite (resolve_renamed _ _ _ _ _ _ Hfind Hsame).
  exists (<[i := relinked op (basename file) url sid]> ops). cbn [snd].
  assert (Hi : ops !! i = Some op).
  { apply scanFrom_Some in Hfind as (k & -> & Hk & _). exact Hk. }
  split; [by apply sent_three|]. split; [by rewrite length_insert|]. split.
  { apply list_lookup_insert_eq. by eapply lookup_lt_Some. }
  split; [by intros j Hj; apply list_lookup_insert_ne|].
  apply reread_renamed; [|done]. subst url.
  destruct (buildObsidianUrl_shape (vaultName w) (path file)) as [Hscheme Hlacks].
  by split.
Qed.

Lemma sync_renamed_note_witness :
  ∃ ops',
    sentBetween Sample.moved (snd (syncObsidianUrl "T-1" Sample.file "task" Sample.moved))
    = [GetTask "T-1"; GetNote "N-T-1"; PatchTaskNote "T-1" ops']
    ∧ ops' !! 1%nat
      = Some {| Delta.insert := Sample.titled;
                Delta.attributes :=
                  Some {| Delta.link := Some (Sample.noteUrl +:+ "#sid=ab12");
                          Delta.formats := [("bold", Delta.AttrBool true)] |} |}.
Proof.
  destruct (sync_renamed_note "T-1" Sample.file "task" Sample.moved "ab12" Sample.moved
              (Sample.task (Some "N-T-1") 0) "N-T-1"
              (Sample.noteOf (Delta.JSON_stringify Sample.movedBody)) Sample.movedBody 1%nat
              {| Delta.insert := "Old";
                 Delta.attributes :=
                   Some {| Delta.link := Some "obsidian://open?vault=V&file=Old.md#sid=ab12";
                           Delta.formats := [("bold", Delta.AttrBool true)] |} |})
    as (ops' & Hsent & _ & Hnew & _).
  - reflexivity.
  - vm_compute; reflexivity.
  - vm_compute; reflexivity.
  - vm_compute; reflexivity.
  - vm_compute; reflexivity.
  - vm_compute; reflexivity.
  - vm_compute; reflexivity.
  - vm_compute. discriminate.
  - exists ops'. split; [exact Hsent|]. rewrite Hnew. vm_compute; reflexivity.
Defined.

(** X13 — A read that fails: when the store rejects the request for the
    task, or the request for its note, the run (with a token and a sid
    from the identity scheme) rejects with the error of
    the store right after that request; nothing is written and the task
    cache is left as it was. *)
Theorem sync_read_failure
    (taskId : string) (file : TFile) (fieldName : string) (w : World)
    (sid : string) (w1 : World) :
  getOrCreateSingularityId (lookupField (frontmatter w) fieldName) fieldName w
  = (Ok sid, w1) →
  Regex.isEmpty (token w) = false →
  (∀ e, task_of (remote w) taskId = Throw e →
        ∃ w', syncObsidianUrl taskId file fieldName w = (Throw e, w')
              ∧ sentBetween w w' = [GetTask taskId]
              ∧ remote w' = remote w ∧ taskCache w' = taskCache w)
  ∧ (∀ task noteId e,
       task_of (remote w) taskId = Ok task →
       Api.truthy (SingularityTask.note task) = Some noteId →
       note_of (remote w) noteId = Throw e →
       ∃ w', syncObsidianUrl taskId file fieldName w = (Throw e, w')
             ∧ sentBetween w w' = [GetTask taskId; GetNote noteId]
             ∧ remote w' = remote w ∧ taskCache w' = taskCache w).
Proof.
  intros Hid Htok.
  destruct (syncObsidianUrl_outcomes taskId file fieldName w)
    as (rid & w0 & Hid' & (Hreq & Hrem & Htok1 & Hvault & Htc) & Hout).
  rewrite Hid in Hid'. injection Hid' as <- <-. rewrite Htok in Hout. cbv zeta in Hout.
  split.
  - intros e He. rewrite He in Hout. eexists. split; [exact Hout|].
    split; [|done]. apply sentBetween_app. simpl. by rewrite Hreq.
  - intros task noteId e Htask Hnote Hn. rewrite Htask, Hnote, Hn in Hout.
    eexists. split; [exact Hout|]. split; [by apply sent_two|done].
Qed.

Lemma sync_read_failure_witness :
  ∃ w', syncObsidianUrl "T-2" Sample.file "task" Sample.synced = (Throw (ApiError 404), w')
        ∧ sentBetween Sample.synced w' = [GetTask "T-2"].
Proof.
  destruct (sync_read_failure "T-2" Sample.file "task" Sample.synced "ab12" Sample.synced)
    as [Htask _].
  - reflexivity.
  - vm_compute; reflexivity.
  - destruct (Htask (ApiError 404)) as (w' & Hrun & Hsent & _).
    + vm_compute; reflexivity.
    + exists w'. split; [exact Hrun|exact Hsent].
Defined.

Lemma writes_app w w' more :
  requests w' = requests w ++ more → writes w' = writes w ++ List.filter isWrite more.
Proof. unfold writes. intros ->. apply List.filter_app. Qed.

(** X14 — The caches after a run of [syncObsidianUrl]: the status and tag
    caches and the entries of the other tasks are left as they were; the
    entry of the task is kept when the run has sent no write, and is gone
    when the run has written and resolved. *)
Theorem sync_cache_effect (taskId : string) (file : TFile) (fieldName : string) (w : World) :
  let '(r, w') := syncObsidianUrl taskId file fieldName w in
  kanbanCache w' = kanbanCache w ∧ tagsCache w' = tagsCache w
  ∧ (∀ other, other ≠ taskId → taskCache w' !! other = taskCache w !! other)
  ∧ (writes w' = writes w → taskCache w' = taskCache w)
  ∧ (r = Ok tt → writes w' ≠ writes w → taskCache w' !! taskId = None).
Proof.
  destruct (syncObsidianUrl taskId file fieldName w) as [r w'] eqn:Hrun.
  destruct (syncObsidianUrl_sent _ _ _ _ _ _ Hrun)
    as (_ & _ & Hkan & Htags & more & Hreq & Hshape).
  pose proof (writes_app _ _ _ Hreq) as Hw.
  split; [done|]. split; [done|].
  destruct Hshape as [(-> & _ & Htc)|[(-> & _ & _ & Htc)|[(n & -> & _ & Htc)
                      |[(n & d & -> & Htc)|(d & -> & Htc)]]]];
    simpl in Hw; rewrite ?app_nil_r in Hw.
  1-3: by (rewrite Htc; split_and!; [done|done|intros _ Hne; by rewrite Hw in Hne]).
  all: rewrite Htc; split_and!;
    [ by intros other Hne; rewrite lookup_delete_ne
    | intros Heq; rewrite Heq in Hw; apply (f_equal length) in Hw;
      rewrite length_app in Hw; simpl in Hw; lia
    | intros _ _; apply lookup_delete_eq ].
Qed.

End SyncExtras3.

(** ** sync/obsidianLink.ts: the manual command and the identifiers *)


Section ManualSyncExtras.

Import MNotations JSArray SingularityAPI Edited ObsidianLinkSync ManualSync.

Lemma syncCounting_run file urls k w :
  ∃ n, syncCounting file urls k w = (Ok n, snd (syncEach file urls w))
       ∧ (k <= n <= k + length urls)%nat.
Proof.
  revert k w. induction urls as [|[url fieldName] urls IH]; intros k w.
  { exists k. split; [done|simpl; lia]. }
  cbn [syncCounting syncEach].
  destruct (Types.extractTaskId url) as [taskId|].
  2:{ destruct (IH k w) as (n & -> & Hn). exists n. split; [done|simpl; lia]. }
  unfold MNotations.bind, try_catch, MNotations.ret.
  destruct (syncObsidianUrl taskId file fieldName w) as [[[]|e] w1].
  - destruct (IH (S k) w1) as (n & -> & Hn). exists n. split; [done|simpl; lia].
  - destruct (IH k w1) as (n & -> & Hn). exists n. split; [done|simpl; lia].
Qed.

(** X15 — The manual command does what the automatic synchronisation does:
    [syncCurrentFile] on a file never rejects and leaves the world that
    [syncFile] leaves.  It reports a number exactly when the note holds a
    reference, and that number is at most the number of references. *)
Theorem syncCurrentFile_like_syncFile (file : TFile) (w : World) :
  let refs := findAllSingularityUrls (frontmatter w) in
  ∃ notice,
    syncCurrentFile (Some file) w = (Ok notice, snd (syncFile file w))
    ∧ match notice with
      | Some n => refs ≠ [] ∧ (n <= length refs)%nat
      | None => refs = []
      end.
Proof.
  cbv zeta. unfold syncCurrentFile, syncFile.
  unfold MNotations.bind at 1 3, MNotations.gets.
  destruct (findAllSingularityUrls (frontmatter w)) as [|ref refs] eqn:E.
  { by exists None. }
  destruct (syncCounting_run file (ref :: refs) 0 w) as (n & Hrun & Hn).
  exists (Some n). unfold MNotations.bind, MNotations.ret. rewrite Hrun.
  split; [done|]. split; [done|]. simpl in Hn |- *. lia.
Qed.

Lemma syncCounting_guard file w urls :
  Regex.isEmpty (token w) = false →
  (∀ url fieldName, (url, fieldName) ∈ urls →
     ∃ taskId, Types.extractTaskId url = Some taskId ∧ upToDate w file taskId fieldName) →
  ∀ k w0, frontmatter w0 = frontmatter w → remote w0 = remote w → token w0 = token w →
          vaultName w0 = vaultName w →
          ∃ w', syncCounting file urls k w0 = (Ok (k + length urls)%nat, w')
                ∧ writes w' = writes w0.
Proof.
  intros Htok. induction urls as [|[url fieldName] urls IH];
    intros Hall k w0 Hfm Hrem Htok0 Hvault.
  - exists w0. simpl. by rewrite Nat.add_0_r.
  - cbn [syncCounting].
    assert (Hrest : ∀ url' f', (url', f') ∈ urls →
              ∃ taskId', Types.extractTaskId url' = Some taskId'
                         ∧ upToDate w file taskId' f').
    { intros ?? Hin. apply Hall. by right. }
    destruct (Hall url fieldName (list_elem_of_here _ _))
      as (taskId & Hid & v & sid & task & noteId & note & ops & i & op
          & Hv & Hsid & Htask & Hnote & Hn & Hparse & Hfind & Hbase).
    rewrite Hid.
    destruct (syncObsidianUrl_guard taskId file fieldName w0 sid w0 task noteId note ops i op)
      as (w1 & Hrun & _ & Hw & Hrem1 & Hfm1 & Htok1 & Hvault1).
    { rewrite Hfm, Hv. unfold getOrCreateSingularityId. by rewrite Hsid. }
    { by rewrite Htok0. }
    { by rewrite Hrem. }
    { done. }
    { by rewrite Hrem. }
    { done. }
    { done. }
    { by rewrite Hvault. }
    destruct (IH Hrest (S k) w1) as (w' & Hrun' & Hw'); try congruence.
    exists w'. unfold MNotations.bind, try_catch, MNotations.ret. rewrite Hrun, Hrun'.
    split; [|congruence]. do 2 f_equal. simpl. lia.
Qed.

(** X16 — What the manual command counts: with a token, on a note all of
    whose references are up to date (the task holds, under the sid of the
    field, a link to the URL of the note), [syncCurrentFile] reports every
    reference as synced although it sends no write - a run that takes the
    early return counts like a run that writes. *)
Theorem syncCurrentFile_counts_skipped (file : TFile) (w : World) :
  let refs := findAllSingularityUrls (frontmatter w) in
  Regex.isEmpty (token w) = false →
  refs ≠ [] →
  (∀ refUrl fieldName, (refUrl, fieldName) ∈ refs →
     ∃ taskId, Types.extractTaskId refUrl = Some taskId
               ∧ upToDate w file taskId fieldName) →
  ∃ w', syncCurrentFile (Some file) w = (Ok (Some (length refs)), w')
        ∧ writes w' = writes w.
Proof.
  cbv zeta. intros Htok Hne Hall. unfold syncCurrentFile.
  unfold MNotations.bind at 1, MNotations.gets.
  destruct (findAllSingularityUrls (frontmatter w)) as [|ref refs] eqn:E; [done|].
  destruct (syncCounting_guard file w (ref :: refs) Htok Hall 0%nat w)
    as (w' & Hrun & Hw); try done.
  exists w'. unfold MNotations.bind, MNotations.ret. by rewrite Hrun.
Qed.

Lemma syncCurrentFile_counts_skipped_witness :
  ∃ w', syncCurrentFile (Some Sample.file) Sample.synced = (Ok (Some 1%nat), w')
        ∧ writes w' = writes Sample.synced.
Proof.
  destruct (syncCurrentFile_counts_skipped Sample.file Sample.synced) as (w' & Hrun & Hw).
  - reflexivity.
  - vm_compute. discriminate.
  - intros refUrl fieldName Hin. vm_compute in Hin.
    apply list_elem_of_singleton in Hin. injection Hin as -> ->.
    exists "T-1". split; [vm_compute; reflexivity|exact synced_upToDate].
  - exists w'. split; [exact Hrun|exact Hw].
Defined.

End ManualSyncExtras.

Section UuidExtras.

Import MNotations ObsidianLinkSync.

(** X17 — [generateUUID], fed with random values in [0, 16), does not
    throw and returns a text of the shape of a version-4 UUID: 36
    characters, lower-case hexadecimal digits in place of each [x], one of
    [8 9 a b] in place of [y], the hyphens and the [4] of the template.
    It reads 31 random values and changes nothing else; and the sid
    expression reads the identifier back from any value it is appended to
    (after [#sid=]) that had no sid. *)
Theorem generateUUID_v4 (w : World) :
  (∀ k, 0 <= random w k < 16) →
  ∃ u, generateUUID w = (Ok u, with_randomReads (Nat.add 31) w)
       ∧ matchesTemplate "xxxxxxxx-xxxx-4xxx-yxxx-xxxxxxxxxxxx" u = true
       ∧ String.length u = 36%nat
       ∧ ∀ v, extractSidFromUrl v = None →
              extractSidFromUrl (v +:+ "#sid=" +:+ u) = Some u.
Proof.
  intros Hrange. destruct (generateUUID_run w) as (u & n & Hrun & Hshape).
  specialize (Hshape Hrange).
  assert (Hn : randomReads (snd (generateUUID w)) = (31 + randomReads w)%nat) by reflexivity.
  rewrite Hrun in Hn. cbn [snd randomReads with_randomReads] in Hn.
  assert (n = 31%nat) as -> by lia.
  exists u. split; [done|]. split; [done|].
  split; [by apply matchesTemplate_uuid|].
  intros v Hv. by apply extractSid_appended.
Qed.

Lemma generateUUID_v4_witness :
  ∃ u, generateUUID Sample.unsynced = (Ok u, with_randomReads (Nat.add 31) Sample.unsynced)
       ∧ String.length u = 36%nat.
Proof.
  destruct (generateUUID_v4 Sample.unsynced) as (u & Hrun & _ & Hlen & _).
  - intros k. simpl. apply Z.mod_pos_bound. lia.
  - exists u. split; [exact Hrun|exact Hlen].
Defined.

End UuidExtras.

(** ** cache/taskCache.ts: cold and warm fetches *)


Section CacheFacts.

Variable LOCALES : Language → Locale.
Import TaskCache MNotations.

(** A status set that is not cached, or whose entry has expired, is fetched
    and stored under the reading of the clock that follows the answer. *)
Lemma getKanbanStatuses_miss projectId w :
  Regex.isEmpty (token w) = false →
  kanbanCache w !! projectId = None →
  getKanbanStatuses projectId w
  = match kanbanStatuses_of (remote w) projectId with
    | Ok ps =>
        (Ok ps,
         with_kanbanCache
           (insert projectId {| CacheEntry.data := ps;
                                CacheEntry.timestamp := clock w (clockReads w) |})
           (with_clockReads S (with_requests (fun l => l ++ [GetKanbanStatuses projectId]) w)))
    | Throw e => (Throw e, with_requests (fun l => l ++ [GetKanbanStatuses projectId]) w)
    end.
Proof.
  intros Htok Hnone. unfold getKanbanStatuses, MNotations.bind at 1, MNotations.gets at 1.
  rewrite Hnone. unfold cachedOr, MNotations.bind, Api.getKanbanStatuses, Api.request.
  rewrite Htok. by destruct (kanbanStatuses_of (remote w) projectId).
Qed.

Lemma getTags_miss w :
  Regex.isEmpty (token w) = false →
  tagsCache w = None →
  getTags w
  = match all_tags (remote w) with
    | Ok ts =>
        (Ok ts,
         with_tagsCache
           (fun _ => Some {| CacheEntry.data := ts;
                             CacheEntry.timestamp := clock w (clockReads w) |})
           (with_clockReads S (with_requests (fun l => l ++ [GetTags]) w)))
    | Throw e => (Throw e, with_requests (fun l => l ++ [GetTags]) w)
    end.
Proof.
  intros Htok Hnone. unfold getTags, MNotations.bind at 1, MNotations.gets at 1.
  rewrite Hnone. unfold cachedOr, MNotations.bind, Api.getTags, Api.request.
  rewrite Htok. by destruct (all_tags (remote w)).
Qed.

(** The fetch of a task whose own request is answered. *)
Lemma fetchTaskData_answered taskId w task :
  Regex.isEmpty (token w) = false →
  task_of (remote w) taskId = Ok task →
  fetchTaskData LOCALES taskId w
  = let w0 := with_requests (fun l => l ++ [GetTask taskId; GetTaskKanbanStatus taskId]) w in
    let '(rb, w2) := getKanbanStatuses (SingularityTask.projectId task) w0 in
    let '(rc, w3) := getTagsByIds (default [] (SingularityTask.tags task)) w2 in
    match taskKanbanStatus_of (remote w) taskId, rb, rc with
    | Ok tks, Ok ps, Ok tags =>
        let td := enriched LOCALES (language w3) task tks ps tags in
        (Ok td,
         with_taskCache
           (insert taskId {| CacheEntry.data := td;
                             CacheEntry.timestamp := clock w3 (clockReads w3) |})
           (with_clockReads S w3))
    | Throw e, _, _ => (Throw e, w3)
    | _, Throw e, _ => (Throw e, w3)
    | _, _, Throw e => (Throw e, w3)
    end.
Proof.
  intros Htok Htask. unfold fetchTaskData.
  unfold MNotations.bind at 1. unfold Api.getTask, Api.request at 1. rewrite Htok, Htask.
  unfold MNotations.bind at 1, promiseAll3.
  unfold Api.getTaskKanbanStatus, Api.request at 1.
  cbn [token with_requests remote]. rewrite Htok.
  assert (Hw : with_requests (fun l => l ++ [GetTaskKanbanStatus taskId])
                 (with_requests (fun l => l ++ [GetTask taskId]) w)
               = with_requests (fun l => l ++ [GetTask taskId; GetTaskKanbanStatus taskId]) w).
  { unfold with_requests. simpl. by rewrite <- app_assoc. }
  rewrite Hw. cbv zeta.
  destruct (getKanbanStatuses _ _) as [rb w2].
  destruct (getTagsByIds _ _) as [rc w3].
  by destruct (taskKanbanStatus_of (remote w) taskId) as [tks|], rb as [ps|], rc as [tags|].
Qed.


(** The fetch of a task when nothing about it is cached. *)
Lemma getTaskData_cold taskId w task :
  Regex.isEmpty (token w) = false →
  taskCache w !! taskId = None →
  kanbanCache w !! SingularityTask.projectId task = None →
  tagsCache w = None →
  task_of (remote w) taskId = Ok task →
  let projectId := SingularityTask.projectId task in
  let '(r, w') := getTaskData LOCALES taskId w in
  sentBetween w w'
  = [GetTask taskId; GetTaskKanbanStatus taskId; GetKanbanStatuses projectId; GetTags]
  ∧ CacheEntry.data <$> kanbanCache w' !! projectId
    = match kanbanStatuses_of (remote w) projectId with Ok ps => Some ps | Throw _ => None end
  ∧ CacheEntry.data <$> tagsCache w'
    = match all_tags (remote w) with Ok ts => Some ts | Throw _ => None end
  ∧ CacheEntry.data <$> taskCache w' !! taskId
    = match r with Ok td => Some td | Throw _ => None end
  ∧ r = match taskKanbanStatus_of (remote w) taskId,
              kanbanStatuses_of (remote w) projectId, all_tags (remote w) with
        | Ok tks, Ok ps, Ok ts =>
            Ok (enriched LOCALES (language w) task tks ps
                  (List.filter (hasId (default [] (SingularityTask.tags task))) ts))
        | Throw e, _, _ => Throw e
        | _, Throw e, _ => Throw e
        | _, _, Throw e => Throw e
        end.
Proof.
  intros Htok Htc Hkan Htags Htask. cbv zeta.
  change (getTaskData LOCALES taskId w)
    with (cachedOr (taskCache w !! taskId) (fetchTaskData LOCALES taskId) w).
  rewrite Htc. cbn [cachedOr].
  rewrite (fetchTaskData_answered _ _ _ Htok Htask). cbv zeta.
  rewrite getKanbanStatuses_miss by done. cbn [remote with_requests].
  unfold getTagsByIds, MNotations.bind.
  destruct (kanbanStatuses_of (remote w) (SingularityTask.projectId task)) as [ps|e2];
    (rewrite getTags_miss by done);
    cbn [remote with_requests with_clockReads with_kanbanCache];
    destruct (all_tags (remote w)) as [ts|e3];
    destruct (taskKanbanStatus_of (remote w) taskId) as [tks|e1];
    (split; [apply sentBetween_app; simpl; by rewrite <- !app_assoc|]);
    simpl; rewrite ?lookup_insert_eq, ?Hkan, ?Htags, ?Htc; done.
Qed.


Lemma getKanbanStatuses_hit projectId w e :
  kanbanCache w !! projectId = Some e →
  clock w (clockReads w) - CacheEntry.timestamp e <= cacheTTL w * 60 * 1000 →
  getKanbanStatuses projectId w = (Ok (CacheEntry.data e), with_clockReads S w).
Proof.
  intros He Hfresh. unfold getKanbanStatuses, MNotations.bind at 1, MNotations.gets at 1.
  rewrite He. by apply cachedOr_fresh.
Qed.

Lemma getTags_hit w e :
  tagsCache w = Some e →
  clock w (clockReads w) - CacheEntry.timestamp e <= cacheTTL w * 60 * 1000 →
  getTags w = (Ok (CacheEntry.data e), with_clockReads S w).
Proof.
  intros He Hfresh. unfold getTags, MNotations.bind at 1, MNotations.gets at 1.
  rewrite He. by apply cachedOr_fresh.
Qed.

(** The fetch of a task whose status set and tags are cached and fresh. *)
Lemma fetchTaskData_warm taskId w task ek et :
  Regex.isEmpty (token w) = false →
  task_of (remote w) taskId = Ok task →
  kanbanCache w !! SingularityTask.projectId task = Some ek →
  tagsCache w = Some et →
  clock w (clockReads w) - CacheEntry.timestamp ek <= cacheTTL w * 60 * 1000 →
  clock w (S (clockReads w)) - CacheEntry.timestamp et <= cacheTTL w * 60 * 1000 →
  let '(r, w') := fetchTaskData LOCALES taskId w in
  sentBetween w w' = [GetTask taskId; GetTaskKanbanStatus taskId]
  ∧ kanbanCache w' = kanbanCache w ∧ tagsCache w' = tagsCache w
  ∧ r = match taskKanbanStatus_of (remote w) taskId with
        | Ok tks =>
            Ok (enriched LOCALES (language w) task tks (CacheEntry.data ek)
                  (List.filter (hasId (default [] (SingularityTask.tags task)))
                     (CacheEntry.data et)))
        | Throw e => Throw e
        end.
Proof.
  intros Htok Htask Hek Het Hfk Hft.
  rewrite (fetchTaskData_answered _ _ _ Htok Htask). cbv zeta.
  rewrite (getKanbanStatuses_hit _ _ ek) by done.
  unfold getTagsByIds, MNotations.bind.
  rewrite (getTags_hit _ et) by done.
  destruct (taskKanbanStatus_of (remote w) taskId) as [tks|e1];
    (split; [apply sentBetween_app; by simpl|]); by simpl.
Qed.

End CacheFacts.

Section CacheExtras.

Variable LOCALES : Language → Locale.
Import TaskCache MNotations.

(** X18 — What [getTaskData] returns is what it leaves in the cache: when
    the call resolves, the task cache holds an entry for the task with the
    returned record, and any later call that finds this entry before it
    expires returns the same record without sending a request. *)
Theorem getTaskData_read_back (taskId : string) (w : World) (td : TaskData.t) (w1 : World) :
  getTaskData LOCALES taskId w = (Ok td, w1) →
  ∃ e, taskCache w1 !! taskId = Some e
       ∧ CacheEntry.data e = td
       ∧ ∀ w2, taskCache w2 !! taskId = Some e →
               clock w2 (clockReads w2) - CacheEntry.timestamp e <= cacheTTL w2 * 60 * 1000 →
               getTaskData LOCALES taskId w2 = (Ok td, with_clockReads S w2).
Proof.
  intros Hrun.
  assert (∃ e, taskCache w1 !! taskId = Some e ∧ CacheEntry.data e = td) as (e & He & Hd).
  { destruct (getTaskData_run LOCALES taskId w)
      as [(e & He & _ & Hhit)|(w0 & Hfetch & Hreq & Hrem & Htok & Htc & Hlang)].
    - rewrite Hhit in Hrun. injection Hrun as <- <-. by exists e.
    - rewrite Hfetch in Hrun. destruct (Regex.isEmpty (token w0)) eqn:Etok.
      + unfold fetchTaskData, MNotations.bind at 1, Api.getTask, Api.request in Hrun.
        by rewrite Etok in Hrun.
      + destruct (fetchTaskData_run _ _ _ _ _ Etok Hrun) as (more & _ & _ & _ & Hok).
        destruct (Hok _ eq_refl) as (task & tks & e & tags & now & _ & _ & _ & _ & Hcache).
        eexists. rewrite Hcache, lookup_insert_eq. by split. }
  exists e. split; [done|]. split; [done|]. intros w2 He2 Hfresh.
  change (getTaskData LOCALES taskId w2)
    with (cachedOr (taskCache w2 !! taskId) (fetchTaskData LOCALES taskId) w2).
  rewrite He2, <- Hd. by apply cachedOr_fresh.
Qed.

(** X19 — A rejected enrichment keeps the answers of its other requests:
    with a token and nothing cached, when only the request for the status assignment of the task is
    rejected, [getTaskData] rejects with that error and stores no record
    for the task, but the status set of the project and the tags, which
    were requested at the same time, are in their caches afterwards. *)
Theorem getTaskData_keeps_partial_results
    (taskId : string) (w : World) (task : SingularityTask.t) (e : JSError)
    (ps : list KanbanStatus.t) (ts : list SingularityTag.t) :
  Regex.isEmpty (token w) = false →
  taskCache w !! taskId = None →
  kanbanCache w !! SingularityTask.projectId task = None →
  tagsCache w = None →
  task_of (remote w) taskId = Ok task →
  taskKanbanStatus_of (remote w) taskId = Throw e →
  kanbanStatuses_of (remote w) (SingularityTask.projectId task) = Ok ps →
  all_tags (remote w) = Ok ts →
  let '(r, w') := getTaskData LOCALES taskId w in
  r = Throw e
  ∧ taskCache w' !! taskId = None
  ∧ CacheEntry.data <$> kanbanCache w' !! SingularityTask.projectId task = Some ps
  ∧ CacheEntry.data <$> tagsCache w' = Some ts.
Proof.
  intros Htok Htc Hkan Htags Htask Htks Hps Hts.
  pose proof (getTaskData_cold LOCALES taskId w task Htok Htc Hkan Htags Htask) as H.
  cbv zeta in H. destruct (getTaskData LOCALES taskId w) as [r w'].
  rewrite Htks, Hps, Hts in H. destruct H as (_ & Hk & Ht & Hc & ->).
  split; [done|]. split; [|done]. by destruct (taskCache w' !! taskId).
Qed.

(** X20 — After [invalidateAll] (the command that refreshes the cache) the
    three caches are empty, and the next [getTaskData], with a token and
    a store that answers, sends the four requests - task, status assignment, status set
    of the project, tags - in this order, returns the record built from
    the four answers (the tags being those of the store whose id the task
    lists, in the order of the store) and stores it. *)
Theorem invalidateAll_then_getTaskData
    (taskId : string) (w : World) (task : SingularityTask.t)
    (tks : list TaskKanbanStatus.t) (ps : list KanbanStatus.t) (ts : list SingularityTag.t) :
  Regex.isEmpty (token w) = false →
  task_of (remote w) taskId = Ok task →
  taskKanbanStatus_of (remote w) taskId = Ok tks →
  kanbanStatuses_of (remote w) (SingularityTask.projectId task) = Ok ps →
  all_tags (remote w) = Ok ts →
  let w0 := snd (invalidateAll w) in
  let '(r, w') := getTaskData LOCALES taskId w0 in
  taskCache w0 = ∅ ∧ kanbanCache w0 = ∅ ∧ tagsCache w0 = None
  ∧ sentBetween w0 w'
    = [GetTask taskId; GetTaskKanbanStatus taskId;
       GetKanbanStatuses (SingularityTask.projectId task); GetTags]
  ∧ r = Ok (enriched LOCALES (language w) task tks ps
              (List.filter (fun tag => existsb (String.eqb (SingularityTag.id tag))
                                         (default [] (SingularityTask.tags task))) ts))
  ∧ CacheEntry.data <$> taskCache w' !! taskId
    = Some (enriched LOCALES (language w) task tks ps
              (List.filter (fun tag => existsb (String.eqb (SingularityTag.id tag))
                                         (default [] (SingularityTask.tags task))) ts)).
Proof.
  intros Htok Htask Htks Hps Hts. cbv zeta.
  set (w0 := snd (invalidateAll w)).
  pose proof (getTaskData_cold LOCALES taskId w0 task) as H. cbv zeta in H.
  destruct (getTaskData LOCALES taskId w0) as [r w'].
  change (remote w0) with (remote w) in H. change (language w0) with (language w) in H.
  rewrite Htks, Hps, Hts in H.
  destruct H as (Hsent & _ & _ & Hc & ->); try done.
Qed.

(** X21 — After [invalidateTask] (what a synchronisation that has written
    does) the entry of the task is gone and the other entries are kept;
    the next [getTaskData] for the task, with a token, the status set of
    its project and the tags cached and not expired, sends two requests only -
    the task and its status assignment - and builds the record from these
    two answers and the two cached values. *)
Theorem invalidateTask_then_getTaskData
    (taskId : string) (w : World) (task : SingularityTask.t)
    (ek : CacheEntry.t (list KanbanStatus.t)) (et : CacheEntry.t (list SingularityTag.t)) :
  Regex.isEmpty (token w) = false →
  task_of (remote w) taskId = Ok task →
  kanbanCache w !! SingularityTask.projectId task = Some ek →
  tagsCache w = Some et →
  clock w (clockReads w) - CacheEntry.timestamp ek <= cacheTTL w * 60 * 1000 →
  clock w (S (clockReads w)) - CacheEntry.timestamp et <= cacheTTL w * 60 * 1000 →
  let w0 := snd (invalidateTask taskId w) in
  let '(r, w') := getTaskData LOCALES taskId w0 in
  taskCache w0 !! taskId = None
  ∧ (∀ other, other ≠ taskId → taskCache w0 !! other = taskCache w !! other)
  ∧ sentBetween w0 w' = [GetTask taskId; GetTaskKanbanStatus taskId]
  ∧ ∀ tks, taskKanbanStatus_of (remote w) taskId = Ok tks →
           r = Ok (enriched LOCALES (language w) task tks (CacheEntry.data ek)
                     (List.filter (fun tag => existsb (String.eqb (SingularityTag.id tag))
                                                (default [] (SingularityTask.tags task)))
                        (CacheEntry.data et))).
Proof.
  intros Htok Htask Hek Het Hfk Hft. cbv zeta.
  set (w0 := snd (invalidateTask taskId w)).
  assert (Hnone : taskCache w0 !! taskId = None) by apply lookup_delete_eq.
  change (getTaskData LOCALES taskId w0)
    with (cachedOr (taskCache w0 !! taskId) (fetchTaskData LOCALES taskId) w0).
  rewrite Hnone. cbn [cachedOr].
  pose proof (fetchTaskData_warm LOCALES taskId w0 task ek et) as H.
  destruct (fetchTaskData LOCALES taskId w0) as [r w'].
  destruct H as (Hsent & _ & _ & ->); try done.
  split; [done|]. split; [by intros other Hne; apply lookup_delete_ne|].
  split; [done|]. intros tks Htks. change (remote w0) with (remote w). by rewrite Htks.
Qed.

(** X22 — After a change of language the records are fetched again:
    [setLanguage] keeps the status and tag caches, but the next
    [getTaskData] sends the request for the task whatever was cached
    before, and the status it returns for a cancelled or a completed task
    has the label of the new language. *)
Theorem setLanguage_relabels (l : Language) (taskId : string) (w : World) :
  Regex.isEmpty (token w) = false →
  let w0 := snd (setLanguage l w) in
  let '(r, w') := getTaskData LOCALES taskId w0 in
  kanbanCache w0 = kanbanCache w ∧ tagsCache w0 = tagsCache w
  ∧ (∃ more, sentBetween w0 w' = GetTask taskId :: more)
  ∧ ∀ td, r = Ok td →
      (TaskData.isCancelled td = true →
       TaskData.status td
       = Some {| Status.id := "CANCELLED"; Status.name := statusCancelled (LOCALES l) |})
      ∧ (TaskData.isCancelled td = false → TaskData.isCompleted td = true →
         TaskData.status td
         = Some {| Status.id := "DONE"; Status.name := statusDone (LOCALES l) |}).
Proof.
  intros Htok. cbv zeta. set (w0 := snd (setLanguage l w)).
  destruct (getTaskData LOCALES taskId w0) as [r w'] eqn:Hrun.
  split; [done|]. split; [done|].
  assert (Hsent : sentBetween w0 w' ≠ []).
  { change (getTaskData LOCALES taskId w0)
      with (cachedOr (taskCache w0 !! taskId) (fetchTaskData LOCALES taskId) w0) in Hrun.
    change (taskCache w0) with (∅ : gmap string (CacheEntry.t TaskData.t)) in Hrun.
    rewrite lookup_empty in Hrun. cbn [cachedOr] in Hrun.
    apply fetchTaskData_run in Hrun as (more & Hmore & _); [|done].
    by rewrite (sentBetween_app _ _ _ Hmore). }
  destruct (getTaskData_fetched _ _ _ _ _ Hrun Hsent) as (more & Hmore & _ & _ & Hok).
  split; [by exists more|]. intros td ->.
  destruct (Hok _ eq_refl) as (task & tks & e & tags & now & _ & _ & _ & -> & _).
  change (language w0) with l. simpl. unfold determineStatus. split.
  - by intros ->.
  - by intros -> ->.
Qed.

End CacheExtras.

Section CacheExtras2.

Variable LOCALES : Language → Locale.
Import TaskCache MNotations.

Lemma getKanbanStatuses_sent projectId w :
  let '(r, w') := getKanbanStatuses projectId w in
  remote w' = remote w ∧ token w' = token w
  ∧ (requests w' = requests w ∨ requests w' = requests w ++ [GetKanbanStatuses projectId]).
Proof.
  destruct (getKanbanStatuses projectId w) as [r w'] eqn:H.
  unfold getKanbanStatuses, cachedOr, isExpired, Date_now, Api.getKanbanStatuses, Api.request,
    MNotations.bind, MNotations.ret, MNotations.gets, MNotations.modify in H.
  repeat (case_match; simplify_eq/=); split_and!; auto.
Qed.

Lemma getTags_sent w :
  let '(r, w') := getTags w in
  remote w' = remote w ∧ token w' = token w
  ∧ taskCache w' = taskCache w ∧ kanbanCache w' = kanbanCache w
  ∧ (requests w' = requests w ∧ tagsCache w' = tagsCache w
     ∨ requests w' = requests w ++ [GetTags]
       ∧ match r with
         | Ok ts => all_tags (remote w) = Ok ts
                    ∧ CacheEntry.data <$> tagsCache w' = Some ts
         | Throw e => all_tags (remote w) = Throw e ∧ tagsCache w' = tagsCache w
         end)
  ∧ ∀ ts, r = Ok ts → CacheEntry.data <$> tagsCache w' = Some ts.
Proof.
  destruct (getTags w) as [r w'] eqn:H.
  unfold getTags, cachedOr, isExpired, Date_now, Api.getTags, Api.request,
    MNotations.bind, MNotations.ret, MNotations.gets, MNotations.modify in H.
  repeat (case_match; simplify_eq/=); split_and!; auto; try (by intros ? [= <-]);
    try congruence.
  all: try (intros ts [= <-]; by match goal with H : tagsCache _ = Some _ |- _ => rewrite H end).
Qed.

(** X23 — The requests of [getTaskData]: the call never writes - the store
    is as it was - and sends at most four requests, the first of which, if
    there is one, is the request for the task. *)
Theorem getTaskData_requests (taskId : string) (w : World) :
  let '(r, w') := getTaskData LOCALES taskId w in
  remote w' = remote w
  ∧ ∃ more,
      requests w' = requests w ++ more
      ∧ (length more <= 4)%nat
      ∧ Forall (fun req => isWrite req = false) more
      ∧ match more with
        | [] => True
        | first :: _ => first = GetTask taskId
        end.
Proof.
  destruct (getTaskData LOCALES taskId w) as [r w'] eqn:Hrun.
  destruct (getTaskData_run LOCALES taskId w)
    as [(e & _ & _ & Hhit)|(w0 & Hfetch & Hreq & Hrem & Htok & _)].
  { rewrite Hhit in Hrun. injection Hrun as <- <-. split; [done|].
    exists []. rewrite app_nil_r. split_and!; [done|simpl; lia|done|done]. }
  rewrite Hfetch in Hrun. rewrite <- Hreq, <- Hrem. clear Hfetch Hreq Hrem Htok w.
  destruct (Regex.isEmpty (token w0)) eqn:Etok.
  { unfold fetchTaskData, MNotations.bind at 1, Api.getTask, Api.request in Hrun.
    rewrite Etok in Hrun. injection Hrun as <- <-. split; [done|].
    exists []. rewrite app_nil_r. split_and!; [done|simpl; lia|done|done]. }
  destruct (task_of (remote w0) taskId) as [task|e] eqn:Etask.
  2:{ unfold fetchTaskData, MNotations.bind at 1, Api.getTask, Api.request in Hrun.
      rewrite Etok, Etask in Hrun. injection Hrun as <- <-. split; [done|].
      exists [GetTask taskId]. split_and!; [done|simpl; lia|by repeat constructor|done]. }
  rewrite (fetchTaskData_answered _ _ _ _ Etok Etask) in Hrun. cbv zeta in Hrun.
  set (wa := with_requests _ w0) in Hrun.
  pose proof (getKanbanStatuses_sent (SingularityTask.projectId task) wa) as Hk.
  destruct (getKanbanStatuses _ wa) as [rb w2].
  pose proof (getTags_sent w2) as Ht.
  unfold getTagsByIds, MNotations.bind in Hrun.
  destruct (getTags w2) as [rc w3].
  destruct Hk as (Hrem2 & Htok2 & Hreq2). destruct Ht as (Hrem3 & _ & _ & _ & Hreq3 & _).
  assert (Hw3 : remote w3 = remote w0 ∧ ∃ more,
            requests w3 = requests w0 ++ GetTask taskId :: GetTaskKanbanStatus taskId :: more
            ∧ (length more <= 2)%nat ∧ Forall (fun req => isWrite req = false) more).
  { split; [by rewrite Hrem3, Hrem2|].
    destruct Hreq2 as [Hreq2|Hreq2], Hreq3 as [[Hreq3 _]|[Hreq3 _]].
    - exists []. rewrite Hreq3, Hreq2. subst wa. simpl.
      split_and!; [done|lia|done].
    - exists [GetTags]. rewrite Hreq3, Hreq2. subst wa. simpl.
      rewrite <- !app_assoc. split_and!; [done|lia|by repeat constructor].
    - eexists [GetKanbanStatuses _]. rewrite Hreq3, Hreq2. subst wa. simpl.
      rewrite <- !app_assoc. split_and!; [done|lia|by repeat constructor].
    - eexists [GetKanbanStatuses _; GetTags]. rewrite Hreq3, Hreq2. subst wa. simpl.
      rewrite <- !app_assoc. split_and!; [done|lia|by repeat constructor]. }
  destruct Hw3 as (Hrem & more & Hreq & Hlen & Hall).
  assert (Hfin : remote w' = remote w3 ∧ requests w' = requests w3).
  { destruct (taskKanbanStatus_of (remote w0) taskId), rb, rc;
      simpl in Hrun; by injection Hrun as <- <-. }
  destruct Hfin as [-> ->]. split; [done|].
  exists (GetTask taskId :: GetTaskKanbanStatus taskId :: more).
  split_and!; [done|simpl; lia|by repeat constructor|done].
Qed.

Lemma filter_sublist {A} (P : A → bool) (l : list A) : sublist (List.filter P l) l.
Proof.
  induction l as [|x l IH]; simpl; [constructor|].
  destruct (P x); by constructor.
Qed.

(** X24 — The tags of a task: when [getTagsByIds] resolves, the tag cache
    holds a list of tags, and the result consists of exactly those of them
    whose id is among the given ids, in the order they have in that list
    (not in the order of the ids); an id that no tag has is passed over
    silently. *)
Theorem getTagsByIds_result
    (tagIds : list string) (w : World) (tags : list SingularityTag.t) (w' : World) :
  getTagsByIds tagIds w = (Ok tags, w') →
  ∃ e, tagsCache w' = Some e
       ∧ (∀ tag, tag ∈ tags ↔ tag ∈ CacheEntry.data e ∧ SingularityTag.id tag ∈ tagIds)
       ∧ sublist tags (CacheEntry.data e).
Proof.
  unfold getTagsByIds, MNotations.bind, MNotations.ret.
  pose proof (getTags_sent w) as H. destruct (getTags w) as [[allTags|e] w1]; [|done].
  intros [= <- <-]. destruct H as (_ & _ & _ & _ & _ & H). specialize (H _ eq_refl).
  destruct (tagsCache w1) as [e|]; [|done]. injection H as H.
  exists e. split; [done|]. rewrite H. split; [|apply filter_sublist].
  intros tag. rewrite !list_elem_of_In, List.filter_In. unfold hasId.
  rewrite existsb_exists. split.
  - by intros [Hin (x & Hx & ->%String.eqb_eq)].
  - intros [Hin Hid]. split; [done|]. exists (SingularityTag.id tag).
    split; [done|apply String.eqb_refl].
Qed.

(** X25 — [preloadTags] never rejects and touches neither the task cache
    nor the status cache.  With nothing cached, a token and a store that
    answers, it sends the request for the tags and caches the answer; when
    the store rejects that request the tag cache is left as it was. *)
Theorem preloadTags_never_rejects (w : World) :
  let '(r, w') := preloadTags w in
  r = Ok tt
  ∧ taskCache w' = taskCache w ∧ kanbanCache w' = kanbanCache w
  ∧ (∀ ts, tagsCache w = None → Regex.isEmpty (token w) = false →
           all_tags (remote w) = Ok ts →
           CacheEntry.data <$> tagsCache w' = Some ts ∧ sentBetween w w' = [GetTags])
  ∧ (∀ e, all_tags (remote w) = Throw e → tagsCache w' = tagsCache w).
Proof.
  unfold preloadTags, try_catch, MNotations.bind, MNotations.ret.
  pose proof (getTags_sent w) as H. pose proof (getTags_miss w) as Hmiss.
  destruct (getTags w) as [[ts0|e0] w1];
    destruct H as (_ & _ & Htc & Hkan & Hreq & Hok).
  - split_and!; try done.
    + intros ts Hnone Htok Hts. rewrite Hts in Hmiss. specialize (Hmiss Htok Hnone).
      injection Hmiss as -> ->. split; [done|]. by apply sentBetween_app.
    + intros e He. destruct Hreq as [[_ Hsame]|[_ [Hts _]]]; [done|congruence].
  - split_and!; try done.
    + intros ts Hnone Htok Hts. rewrite Hts in Hmiss. by specialize (Hmiss Htok Hnone).
    + intros e He. destruct Hreq as [[_ Hsame]|[_ [_ Hsame]]]; done.
Qed.

End CacheExtras2.

Section CacheExtraExamples.

Import TaskCache MNotations.

Lemma getTaskData_read_back_witness :
  ∃ td e,
    fst (getTaskData Sample.locales "T-1" Sample.cancelled) = Ok td
    ∧ taskCache (snd (getTaskData Sample.locales "T-1" Sample.cancelled)) !! "T-1" = Some e
    ∧ CacheEntry.data e = td.
Proof.
  assert (Hfst : ∃ td, fst (getTaskData Sample.locales "T-1" Sample.cancelled) = Ok td)
    by (eexists; vm_compute; reflexivity).
  destruct Hfst as [td Hfst].
  destruct (getTaskData Sample.locales "T-1" Sample.cancelled) as [r w1] eqn:Hrun.
  simpl in Hfst. subst r.
  destruct (getTaskData_read_back Sample.locales "T-1" Sample.cancelled td w1 Hrun)
    as (e & He & Hd & _).
  exists td, e. split; [reflexivity|]. split; [exact He|exact Hd].
Defined.

Lemma getTaskData_keeps_partial_results_witness :
  fst (getTaskData Sample.locales "T-1" Sample.statusDown) = Throw (ApiError 503)
  ∧ CacheEntry.data <$> kanbanCache (snd (getTaskData Sample.locales "T-1" Sample.statusDown)) !! "P-1"
    = Some Sample.board
  ∧ taskCache (snd (getTaskData Sample.locales "T-1" Sample.statusDown)) !! "T-1" = None.
Proof.
  pose proof (getTaskData_keeps_partial_results Sample.locales "T-1" Sample.statusDown
                (Sample.task None 0) (ApiError 503) Sample.board []) as H.
  destruct (getTaskData Sample.locales "T-1" Sample.statusDown) as [r w'].
  destruct H as (Hr & Htc & Hk & _).
  - reflexivity.
  - reflexivity.
  - reflexivity.
  - reflexivity.
  - reflexivity.
  - reflexivity.
  - reflexivity.
  - reflexivity.
  - split; [exact Hr|]. split; [exact Hk|exact Htc].
Defined.

Lemma invalidateAll_then_getTaskData_witness :
  sentBetween (snd (invalidateAll Sample.atTTL))
    (snd (getTaskData Sample.locales "T-1" (snd (invalidateAll Sample.atTTL))))
  = [GetTask "T-1"; GetTaskKanbanStatus "T-1"; GetKanbanStatuses "P-1"; GetTags].
Proof.
  pose proof (invalidateAll_then_getTaskData Sample.locales "T-1" Sample.atTTL
                (Sample.task None 0) [] Sample.board []) as H.
  cbv zeta in H.
  destruct (getTaskData Sample.locales "T-1" (snd (invalidateAll Sample.atTTL))) as [r w'].
  destruct H as (_ & _ & _ & Hsent & _).
  - reflexivity.
  - reflexivity.
  - reflexivity.
  - reflexivity.
  - reflexivity.
  - exact Hsent.
Defined.

Lemma invalidateTask_then_getTaskData_witness :
  sentBetween (snd (invalidateTask "T-1" Sample.atTTL))
    (snd (getTaskData Sample.locales "T-1" (snd (invalidateTask "T-1" Sample.atTTL))))
  = [GetTask "T-1"; GetTaskKanbanStatus "T-1"].
Proof.
  pose proof (invalidateTask_then_getTaskData Sample.locales "T-1" Sample.atTTL
                (Sample.task None 0)
                {| CacheEntry.data := Sample.board; CacheEntry.timestamp := 1700000000000 |}
                {| CacheEntry.data := []; CacheEntry.timestamp := 1700000000000 |}) as H.
  cbv zeta in H.
  destruct (getTaskData Sample.locales "T-1" (snd (invalidateTask "T-1" Sample.atTTL)))
    as [r w'].
  destruct H as (_ & _ & Hsent & _).
  - reflexivity.
  - reflexivity.
  - reflexivity.
  - reflexivity.
  - simpl. lia.
  - simpl. lia.
  - exact Hsent.
Defined.

Lemma setLanguage_relabels_witness :
  ∃ td, fst (getTaskData Sample.locales "T-1" (snd (setLanguage ru Sample.cancelled))) = Ok td
        ∧ TaskData.status td
          = Some {| Status.id := "CANCELLED";
                    Status.name := statusCancelled (Sample.locales ru) |}.
Proof.
  pose proof (setLanguage_relabels Sample.locales ru "T-1" Sample.cancelled eq_refl) as H.
  cbv zeta in H.
  assert (Hfst : ∃ td, fst (getTaskData Sample.locales "T-1"
                              (snd (setLanguage ru Sample.cancelled))) = Ok td
                       ∧ TaskData.isCancelled td = true)
    by (eexists; split; vm_compute; reflexivity).
  destruct Hfst as (td & Hfst & Hc).
  destruct (getTaskData Sample.locales "T-1" (snd (setLanguage ru Sample.cancelled)))
    as [r w'].
  simpl in Hfst. subst r. destruct H as (_ & _ & _ & H).
  exists td. split; [reflexivity|]. exact (proj1 (H td eq_refl) Hc).
Defined.

Lemma getTagsByIds_result_witness :
  ∃ tags, fst (getTagsByIds ["A-2"; "A-9"] Sample.tagged) = Ok tags
          ∧ (Sample.home ∈ tags ∧ Sample.urgent ∉ tags).
Proof.
  assert (Hfst : fst (getTagsByIds ["A-2"; "A-9"] Sample.tagged) = Ok [Sample.home])
    by (vm_compute; reflexivity).
  assert (Hcache : tagsCache (snd (getTagsByIds ["A-2"; "A-9"] Sample.tagged))
                   = Some {| CacheEntry.data := [Sample.urgent; Sample.home];
                             CacheEntry.timestamp := 1700000000000 |})
    by (vm_compute; reflexivity).
  destruct (getTagsByIds ["A-2"; "A-9"] Sample.tagged) as [r w'] eqn:Hrun.
  simpl in Hfst, Hcache. subst r.
  destruct (getTagsByIds_result _ _ _ _ Hrun) as (e & He & Hmem & _).
  rewrite Hcache in He. injection He as <-.
  exists [Sample.home]. split; [reflexivity|]. split.
  - apply Hmem. split; [by right; left|by left].
  - intros [_ Hid]%Hmem. simpl in Hid.
    apply list_elem_of_In in Hid. simpl in Hid. by destruct Hid as [|[|]].
Defined.

End CacheExtraExamples.

(** ** renderer/livePreview.ts *)


Section LivePreviewFacts.

Import LivePreview.

Lemma get_app_length a b : String.get (String.length a) (a +:+ b) = String.get 0 b.
Proof. induction a as [|c a IH]; simpl; [done|]. exact IH. Qed.

Lemma get_app_r a b n : String.get (String.length a + n) (a +:+ b) = String.get n b.
Proof. induction a as [|c a IH]; simpl; [done|]. exact IH. Qed.

Lemma get_dropChars n s k : String.get k (dropChars n s) = String.get (n + k) s.
Proof.
  revert s. induction n as [|n IH]; intros [|c s]; simpl; done.
Qed.

Lemma get_length s i c : String.get i s = Some c → (i < String.length s)%nat.
Proof.
  revert i. induction s as [|d s IH]; intros [|i]; simpl; try done; [lia|].
  intros H%IH. lia.
Qed.

Lemma bracketBefore_Some stop text p b :
  bracketBefore stop text p = Some b →
  (b < p)%nat ∧ String.get b text = Some "["%char
  ∧ ∀ i, (b < i < p)%nat →
         String.get i text ≠ Some "["%char
         ∧ (stop = true → String.get i text ≠ Some "]"%char).
Proof.
  induction p as [|p IH]; [done|]. cbn [bracketBefore].
  assert (Hstep : bracketBefore stop text p = Some b →
                  String.get p text ≠ Some "["%char →
                  (stop = true → String.get p text ≠ Some "]"%char) →
                  (b < S p)%nat ∧ String.get b text = Some "["%char
                  ∧ ∀ i, (b < i < S p)%nat →
                         String.get i text ≠ Some "["%char
                         ∧ (stop = true → String.get i text ≠ Some "]"%char)).
  { intros (Hb & Hget & Hbetween)%IH Hp1 Hp2. split; [lia|]. split; [done|].
    intros i Hi. destruct (decide (i = p)) as [->|Hne]; [done|]. apply Hbetween. lia. }
  destruct (String.get p text) as [c|] eqn:Hc; [|by intros H; apply Hstep].
  destruct (Ascii.eqb_spec c "[") as [->|Hopen].
  { intros [= <-]. split; [lia|]. split; [done|]. intros i Hi. lia. }
  destruct (Ascii.eqb_spec c "]") as [->|Hclose]; simpl.
  - destruct stop; [done|]. intros H. apply Hstep; [done|done|done].
  - intros H. apply Hstep; [done|congruence|congruence].
Qed.

Lemma bracketBefore_stop text p b :
  bracketBefore true text p = Some b → bracketBefore false text p = Some b.
Proof.
  induction p as [|p IH]; [done|]. cbn [bracketBefore].
  destruct (String.get p text) as [c|]; [|done].
  destruct (Ascii.eqb c "["); [done|].
  rewrite andb_true_r, andb_false_r. by destruct (Ascii.eqb c "]").
Qed.

Lemma afterFirst_Some c s t :
  afterFirst c s = Some t →
  ∃ x, s = x +:+ String c t ∧ lacks c x = true.
Proof.
  revert t. induction s as [|d s IH]; intros t; simpl; [done|].
  destruct (Ascii.eqb_spec d c) as [->|Hne].
  - intros [= <-]. by exists EmptyString.
  - intros (x & -> & Hx)%IH. exists (String d x). split; [done|]. simpl.
    rewrite Hx. by destruct (Ascii.eqb_spec d c).
Qed.

Lemma beforeFirst_Some c s x :
  beforeFirst c s = Some x → ∃ t, s = x +:+ String c t ∧ lacks c x = true.
Proof.
  revert x. induction s as [|d s IH]; intros x; simpl; [done|].
  destruct (Ascii.eqb_spec d c) as [->|Hne].
  - intros [= <-]. by exists s.
  - destruct (beforeFirst c s) as [y|]; [|done]. intros [= <-].
    destruct (IH y eq_refl) as (t & -> & Hy). exists t. split; [done|]. simpl.
    rewrite Hy. by destruct (Ascii.eqb_spec d c).
Qed.

Lemma parenFrom_Some rest i :
  (∃ k, String.get k rest = Some ")"%char) →
  ∃ e, parenFrom rest i = Some e ∧ (i < e)%nat ∧ (e <= i + String.length rest)%nat
       ∧ String.get (e - 1 - i) rest = Some ")"%char.
Proof.
  revert i. induction rest as [|c rest IH]; intros i [k Hk]; [done|]. cbn [parenFrom].
  destruct (Ascii.eqb_spec c ")") as [->|Hne].
  - exists (S i). split; [done|]. split; [lia|]. split; [simpl; lia|].
    by replace (S i - 1 - i)%nat with 0%nat by lia.
  - destruct k as [|k]; simpl in Hk; [congruence|].
    destruct (IH (S i) (ex_intro _ k Hk)) as (e & -> & Hlt & Hle & Hget).
    exists e. split; [done|]. split; [lia|]. split; [simpl; lia|].
    replace (e - 1 - i)%nat with (S (e - 1 - S i)) by lia. exact Hget.
Qed.

Lemma lacks_get c s i : lacks c s = true → String.get i s ≠ Some c.
Proof.
  revert i. induction s as [|d s IH]; intros i; simpl; [by destruct i|].
  intros [Hd Hs]%andb_prop. destruct i as [|i]; [|by apply IH].
  intros [= ->]. by rewrite Ascii.eqb_refl in Hd.
Qed.

End LivePreviewFacts.

Section LivePreviewExtras.

Import LivePreview.

(** X26 — [isInsideMarkdownLink] is false at every position that directly
    follows a closing bracket and an opening parenthesis: the search
    backwards gives up at the closing bracket.  So a reference that is the
    target of a markdown link, [[title](reference)], is not reported as
    inside a link. *)
Theorem isInsideMarkdownLink_after_target (before after : string) :
  isInsideMarkdownLink (before +:+ "](" +:+ after) (String.length before + 2) = false.
Proof.
  unfold isInsideMarkdownLink.
  replace (String.length before + 2)%nat with (S (S (String.length before))) by lia.
  cbn [bracketBefore].
  replace (S (String.length before)) with (String.length before + 1)%nat at 1 by lia.
  rewrite get_app_r. cbn [String.get]. simpl.
  rewrite get_app_length. by simpl.
Qed.

(** X27 — Where [isInsideMarkdownLink] holds, [findMarkdownLink] returns a
    range: it starts at an opening bracket before the position, ends
    right after a closing parenthesis behind the position, and lies within
    the text. *)
Theorem isInsideMarkdownLink_found (text : string) (position : nat) :
  isInsideMarkdownLink text position = true →
  ∃ linkStart linkEnd,
    findMarkdownLink text position = Some (linkStart, linkEnd)
    ∧ (linkStart < position < linkEnd)%nat
    ∧ (linkEnd <= String.length text)%nat
    ∧ String.get linkStart text = Some "["%char
    ∧ String.get (linkEnd - 1) text = Some ")"%char.
Proof.
  unfold isInsideMarkdownLink, findMarkdownLink.
  destruct (bracketBefore true text position) as [b|] eqn:Hb; [|done].
  rewrite (bracketBefore_stop _ _ _ Hb).
  apply bracketBefore_Some in Hb as (Hlt & Hopen & Hbetween).
  unfold linkPattern. destruct (dropChars b text) as [|c rest] eqn:Hdrop; [done|].
  intros [_ H]%andb_prop.
  destruct (afterFirst "]" rest) as [[|d target]|] eqn:Hafter; try done.
  apply andb_prop in H as [Hd H]. apply Ascii.eqb_eq in Hd. subst d.
  destruct (beforeFirst ")" target) as [inner|] eqn:Hinner; [|done].
  apply afterFirst_Some in Hafter as (x & -> & Hx).
  apply beforeFirst_Some in Hinner as (t & -> & Hin).
  (* positions in [text] of the characters of [dropChars b text] *)
  assert (Hat : ∀ k, String.get (b + k) text
                     = String.get k (String c (x +:+ String "]" (String "(" (inner +:+ String ")" t))))).
  { intros k. by rewrite <- get_dropChars, Hdrop. }
  (* the closing bracket is not before [position] *)
  assert (Hclose : (position <= b + 1 + String.length x)%nat).
  { destruct (Nat.le_gt_cases position (b + 1 + String.length x)) as [|Hgt]; [done|].
    exfalso. destruct (Hbetween (b + S (String.length x))%nat ltac:(lia)) as [_ Hno].
    apply (Hno eq_refl). rewrite Hat. cbn [String.get].
    replace (String.length x) with (String.length x + 0)%nat at 1 by lia.
    by rewrite get_app_r. }
  (* hence a closing parenthesis lies at or after [position] *)
  set (j := (b + S (String.length x + S (S (String.length inner))))%nat).
  assert (Hparen : String.get j text = Some ")"%char).
  { subst j. rewrite Hat. cbn [String.get].
    rewrite get_app_r. cbn [String.get].
    replace (String.length inner) with (String.length inner + 0)%nat at 1 by lia.
    by rewrite get_app_r. }
  destruct (parenFrom_Some (dropChars position text) position) as (e & -> & He1 & He2 & He3).
  { exists (j - position)%nat. rewrite get_dropChars.
    replace (position + (j - position))%nat with j by (subst j; lia). done. }
  rewrite get_dropChars in He3.
  replace (position + (e - 1 - position))%nat with (e - 1)%nat in He3 by lia.
  exists b, e. split; [done|]. split; [lia|]. split; [|done].
  apply get_length in He3. lia.
Qed.

Lemma isInsideMarkdownLink_found_witness :
  let text := "see [singularityapp://?&page=any&id=T-1](singularityapp://?&page=any&id=T-1)." in
  isInsideMarkdownLink text 5 = true
  ∧ findMarkdownLink text 5 = Some (4%nat, 76%nat).
Proof.
  intros text. split; [reflexivity|].
  destruct (isInsideMarkdownLink_found text 5 eq_refl) as (s & e & Hfind & _).
  reflexivity.
Defined.

End LivePreviewExtras.

(** ** sync/obsidianLink.ts: field names and the front matter *)
Section PartsFacts.

Import FrontMatterTree FrontMatterPaths.

Lemma append_cons c a b : String c a +:+ b = String c (a +:+ b).
Proof. done. Qed.

Lemma append_empty_r s : s +:+ "" = s.
Proof. induction s as [|c s IH]; [done|]. by rewrite append_cons, IH. Qed.

Lemma takeWhile_dropWhile P s : Regex.takeWhile P s +:+ dropWhile P s = s.
Proof.
  induction s as [|c s IH]; [done|]. simpl.
  destruct (P c); [by rewrite append_cons, IH|done].
Qed.

Lemma dropWhile_length P s : (String.length (dropWhile P s) <= String.length s)%nat.
Proof. induction s as [|c s IH]; [done|]. simpl. destruct (P c); simpl; lia. Qed.

Lemma dropWhile_shorter P s :
  Regex.isEmpty (Regex.takeWhile P s) = false →
  (String.length (dropWhile P s) < String.length s)%nat.
Proof.
  destruct s as [|c s]; [done|]. simpl. destruct (P c); [|done].
  intros _. pose proof (dropWhile_length P s). lia.
Qed.

Lemma dropWhile_app_stop P s d t :
  P d = false → dropWhile P (s +:+ String d t) = dropWhile P s +:+ String d t.
Proof.
  intros Hd. induction s as [|c s IH]; [simpl; by rewrite Hd|].
  rewrite append_cons. simpl. destruct (P c); [by rewrite IH|done].
Qed.

Lemma bracketed_shorter s digits rest :
  bracketed s = Some (digits, rest) → (String.length rest < String.length s)%nat.
Proof.
  destruct s as [|c s1]; [done|]. simpl. destruct (Ascii.eqb c "["); [|done].
  pose proof (dropWhile_length isDigit s1) as Hlen.
  destruct (dropWhile isDigit s1) as [|d r]; [done|].
  destruct (_ && _); [|done]. intros [= _ <-]. simpl in Hlen. lia.
Qed.

(** More fuel than the length of the text changes nothing. *)
Lemma matchAll_fuel n : ∀ fuel fuel' s,
  (String.length s <= n)%nat → (n <= fuel)%nat → (n <= fuel')%nat →
  matchAll fuel s = matchAll fuel' s.
Proof.
  induction n as [|n IH]; intros fuel fuel' s Hs Hf Hf'.
  - destruct s; [|simpl in Hs; lia]. by destruct fuel, fuel'.
  - destruct s as [|c s']; [by destruct fuel, fuel'|].
    destruct fuel as [|f]; [lia|]. destruct fuel' as [|f']; [lia|].
    simpl in Hs. cbn [matchAll].
    destruct (negb (Regex.isEmpty (Regex.takeWhile isNameChar (String c s')))) eqn:Hrun.
    + f_equal. apply IH; [|lia|lia].
      apply negb_true_iff in Hrun. apply dropWhile_shorter in Hrun. cbn [String.length] in Hrun. lia.
    + destruct (bracketed (String c s')) as [[digits rest]|] eqn:Hb.
      * f_equal. apply IH; [|lia|lia]. apply bracketed_shorter in Hb. cbn [String.length] in Hb. lia.
      * apply IH; lia.
Qed.

Lemma matchParts_nil : matchParts "" = [].
Proof. done. Qed.

(** The matches, position by position. *)
Lemma matchParts_cons c s' :
  matchParts (String c s')
  = if negb (Regex.isEmpty (Regex.takeWhile isNameChar (String c s')))
    then Key (Regex.takeWhile isNameChar (String c s'))
           :: matchParts (dropWhile isNameChar (String c s'))
    else match bracketed (String c s') with
         | Some (digits, rest) => Index digits :: matchParts rest
         | None => matchParts s'
         end.
Proof.
  unfold matchParts. cbn [String.length matchAll].
  destruct (negb (Regex.isEmpty (Regex.takeWhile isNameChar (String c s')))) eqn:Hrun.
  - f_equal. apply negb_true_iff in Hrun. apply dropWhile_shorter in Hrun.
    cbn [String.length] in Hrun.
    apply (matchAll_fuel (String.length (dropWhile isNameChar (String c s')))); lia.
  - destruct (bracketed (String c s')) as [[digits rest]|] eqn:Hb; [|done].
    f_equal. apply bracketed_shorter in Hb. cbn [String.length] in Hb.
    apply (matchAll_fuel (String.length rest)); lia.
Qed.

(** A delimiter other than the closing bracket ends the matches before it. *)
Lemma matchParts_split d t n : ∀ s,
  (String.length s <= n)%nat →
  isNameChar d = false → isDigit d = false → Ascii.eqb d "]" = false →
  matchParts (s +:+ String d t) = matchParts s ++ matchParts (String d t).
Proof.
  induction n as [|n IH]; intros s Hs Hname Hdigit Hclose.
  - destruct s; [done|simpl in Hs; lia].
  - destruct s as [|c s']; [done|]. simpl in Hs.
    rewrite append_cons, (matchParts_cons c (s' +:+ String d t)), (matchParts_cons c s').
    rewrite <- !(append_cons c s' (String d t)).
    rewrite (takeWhile_app_stop isNameChar), (dropWhile_app_stop isNameChar) by done.
    destruct (negb (Regex.isEmpty (Regex.takeWhile isNameChar (String c s')))) eqn:Hrun.
    + rewrite IH; [done| |done..].
      apply negb_true_iff in Hrun. apply dropWhile_shorter in Hrun. cbn [String.length] in Hrun. lia.
    + assert (Hb : bracketed (String c s' +:+ String d t)
                   = match bracketed (String c s') with
                     | Some (digits, rest) => Some (digits, rest +:+ String d t)
                     | None => None
                     end).
      { rewrite append_cons. cbn [bracketed]. destruct (Ascii.eqb c "["); [|done].
        rewrite (takeWhile_app_stop isDigit), (dropWhile_app_stop isDigit) by done.
        destruct (dropWhile isDigit s') as [|e r].
        - change ("" +:+ String d t) with (String d t). cbv iota. by rewrite Hclose.
        - rewrite append_cons. by destruct (_ && _). }
      rewrite Hb.
      destruct (bracketed (String c s')) as [[digits rest]|] eqn:Hb'.
      * rewrite IH; [done| |done..]. apply bracketed_shorter in Hb'. cbn [String.length] in Hb'. lia.
      * apply IH; [lia|done..].
Qed.

Lemma matchParts_dot s t : matchParts (s +:+ "." +:+ t) = matchParts s ++ matchParts t.
Proof.
  change (s +:+ "." +:+ t) with (s +:+ String "." t).
  rewrite (matchParts_split "." t (String.length s)) by done.
  f_equal.
Qed.

Lemma plainKey_run key :
  plainKey key = true →
  Regex.isEmpty key = false
  ∧ Regex.takeWhile isNameChar key = key ∧ dropWhile isNameChar key = "".
Proof.
  unfold plainKey. rewrite !andb_true_iff, negb_true_iff. intros [[[Hne H1] H2] H3].
  split; [done|]. clear Hne.
  induction key as [|c key IH]; [done|]. simpl in *.
  apply andb_true_iff in H1 as [Hc1 H1]. apply andb_true_iff in H2 as [Hc2 H2].
  apply andb_true_iff in H3 as [Hc3 H3].
  assert (Hc : isNameChar c = true).
  { unfold isNameChar, isDelimiter.
    apply negb_true_iff in Hc1, Hc2, Hc3. by rewrite Hc1, Hc2, Hc3. }
  rewrite Hc. destruct (IH H1 H2 H3) as [-> ->]. done.
Qed.

Lemma matchParts_key key : plainKey key = true → matchParts key = [Key key].
Proof.
  intros H. destruct key as [|c k]; [done|].
  destruct (plainKey_run _ H) as (Hne & Hrun & Hdrop).
  by rewrite matchParts_cons, Hrun, Hdrop.
Qed.

(** The field name of an entry, by its parts. *)
Lemma matchParts_child prefix key :
  plainKey key = true →
  matchParts (if Regex.isEmpty prefix then key else prefix +:+ "." +:+ key)
  = matchParts prefix ++ [Key key].
Proof.
  intros H. destruct prefix as [|c p]; simpl Regex.isEmpty; cbv iota.
  - by rewrite (matchParts_key key H).
  - by rewrite matchParts_dot, (matchParts_key key H).
Qed.

Lemma string_of_uint_digits d t :
  Regex.takeWhile isDigit (NilEmpty.string_of_uint d +:+ t)
  = NilEmpty.string_of_uint d +:+ Regex.takeWhile isDigit t
  ∧ dropWhile isDigit (NilEmpty.string_of_uint d +:+ t) = dropWhile isDigit t.
Proof. induction d; simpl; try done; by destruct IHd as [-> ->]. Qed.

Lemma showIndex_nonempty n : Regex.isEmpty (showIndex n) = false.
Proof.
  unfold showIndex. destruct (N.to_uint n) eqn:E; try done.
  pose proof (DecimalN.Unsigned.of_to n) as H. rewrite E in H. simpl in H. subst n. done.
Qed.

Lemma parseInt_showIndex n : parseInt (showIndex n) = Some n.
Proof.
  unfold parseInt, showIndex. rewrite NilEmpty.usu. simpl.
  by rewrite DecimalN.Unsigned.of_to.
Qed.

Lemma showIndex_inj n m : showIndex n = showIndex m → n = m.
Proof.
  intros H. pose proof (parseInt_showIndex n) as Hn. rewrite H, parseInt_showIndex in Hn.
  by injection Hn.
Qed.

(** The field name of an array item, by its parts. *)
Lemma matchParts_item fieldName n :
  matchParts (fieldName +:+ "[" +:+ showIndex n +:+ "]")
  = matchParts fieldName ++ [Index (showIndex n)].
Proof.
  change (fieldName +:+ "[" +:+ showIndex n +:+ "]")
    with (fieldName +:+ String "[" (showIndex n +:+ "]")).
  rewrite (matchParts_split "[" _ (String.length fieldName)) by done.
  f_equal. rewrite matchParts_cons.
  change (Regex.takeWhile isNameChar (String "[" (showIndex n +:+ "]"))) with "".
  cbn [Regex.isEmpty negb bracketed]. change (Ascii.eqb "[" "[") with true. cbv iota.
  unfold showIndex at 1 2 3.
  destruct (string_of_uint_digits (N.to_uint n) "]") as [-> ->].
  simpl dropWhile. simpl Regex.takeWhile. fold (showIndex n).
  rewrite append_empty_r, showIndex_nonempty. done.
Qed.

End PartsFacts.

Section PathFacts.

Import FrontMatterTree FrontMatterPaths.

(** Induction on a value, through its items and its entries. *)
Lemma Value_nested_ind (P : Value → Prop) :
  (∀ s, P (VString s)) → P VNull → (∀ truthy, P (VOther truthy)) →
  (∀ items, P (VArray items)) →
  (∀ entries, Forall (fun entry => P entry.2) entries → P (VObject entries)) →
  ∀ value, P value.
Proof.
  intros Hs Hn Ho Ha He. fix IH 1.
  intros [s| |b|items|entries]; [apply Hs|apply Hn|apply Ho|apply Ha|].
  apply He. induction entries as [|[key v] entries IHentries]; constructor.
  - apply IH.
  - apply IHentries.
Qed.

Lemma arrayRefs_paths fieldName items : ∀ idx,
  arrayRefs items idx fieldName
  = map (fun ref => (ref.1, render fieldName ref.2)) (arrayPaths items idx).
Proof.
  induction items as [|item items IH]; intros idx; [done|]. cbn [arrayRefs arrayPaths].
  rewrite map_app, IH. f_equal.
  destruct item as [s| | | |]; try done. by destruct (startsWith s "singularityapp://").
Qed.

(** What [findAllSingularityUrls] pushes: the references, each under the
    field name of its parts. *)
Lemma pushedFor_paths value : ∀ fieldName,
  pushedFor value fieldName
  = map (fun ref => (ref.1, render fieldName ref.2)) (paths value).
Proof.
  induction value as [s| |b|items|entries IH] using Value_nested_ind; intros fieldName;
    try done.
  - cbn [pushedFor paths]. by destruct (startsWith s "singularityapp://").
  - apply arrayRefs_paths.
  - cbn [pushedFor paths].
    induction entries as [|[key v] entries IHentries]; [done|].
    apply Forall_cons in IH as [Hv IH]. cbn [forEntries entryPaths].
    rewrite map_app, (IHentries IH), (Hv _), map_map. done.
Qed.

Lemma matchParts_render parts : ∀ fieldName,
  Forall goodPart parts →
  matchParts (render fieldName parts) = matchParts fieldName ++ parts.
Proof.
  induction parts as [|part parts IH]; intros fieldName Hgood.
  - by rewrite app_nil_r.
  - apply Forall_cons in Hgood as [Hpart Hgood]. destruct part as [name|digits].
    + cbn [render]. rewrite (IH _ Hgood), (matchParts_child _ _ Hpart), <- app_assoc. done.
    + destruct Hpart as [n ->]. cbn [render].
      rewrite (IH _ Hgood), matchParts_item, <- app_assoc. done.
Qed.

(** The references of an array: item [i] under the index [idx + i]. *)
Lemma arrayPaths_elem items : ∀ idx url parts,
  (url, parts) ∈ arrayPaths items idx ↔
  ∃ i, items !! i = Some (VString url)
       ∧ startsWith url "singularityapp://" = true
       ∧ parts = [Index (showIndex (N.of_nat (idx + i)))].
Proof.
  induction items as [|item items IH]; intros idx url parts.
  - cbn [arrayPaths]. split; [by intros ?%elem_of_nil|by intros (i & ? & _)].
  - cbn [arrayPaths]. rewrite elem_of_app, IH. split.
    + intros [H|(i & Hi & Hs & ->)].
      * destruct item as [s| | | |]; try by apply elem_of_nil in H.
        destruct (startsWith s "singularityapp://") eqn:Hs; [|by apply elem_of_nil in H].
        apply list_elem_of_singleton in H as [= -> ->].
        exists 0%nat. by rewrite Nat.add_0_r.
      * exists (S i). by rewrite Nat.add_succ_r.
    + intros ([|i] & Hi & Hs & ->).
      * left. injection Hi as ->. rewrite Hs, Nat.add_0_r. by apply list_elem_of_singleton.
      * right. exists i. by rewrite Nat.add_succ_r.
Qed.

Lemma entryPaths_elem entries : ∀ url parts,
  (url, parts) ∈ entryPaths paths entries ↔
  ∃ key v rest, (key, v) ∈ entries ∧ (url, rest) ∈ paths v ∧ parts = Key key :: rest.
Proof.
  induction entries as [|[key v] entries IH]; intros url parts.
  - cbn [entryPaths]. split; [by intros ?%elem_of_nil|].
    by intros (? & ? & ? & ?%elem_of_nil & _).
  - cbn [entryPaths]. rewrite elem_of_app, IH, list_elem_of_fmap. split.
    + intros [([u q] & [= -> ->] & H)|(k & w & rest & H1 & H2 & ->)].
      * exists key, v, q. split_and!; [left|done..].
      * exists k, w, rest. split_and!; [by right|done..].
    + intros (k & w & rest & H1 & H2 & ->). apply elem_of_cons in H1 as [[= -> ->]|H1].
      * left. by exists (url, rest).
      * right. by exists k, w, rest.
Qed.

Lemma plain_entries entries :
  plain (VObject entries) = true →
  NoDup (entries.*1)
  ∧ Forall (fun entry => plainKey entry.1 = true ∧ plain entry.2 = true) entries.
Proof.
  cbn [plain]. intros [Hnd Hall]%andb_true_iff. split; [by apply bool_decide_eq_true in Hnd|].
  apply Forall_forall. intros [key v] Hin. rewrite forallb_forall in Hall.
  apply list_elem_of_In in Hin. apply Hall in Hin. by apply andb_true_iff in Hin.
Qed.

Lemma plain_entry entries key v :
  plain (VObject entries) = true → (key, v) ∈ entries →
  plainKey key = true ∧ plain v = true.
Proof.
  intros [_ Hall]%plain_entries Hin. rewrite Forall_forall in Hall. apply (Hall _ Hin).
Qed.

(** With each key once, an entry is the own property of its key. *)
Lemma own_elem entries key v :
  NoDup (entries.*1) → (key, v) ∈ entries → own entries key = Some v.
Proof.
  induction entries as [|[k w] entries IH]; [by intros _ ?%elem_of_nil|].
  cbn [fmap list_fmap fst own]. intros [Hk Hnd]%NoDup_cons [[= -> ->]|Hin]%elem_of_cons.
  - by rewrite String.eqb_refl.
  - destruct (String.eqb_spec k key) as [->|_]; [|by apply IH].
    destruct Hk. apply list_elem_of_fmap. by exists (key, v).
Qed.

Lemma paths_good value : ∀ url parts,
  plain value = true → (url, parts) ∈ paths value → Forall goodPart parts.
Proof.
  induction value as [s| |b|items|entries IH] using Value_nested_ind; intros url parts Hplain Hin;
    try by apply elem_of_nil in Hin.
  - cbn [paths] in Hin. destruct (startsWith s "singularityapp://"); [|by apply elem_of_nil in Hin].
    by apply list_elem_of_singleton in Hin as [= _ ->].
  - apply arrayPaths_elem in Hin as (i & _ & _ & ->). repeat constructor. by eexists.
  - apply entryPaths_elem in Hin as (key & v & rest & Hentry & Hrest & ->).
    destruct (plain_entry _ _ _ Hplain Hentry) as [Hkey Hv].
    rewrite Forall_forall in IH. constructor; [done|]. by apply (IH _ Hentry url).
Qed.

Lemma readParts_paths value : ∀ url parts,
  plain value = true → (url, parts) ∈ paths value →
  readParts parts value = Known (Some (VString url)).
Proof.
  induction value as [s| |b|items|entries IH] using Value_nested_ind; intros url parts Hplain Hin;
    try by apply elem_of_nil in Hin.
  - cbn [paths] in Hin. destruct (startsWith s "singularityapp://"); [|by apply elem_of_nil in Hin].
    by apply list_elem_of_singleton in Hin as [= -> ->].
  - apply arrayPaths_elem in Hin as (i & Hi & _ & ->).
    change (0 + i)%nat with i.
    cbn [readParts getProperty]. rewrite parseInt_showIndex, Nat2N.id, Hi. done.
  - apply entryPaths_elem in Hin as (key & v & rest & Hentry & Hrest & ->).
    destruct (plain_entries _ Hplain) as [Hnd _].
    destruct (plain_entry _ _ _ Hplain Hentry) as [Hkey Hv].
    cbn [readParts getProperty]. rewrite (own_elem _ _ _ Hnd Hentry).
    rewrite Forall_forall in IH. by apply (IH _ Hentry).
Qed.

Lemma arrayPaths_NoDup items : ∀ idx, NoDup (arrayPaths items idx).*2.
Proof.
  induction items as [|item items IH]; intros idx; [constructor|].
  cbn [arrayPaths]. rewrite fmap_app. apply NoDup_app. split_and!; [| |apply IH].
  - destruct item as [s| | | |]; try constructor.
    destruct (startsWith s "singularityapp://"); [apply NoDup_singleton|constructor].
  - intros q Hq ([u q'] & -> & Hin)%list_elem_of_fmap.
    apply arrayPaths_elem in Hin as (i & _ & _ & ->).
    destruct item as [s| | | |]; try by apply elem_of_nil in Hq.
    destruct (startsWith s "singularityapp://"); [|by apply elem_of_nil in Hq].
    apply list_elem_of_singleton in Hq. cbn [snd] in Hq.
    injection Hq as Hq%showIndex_inj. lia.
Qed.

Lemma paths_NoDup value : plain value = true → NoDup (paths value).*2.
Proof.
  induction value as [s| |b|items|entries IH] using Value_nested_ind; intros Hplain;
    try constructor.
  - cbn [paths]. destruct (startsWith s "singularityapp://"); [apply NoDup_singleton|constructor].
  - apply arrayPaths_NoDup.
  - cbn [paths]. destruct (plain_entries _ Hplain) as [Hnd Hall]. clear Hplain.
    induction entries as [|[key v] entries IHentries]; [constructor|].
    apply Forall_cons in IH as [Hv IH]. apply Forall_cons in Hall as [[_ Hpv] Hall].
    cbn [fmap list_fmap fst] in Hnd. apply NoDup_cons in Hnd as [Hkey Hnd].
    cbn [entryPaths]. rewrite fmap_app. apply NoDup_app. split_and!.
    + rewrite <- list_fmap_compose.
      change (snd ∘ (fun ref : string * list Part => (ref.1, Key key :: ref.2)))
        with (cons (Key key) ∘ (snd : string * list Part → list Part)).
      rewrite list_fmap_compose.
      apply NoDup_fmap_2_strong; [|by apply Hv].
      by intros q q' _ _ [= ->].
    + intros q ([u q0] & -> & ([u1 q1] & [= -> ->] & Hin1)%list_elem_of_fmap)%list_elem_of_fmap.
      intros ([u2 q2] & E & Hin2)%list_elem_of_fmap. cbn [snd] in E. subst q2.
      apply entryPaths_elem in Hin2 as (k & w & rest & Hentry & _ & [= -> ->]).
      destruct Hkey. apply list_elem_of_fmap. by exists (k, w).
    + by apply IHentries.
Qed.

End PathFacts.

Section WriteFacts.

Import FrontMatterTree FrontMatterPaths.

Lemma bump_other parts sid (l : list (string * list Part)) :
  (∀ ref, ref ∈ l → ref.2 ≠ parts) → map (bump parts sid) l = l.
Proof.
  intros H. induction l as [|ref l IH]; [done|]. cbn [map]. rewrite IH.
  - f_equal. unfold bump. destruct ref as [u q]. cbn [fst snd].
    destruct (decide (q = parts)) as [E|_]; [|done].
    destruct (H (u, q)); [left|done].
  - intros r Hr. apply H. by right.
Qed.

Lemma bump_cons key parts sid (l : list (string * list Part)) :
  map (bump (Key key :: parts) sid) (map (fun ref => (ref.1, Key key :: ref.2)) l)
  = map (fun ref => (ref.1, Key key :: ref.2)) (map (bump parts sid) l).
Proof.
  rewrite !map_map. apply map_ext. intros [u q]. unfold bump. cbn [fst snd].
  destruct (decide (q = parts)) as [->|Hne].
  - by rewrite decide_True.
  - rewrite decide_False; [done|]. by intros [= E].
Qed.

Lemma startsWith_nonempty s p :
  startsWith s p = true → Regex.isEmpty p = false → Regex.isEmpty s = false.
Proof. by destruct s, p. Qed.

Lemma startsWith_appended url sid :
  startsWith url "singularityapp://" = true →
  startsWith (if includes url "#sid=" then url else url +:+ "#sid=" +:+ sid)
    "singularityapp://" = true.
Proof. intros H. destruct (includes url "#sid="); [done|]. by apply startsWith_app. Qed.

(** The references of an array after a write to item [i]. *)
Lemma arrayPaths_insert sid items : ∀ idx i url,
  items !! i = Some (VString url) →
  startsWith url "singularityapp://" = true →
  arrayPaths
    (<[i := VString (if includes url "#sid=" then url else url +:+ "#sid=" +:+ sid)]> items)
    idx
  = map (bump [Index (showIndex (N.of_nat (idx + i)))] sid) (arrayPaths items idx).
Proof.
  induction items as [|item items IH]; intros idx i url Hi Hs; [done|].
  destruct i as [|i].
  - injection Hi as ->.
    change (<[0%nat := ?x]> (VString url :: items)) with (x :: items). cbn [arrayPaths].
    rewrite (startsWith_appended _ sid Hs), Hs, map_app, Nat.add_0_r. f_equal.
    + cbn [map]. unfold bump. cbn [fst snd]. by rewrite decide_True.
    + symmetry. apply bump_other. intros [u q] (j & _ & _ & ->)%arrayPaths_elem.
      cbn [snd]. intros [= E%showIndex_inj]. lia.
  - change (<[S i := ?x]> (item :: items)) with (item :: <[i := x]> items).
    cbn [arrayPaths]. rewrite map_app, (IH (S idx) i url Hi Hs).
    rewrite Nat.add_succ_r. f_equal. symmetry. apply bump_other.
    intros [u q] Hin. cbn [snd].
    destruct item as [s| | | |]; try by apply elem_of_nil in Hin.
    destruct (startsWith s "singularityapp://"); [|by apply elem_of_nil in Hin].
    apply list_elem_of_singleton in Hin as [= -> ->]. intros [= E%showIndex_inj]. lia.
Qed.

Lemma setOwn_keys entries key v : (setOwn entries key v).*1 = entries.*1.
Proof.
  induction entries as [|[k w] entries IH]; [done|]. cbn [setOwn].
  destruct (String.eqb_spec k key) as [->|_]; [done|]. cbn [fmap list_fmap fst]. by rewrite <- IH.
Qed.

Lemma setOwn_id entries key v : own entries key = Some v → setOwn entries key v = entries.
Proof.
  induction entries as [|[k w] entries IH]; [done|]. cbn [own setOwn].
  destruct (String.eqb k key); [by intros [= ->]|]. intros H. by rewrite IH.
Qed.

(** The references of an object after a write below the entry [key]. *)
Lemma entryPaths_setOwn sid entries key v v' rest :
  NoDup (entries.*1) → (key, v) ∈ entries →
  paths v' = map (bump rest sid) (paths v) →
  entryPaths paths (setOwn entries key v')
  = map (bump (Key key :: rest) sid) (entryPaths paths entries).
Proof.
  intros Hnd Hin Hv'. induction entries as [|[k w] entries IH]; [by apply elem_of_nil in Hin|].
  cbn [fmap list_fmap fst] in Hnd. apply NoDup_cons in Hnd as [Hk Hnd].
  cbn [setOwn entryPaths]. rewrite map_app.
  destruct (String.eqb_spec k key) as [->|Hne].
  - assert (w = v) as ->.
    { apply elem_of_cons in Hin as [[= ->]|Hin]; [done|].
      destruct Hk. apply list_elem_of_fmap. by exists (key, v). }
    cbn [entryPaths]. rewrite bump_cons, Hv'. f_equal.
    symmetry. apply bump_other. intros [u q] (k & x & r & Hentry & _ & ->)%entryPaths_elem.
    cbn [snd]. intros [= -> _]. destruct Hk. apply list_elem_of_fmap. by exists (key, x).
  - apply elem_of_cons in Hin as [[= -> ->]|Hin]; [done|].
    cbn [entryPaths]. rewrite (IH Hnd Hin). f_equal.
    symmetry. apply bump_other. intros [u q] ([u0 q0] & [= -> ->] & _)%list_elem_of_fmap.
    cbn [snd]. by intros [= ->].
Qed.

Lemma plain_setOwn entries key v' :
  plain (VObject entries) = true → plain v' = true →
  plain (VObject (setOwn entries key v')) = true.
Proof.
  intros [Hnd Hall]%plain_entries Hv'. cbn [plain]. apply andb_true_iff. split.
  - apply bool_decide_eq_true. by rewrite setOwn_keys.
  - clear Hnd. induction entries as [|[k w] entries IH]; [done|].
    apply Forall_cons in Hall as [[Hk Hw] Hall]. cbn [fst snd] in Hk, Hw.
    assert (Hrest : forallb (fun entry : string * Value =>
                               let '(key, v) := entry in plainKey key && plain v) entries = true).
    { apply forallb_forall. intros [k0 w0] Hin%list_elem_of_In.
      rewrite Forall_forall in Hall. destruct (Hall _ Hin) as [H1 H2].
      cbn [fst snd] in H1, H2. by rewrite H1, H2. }
    cbn [setOwn]. destruct (String.eqb k key); cbn [forallb].
    + by rewrite Hk, Hv', Hrest.
    + by rewrite Hk, Hw, IH.
Qed.

Lemma paths_nil value url : (url, []) ∈ paths value → value = VString url.
Proof.
  destruct value as [s| |b|items|entries]; cbn [paths]; try by intros ?%elem_of_nil.
  - destruct (startsWith s "singularityapp://"); [|by intros ?%elem_of_nil].
    by intros [= ->]%list_elem_of_singleton.
  - by intros (i & _ & _ & ?)%arrayPaths_elem.
  - by intros (? & ? & ? & _ & _ & ?)%entryPaths_elem.
Qed.

Lemma paths_startsWith value url parts :
  (url, parts) ∈ paths value → startsWith url "singularityapp://" = true.
Proof.
  revert url parts.
  induction value as [s| |b|items|entries IH] using Value_nested_ind; intros url parts;
    cbn [paths]; try by intros ?%elem_of_nil.
  - destruct (startsWith s "singularityapp://") eqn:E; [|by intros ?%elem_of_nil].
    by intros [= -> _]%list_elem_of_singleton.
  - by intros (i & _ & ? & _)%arrayPaths_elem.
  - intros (key & v & rest & Hentry & Hin & _)%entryPaths_elem.
    rewrite Forall_forall in IH. by apply (IH _ Hentry url rest).
Qed.

Lemma writeParts_step part part' rest sid obj :
  writeParts (part :: part' :: rest) sid obj
  = match obj with
    | VNull => Known (Throw TypeError)
    | _ =>
        match getProperty obj part with
        | Known (Some child) =>
            match writeParts (part' :: rest) sid child with
            | Known (Ok child') => Known (Ok (setProperty obj part child'))
            | other => other
            end
        | _ => Unmodelled
        end
    end.
Proof. done. Qed.

(** The callback at the parts of a reference: it returns, and the
    references of the front matter are the old ones, the one at these
    parts with its sid. *)
Lemma writeParts_paths sid value : ∀ url parts,
  plain value = true → (url, parts) ∈ paths value → parts ≠ [] →
  ∃ value',
    writeParts parts sid value = Known (Ok value')
    ∧ plain value' = true
    ∧ paths value' = map (bump parts sid) (paths value)
    ∧ (∀ entries, value = VObject entries → ∃ entries', value' = VObject entries').
Proof.
  induction value as [s| |b|items|entries IH] using Value_nested_ind;
    intros url parts Hplain Hin Hparts; try by apply elem_of_nil in Hin.
  - cbn [paths] in Hin. destruct (startsWith s "singularityapp://"); [|by apply elem_of_nil in Hin].
    by apply list_elem_of_singleton in Hin as [= _ ->].
  - cbn [paths] in Hin. apply arrayPaths_elem in Hin as (i & Hi & Hs & ->).
    change (0 + i)%nat with i.
    exists (VArray (<[i := VString (if includes url "#sid=" then url
                                    else url +:+ "#sid=" +:+ sid)]> items)).
    split_and!; [|done|by apply (arrayPaths_insert sid items 0%nat)|done].
    cbn [writeParts writeLast getProperty setProperty].
    rewrite parseInt_showIndex, Nat2N.id, Hi.
    rewrite (startsWith_nonempty _ _ Hs eq_refl). cbn [negb andb].
    destruct (includes url "#sid="); cbn [negb]; [|done].
    by rewrite list_insert_id.
  - cbn [paths] in Hin. apply entryPaths_elem in Hin as (key & v & rest & Hentry & Hrest & ->).
    destruct (plain_entries _ Hplain) as [Hnd _].
    destruct (plain_entry _ _ _ Hplain Hentry) as [Hkey Hv].
    pose proof (own_elem _ _ _ Hnd Hentry) as Hown.
    assert (Hchild : ∃ v', plain v' = true
                           ∧ paths v' = map (bump rest sid) (paths v)
                           ∧ writeParts (Key key :: rest) sid (VObject entries)
                             = Known (Ok (VObject (setOwn entries key v')))).
    { destruct rest as [|part rest].
      - apply paths_nil in Hrest as Hleaf. subst v.
        pose proof (paths_startsWith _ _ _ Hrest) as Hs.
        exists (VString (if includes url "#sid=" then url else url +:+ "#sid=" +:+ sid)).
        split_and!; [done| |].
        + cbn [paths]. rewrite (startsWith_appended _ sid Hs), Hs. cbn [map].
          unfold bump. cbn [fst snd]. by rewrite decide_True.
        + cbn [writeParts writeLast getProperty setProperty]. rewrite Hown.
          destruct (includes url "#sid="); cbn [negb]; [|done].
          by rewrite (setOwn_id _ _ _ Hown).
      - rewrite Forall_forall in IH.
        destruct (IH _ Hentry url (part :: rest) Hv Hrest) as (v' & Hw & Hp & Hpaths & _); [done|].
        cbn [snd] in Hw, Hp, Hpaths.
        exists v'. split_and!; [done..|].
        rewrite writeParts_step. cbn [getProperty]. by rewrite Hown, Hw. }
    destruct Hchild as (v' & Hp & Hpaths & Hw).
    exists (VObject (setOwn entries key v')). split_and!; [done| | |by eexists].
    + by apply plain_setOwn.
    + cbn [paths]. by apply entryPaths_setOwn with v.
Qed.

(** Among the parts of references, the field name tells the parts. *)
Lemma render_inj parts parts' :
  Forall goodPart parts → Forall goodPart parts' →
  render "" parts = render "" parts' → parts = parts'.
Proof.
  intros H H' E. apply (f_equal matchParts) in E.
  by rewrite !matchParts_render in E.
Qed.

(** The flat view after the write. *)
Lemma appendSid_paths sid parts (l : list (string * list Part)) :
  NoDup l.*2 → (∀ ref, ref ∈ l → Forall goodPart ref.2) → Forall goodPart parts →
  ObsidianLinkSync.appendSid (map (fun ref => (render "" ref.2, ref.1)) l)
    (render "" parts) sid
  = map (fun ref => (render "" ref.2, ref.1)) (map (bump parts sid) l).
Proof.
  intros Hnd Hgood Hparts. induction l as [|[u q] l IH]; [done|].
  cbn [fmap list_fmap snd] in Hnd. apply NoDup_cons in Hnd as [Hq Hnd].
  cbn [map ObsidianLinkSync.appendSid fst snd]. unfold bump at 1 2. cbn [fst snd].
  destruct (String.eqb_spec (render "" q) (render "" parts)) as [E|Hne].
  - apply render_inj in E; [|by apply (Hgood (u, q)); left|done]. subst q.
    rewrite decide_True by done. f_equal. f_equal. symmetry. apply bump_other.
    intros [u' q'] Hin. cbn [snd]. intros ->. destruct Hq.
    apply list_elem_of_fmap. by exists (u', parts).
  - rewrite decide_False by (by intros ->). f_equal. apply IH; [done|].
    intros ref Hin. apply Hgood. by right.
Qed.

End WriteFacts.

Section FrontMatterProperties.

Import FrontMatterTree FrontMatterPaths.

Lemma findAllSingularityUrls_paths fm :
  findAllSingularityUrls fm ""
  = map (fun ref => (ref.1, render "" ref.2)) (paths (VObject fm)).
Proof. apply (pushedFor_paths (VObject fm) ""). Qed.

(** A reference of the front matter, by its parts. *)
Lemma findAllSingularityUrls_elem fm url fieldName :
  plain (VObject fm) = true →
  (url, fieldName) ∈ findAllSingularityUrls fm "" →
  ∃ part parts,
    (url, part :: parts) ∈ paths (VObject fm)
    ∧ Forall goodPart (part :: parts)
    ∧ fieldName = render "" (part :: parts)
    ∧ matchParts fieldName = part :: parts.
Proof.
  intros Hplain. rewrite findAllSingularityUrls_paths.
  intros ([u q] & [= -> ->] & Hin)%list_elem_of_fmap.
  pose proof (paths_good _ _ _ Hplain Hin) as Hgood.
  destruct q as [|part parts]; [by apply paths_nil in Hin|].
  exists part, parts. split_and!; [done..|].
  by rewrite (matchParts_render _ "" Hgood).
Qed.

(** A key with a dot: the reference is reported, and is not read back
    under the name it is reported with. *)
Example dotted_key_not_read_back url :
  startsWith url "singularityapp://" = true →
  findAllSingularityUrls [("a.b", VString url)] "" = [(url, "a.b")]
  ∧ getFieldValue (Some (VObject [("a.b", VString url)])) "a.b" = Known None.
Proof.
  intros H. split; [|done].
  cbn [findAllSingularityUrls forEntries pushedFor Regex.isEmpty]. by rewrite H.
Qed.

(** X28 — Every reference is read back under its field name: when the
    keys of the objects of a front matter are plain - not empty and
    without dot and bracket - [getFieldValue] at a field name that
    [findAllSingularityUrls] reports returns the very string reported with
    it, whether the reference is the value of a field, an item of an
    array or lies in nested objects. *)
Theorem findAllSingularityUrls_read_back
    (fm : list (string * Value)) (url fieldName : string) :
  plain (VObject fm) = true →
  (url, fieldName) ∈ findAllSingularityUrls fm "" →
  startsWith url "singularityapp://" = true
  ∧ getFieldValue (Some (VObject fm)) fieldName = Known (Some (VString url)).
Proof.
  intros Hplain Hin.
  destruct (findAllSingularityUrls_elem _ _ _ Hplain Hin) as (part & parts & Hpath & _ & _ & Hparts).
  split; [by apply (paths_startsWith _ _ _ Hpath)|].
  unfold getFieldValue. rewrite Hparts. by apply readParts_paths.
Qed.

Lemma findAllSingularityUrls_read_back_witness :
  plain (VObject Sample.nested) = true
  ∧ getFieldValue (Some (VObject Sample.nested)) "meta.deep.ref"
    = Known (Some (VString "singularityapp://?&page=any&id=T-3")).
Proof.
  split; [by vm_compute|].
  apply (findAllSingularityUrls_read_back Sample.nested
           "singularityapp://?&page=any&id=T-3" "meta.deep.ref"); [by vm_compute|].
  apply list_elem_of_In. vm_compute. tauto.
Defined.

Lemma names_NoDup fm :
  plain (VObject fm) = true → NoDup (findAllSingularityUrls fm "").*2.
Proof.
  intros Hplain. rewrite findAllSingularityUrls_paths, <- list_fmap_compose.
  change (snd ∘ (fun ref : string * list Part => (ref.1, render "" ref.2)))
    with (render "" ∘ (snd : string * list Part → list Part)).
  rewrite list_fmap_compose. apply NoDup_fmap_2_strong; [|by apply paths_NoDup].
  intros q q' ([u r] & -> & Hin)%list_elem_of_fmap ([u' r'] & -> & Hin')%list_elem_of_fmap.
  apply render_inj; by eapply paths_good.
Qed.

Lemma lookupField_elem (l : list (string * string)) fieldName url :
  NoDup l.*1 → (fieldName, url) ∈ l ↔ ObsidianLinkSync.lookupField l fieldName = Some url.
Proof.
  intros Hnd. induction l as [|[k v] l IH].
  - split; [by intros ?%elem_of_nil|done].
  - cbn [fmap list_fmap fst] in Hnd. apply NoDup_cons in Hnd as [Hk Hnd].
    cbn [ObsidianLinkSync.lookupField]. rewrite elem_of_cons.
    destruct (String.eqb_spec k fieldName) as [->|Hne].
    + split; [|intros [= ->]; by left].
      intros [[= ->]|Hin]; [done|]. destruct Hk. apply list_elem_of_fmap. by exists (fieldName, url).
    + rewrite <- (IH Hnd). split; [|by right]. by intros [[= -> ->]|?].
Qed.

(** X29 — Field names identify references: in a front matter with plain
    keys no two references get the same field name, so the list of the
    references by field name - the view that the synchroniser has of the
    front matter - holds under each reported name the reference reported
    with it, and nothing else. *)
Theorem field_names_identify (fm : list (string * Value)) :
  plain (VObject fm) = true →
  NoDup (findAllSingularityUrls fm "").*2
  ∧ ObsidianLinkSync.findAllSingularityUrls (flat fm) = findAllSingularityUrls fm ""
  ∧ ∀ url fieldName,
      (url, fieldName) ∈ findAllSingularityUrls fm ""
      ↔ ObsidianLinkSync.lookupField (flat fm) fieldName = Some url.
Proof.
  intros Hplain. pose proof (names_NoDup _ Hplain) as Hnd. split; [done|]. split.
  - unfold ObsidianLinkSync.findAllSingularityUrls, flat.
    assert (Hall : ∀ ref, ref ∈ findAllSingularityUrls fm "" →
                          startsWith ref.1 "singularityapp://" = true).
    { intros [u f] Hin.
      destruct (findAllSingularityUrls_elem _ _ _ Hplain Hin) as (part & parts & Hpath & _).
      by apply (paths_startsWith _ _ _ Hpath). }
    induction (findAllSingularityUrls fm "") as [|[u f] l IH]; [done|].
    cbn [map]. rewrite filter_cons_True.
    + cbn [map fst snd]. f_equal. apply IH.
      * cbn [fmap list_fmap snd] in Hnd. by apply NoDup_cons in Hnd as [_ ?].
      * intros ref Hin. apply Hall. by right.
    + cbn [snd]. rewrite (Hall (u, f)); [done|left].
  - intros url fieldName. rewrite <- lookupField_elem.
    + unfold flat. rewrite list_elem_of_fmap. split.
      * intros Hin. by exists (url, fieldName).
      * by intros ([u f] & [= -> ->] & Hin).
    + unfold flat. rewrite <- list_fmap_compose. done.
Qed.

Lemma field_names_identify_witness :
  plain (VObject Sample.nested) = true
  ∧ ObsidianLinkSync.lookupField (flat Sample.nested) "links[1]"
    = Some "singularityapp://?&page=any&id=T-2#sid=ab12".
Proof.
  split; [by vm_compute|].
  destruct (field_names_identify Sample.nested) as (_ & _ & H); [by vm_compute|].
  apply H. apply list_elem_of_In. vm_compute. tauto.
Defined.

(** X30 — The sid is written to the reference it is generated for: in a
    front matter with plain keys, the callback of [addSidToFieldUrl] for
    the field name of a reference returns; the reference has [#sid=] and
    the sid appended, unless it included [#sid=] already, and
    [getFieldValue] reads it so under the same name; the keys are plain
    as before, and the other references are untouched - in the view by
    field name the write is the append of the sid at that name. *)
Theorem addSidToFieldUrl_writes_reference
    (fm : list (string * Value)) (url fieldName sid : string) :
  plain (VObject fm) = true →
  (url, fieldName) ∈ findAllSingularityUrls fm "" →
  ∃ fm',
    addSidToFieldUrl fieldName sid (VObject fm) = Known (Ok (VObject fm'))
    ∧ plain (VObject fm') = true
    ∧ flat fm' = ObsidianLinkSync.appendSid (flat fm) fieldName sid
    ∧ getFieldValue (Some (VObject fm')) fieldName
      = Known (Some (VString (if includes url "#sid=" then url
                              else url +:+ "#sid=" +:+ sid))).
Proof.
  intros Hplain Hin.
  destruct (findAllSingularityUrls_elem _ _ _ Hplain Hin)
    as (part & parts & Hpath & Hgood & Hname & Hparts).
  destruct (writeParts_paths sid _ _ _ Hplain Hpath) as (v' & Hw & Hp & Hpaths & Hobj); [done|].
  destruct (Hobj fm eq_refl) as [fm' ->]. exists fm'.
  assert (Hin' : (if includes url "#sid=" then url else url +:+ "#sid=" +:+ sid,
                  part :: parts) ∈ paths (VObject fm')).
  { rewrite Hpaths. apply list_elem_of_fmap. exists (url, part :: parts).
    split; [|done]. unfold bump. cbn [fst snd]. by rewrite decide_True. }
  split_and!; [|done| |].
  - unfold addSidToFieldUrl. by rewrite Hparts.
  - unfold flat. rewrite !findAllSingularityUrls_paths, Hpaths, !map_map. cbn [fst snd].
    rewrite Hname, (appendSid_paths sid (part :: parts)); [by rewrite map_map| | |done].
    + by apply paths_NoDup.
    + intros [u q] Hu. apply (paths_good _ u q Hplain Hu).
  - unfold getFieldValue. rewrite Hparts. by apply readParts_paths.
Qed.

Lemma addSidToFieldUrl_writes_reference_witness :
  plain (VObject Sample.nested) = true
  ∧ ∃ fm',
      addSidToFieldUrl "meta.deep.ref" "cd34" (VObject Sample.nested) = Known (Ok (VObject fm'))
      ∧ getFieldValue (Some (VObject fm')) "meta.deep.ref"
        = Known (Some (VString "singularityapp://?&page=any&id=T-3#sid=cd34")).
Proof.
  split; [by vm_compute|].
  destruct (addSidToFieldUrl_writes_reference Sample.nested
              "singularityapp://?&page=any&id=T-3" "meta.deep.ref" "cd34")
    as (fm' & H1 & _ & _ & H2); [by vm_compute| |by exists fm'].
  apply list_elem_of_In. vm_compute. tauto.
Defined.

End FrontMatterProperties.
